(** * Rise-Up: the simulation core of the balloon-and-shield game

    A shallow embedding of [src/lib/collision-system.ts],
    [src/lib/pattern-system.ts] and [src/lib/game-engine.ts].

    Numbers.  A JavaScript [number] is modelled as an exact real: [Math.sqrt]
    is [sqrt], [Math.sin] is [sin], [Math.max]/[Math.min] are [Rmax]/[Rmin],
    [Math.floor] is [Int_part], and [===] on numbers is [Req_dec_T].
    Rounding of IEEE doubles is therefore not part of the model.

    Objects.  A JavaScript object is a record; an optional member is an
    [option], with [None] for [undefined].  The engine and the pattern system
    mutate their members in place: every method is a function from the state
    before the call to the state after it.

    Randomness.  [Math.random] is an oracle [oracle : nat -> R]; the state
    counts the draws made so far, and the k-th call returns [oracle k].

    Notifications.  The two optional callbacks are modelled by the log of the
    notifications sent to them. *)

From Stdlib Require Import Reals Lra Lia ZArith String List.
From stdpp Require Import base strings gmap.
Import ListNotations.
Open Scope R_scope.

(** ** types.ts *)

Inductive GameState := menu | playing | paused | gameOver.

Record Vector2 := mkVector2 { x : R; y : R }.

(** [GameObject] with the optional members of [Obstacle].  The collision
    system casts its [GameObject] argument to [Obstacle] to read [width] and
    [height], so the embedding gives every game object these members.  The
    [id] (a label built from the wall clock, read nowhere in the simulation)
    and [direction] (never written, never read) are left out. *)
Record GameObject := mkGameObject {
  position : Vector2;
  velocity : Vector2;
  radius : R;
  type : string;
  active : bool;
  width : option R;
  height : option R;
  angle : option R;
  rotationSpeed : option R;
  anchored : option bool;
  arms : option R;
  sweepDirection : option R;
  lifeTime : option R;
  originalPosition : option Vector2
}.

Definition Obstacle := GameObject.

Record Balloon := mkBalloon {
  balloonObject : GameObject;
  baseVelocity : R;
  acceleration : R;
  driftOffset : R
}.

Record Shield := mkShield {
  shieldObject : GameObject;
  targetPosition : Vector2;
  lerpFactor : R;
  mass : R;
  lastHitTime : R
}.

Record PatternParams := mkPatternParams {
  centerX : R;
  spawnY : R;
  balloonVelocity : R;
  shieldRadius : R;
  difficulty : R
}.

Record CollisionInfo := mkCollisionInfo {
  penetration : R;
  normal : Vector2;
  point : Vector2
}.

Inductive ShieldSize := small | normal_size | large.

Record GameSettings := mkGameSettings {
  sensitivity : R;
  shieldSize : ShieldSize;
  debugMode : bool
}.

(** Member updates, [o.position = p] and the like. *)
Definition set_position (p : Vector2) (o : GameObject) : GameObject :=
  mkGameObject p (velocity o) (radius o) (type o) (active o) (width o)
    (height o) (angle o) (rotationSpeed o) (anchored o) (arms o)
    (sweepDirection o) (lifeTime o) (originalPosition o).

Definition set_velocity (v : Vector2) (o : GameObject) : GameObject :=
  mkGameObject (position o) v (radius o) (type o) (active o) (width o)
    (height o) (angle o) (rotationSpeed o) (anchored o) (arms o)
    (sweepDirection o) (lifeTime o) (originalPosition o).

Definition set_radius (r : R) (o : GameObject) : GameObject :=
  mkGameObject (position o) (velocity o) r (type o) (active o) (width o)
    (height o) (angle o) (rotationSpeed o) (anchored o) (arms o)
    (sweepDirection o) (lifeTime o) (originalPosition o).

Definition set_active (a : bool) (o : GameObject) : GameObject :=
  mkGameObject (position o) (velocity o) (radius o) (type o) a (width o)
    (height o) (angle o) (rotationSpeed o) (anchored o) (arms o)
    (sweepDirection o) (lifeTime o) (originalPosition o).

Definition set_angle (a : option R) (o : GameObject) : GameObject :=
  mkGameObject (position o) (velocity o) (radius o) (type o) (active o)
    (width o) (height o) a (rotationSpeed o) (anchored o) (arms o)
    (sweepDirection o) (lifeTime o) (originalPosition o).

Definition set_rotationSpeed (w : option R) (o : GameObject) : GameObject :=
  mkGameObject (position o) (velocity o) (radius o) (type o) (active o)
    (width o) (height o) (angle o) w (anchored o) (arms o)
    (sweepDirection o) (lifeTime o) (originalPosition o).

Definition set_lifeTime (t : option R) (o : GameObject) : GameObject :=
  mkGameObject (position o) (velocity o) (radius o) (type o) (active o)
    (width o) (height o) (angle o) (rotationSpeed o) (anchored o) (arms o)
    (sweepDirection o) t (originalPosition o).

Definition set_originalPosition (p : option Vector2) (o : GameObject)
  : GameObject :=
  mkGameObject (position o) (velocity o) (radius o) (type o) (active o)
    (width o) (height o) (angle o) (rotationSpeed o) (anchored o) (arms o)
    (sweepDirection o) (lifeTime o) p.

(** A plain body: a game object none of whose optional members is set. *)
Definition plainObject (p v : Vector2) (r : R) (t : string) : GameObject :=
  mkGameObject p v r t true None None None None None None None None None.

(** [Math.floor], [Math.ceil], and the number of iterations of
    [for (i = 0; i < n; i++)]. *)
Definition Math_floor (r : R) : R := IZR (Int_part r).
Definition Math_ceil (r : R) : R := - Math_floor (- r).
Definition loopCount (n : R) : nat := Z.to_nat (Int_part n).

(** ** collision-system.ts *)

Module CollisionSystem.

(** [obj.type === 'block' || obj.type === 'sweeper'] *)
Definition isRectangular (o : GameObject) : bool :=
  String.eqb (type o) "block" || String.eqb (type o) "sweeper".

Definition circleVsCircle (obj1 obj2 : GameObject) : option CollisionInfo :=
  let dx := x (position obj2) - x (position obj1) in
  let dy := y (position obj2) - y (position obj1) in
  let distanceSquared := dx * dx + dy * dy in
  let radiusSum := radius obj1 + radius obj2 in
  let radiusSumSquared := radiusSum * radiusSum in
  if Rle_dec distanceSquared radiusSumSquared then
    let distance := sqrt distanceSquared in
    let penetration := radiusSum - distance in
    if Req_dec_T distance 0 then
      Some (mkCollisionInfo penetration (mkVector2 1 0)
              (mkVector2 (x (position obj1)) (y (position obj1))))
    else
      let normalX := dx / distance in
      let normalY := dy / distance in
      Some (mkCollisionInfo penetration (mkVector2 normalX normalY)
              (mkVector2 (x (position obj1) + normalX * radius obj1)
                         (y (position obj1) + normalY * radius obj1)))
  else None.

Definition circleVsAABB (cx cy r ax ay aw ah : R) : option CollisionInfo :=
  let closestX := Rmax ax (Rmin cx (ax + aw)) in
  let closestY := Rmax ay (Rmin cy (ay + ah)) in
  let dx := cx - closestX in
  let dy := cy - closestY in
  let distanceSquared := dx * dx + dy * dy in
  if Rle_dec distanceSquared (r * r) then
    let distance := sqrt distanceSquared in
    let penetration := r - distance in
    if Req_dec_T distance 0 then
      let leftDist := cx - ax in
      let rightDist := (ax + aw) - cx in
      let topDist := cy - ay in
      let bottomDist := (ay + ah) - cy in
      let minDist := Rmin (Rmin (Rmin leftDist rightDist) topDist) bottomDist in
      if Req_dec_T minDist leftDist then
        Some (mkCollisionInfo (r + leftDist) (mkVector2 (-1) 0)
                (mkVector2 ax cy))
      else if Req_dec_T minDist rightDist then
        Some (mkCollisionInfo (r + rightDist) (mkVector2 1 0)
                (mkVector2 (ax + aw) cy))
      else if Req_dec_T minDist topDist then
        Some (mkCollisionInfo (r + topDist) (mkVector2 0 (-1))
                (mkVector2 cx ay))
      else
        Some (mkCollisionInfo (r + bottomDist) (mkVector2 0 1)
                (mkVector2 cx (ay + ah)))
    else
      let normalX := dx / distance in
      let normalY := dy / distance in
      Some (mkCollisionInfo penetration (mkVector2 normalX normalY)
              (mkVector2 closestX closestY))
  else None.

(** A rectangular second operand without [width] or [height] makes every
    number of [circleVsAABB] a NaN; the comparison with [r * r] is then
    false and the result is [null]. *)
Definition checkCollision (obj1 obj2 : GameObject) : option CollisionInfo :=
  if isRectangular obj2 then
    match width obj2, height obj2 with
    | Some w, Some h =>
        circleVsAABB (x (position obj1)) (y (position obj1)) (radius obj1)
          (x (position obj2) - w / 2) (y (position obj2) - h / 2) w h
    | _, _ => None
    end
  else circleVsCircle obj1 obj2.

(** [{ ...obj, position: p + v * dt * t }]: the body moved along its
    velocity. *)
Definition movedAlong (obj : GameObject) (dt t : R) : GameObject :=
  set_position
    (mkVector2 (x (position obj) + x (velocity obj) * dt * t)
               (y (position obj) + y (velocity obj) * dt * t)) obj.

(** The sampling loop of [checkContinuousCollision]: [count] samples are
    left, the next one has index [i]. *)
Fixpoint sampleCollisions (count i : nat) (obj1 obj2 : GameObject)
  (dt stepSize : R) : option CollisionInfo :=
  match count with
  | O => None
  | S c =>
      let t := INR i * stepSize in
      match checkCollision (movedAlong obj1 dt t) (movedAlong obj2 dt t) with
      | Some collision => Some collision
      | None => sampleCollisions c (S i) obj1 obj2 dt stepSize
      end
  end.

(** The number of steps is a quotient by the radii: the embedding follows
    the source where both radii are not 0.  With a radius 0 the source
    divides by zero: [steps] is [NaN] (from 0 / 0), and then both
    [steps <= 1] and the test of the loop fail and the source returns
    [null], or it is [Infinity].  What is proved of this function assumes
    positive radii. *)
Definition checkContinuousCollision (obj1 obj2 : GameObject) (dt : R)
  : option CollisionInfo :=
  let steps :=
    Math_ceil
      (Rmax (Rmax (Rmax (Rabs (x (velocity obj1) * dt) / radius obj1)
                        (Rabs (y (velocity obj1) * dt) / radius obj1))
                  (Rabs (x (velocity obj2) * dt) / radius obj2))
            (Rabs (y (velocity obj2) * dt) / radius obj2)) in
  if Rle_dec steps 1 then checkCollision obj1 obj2
  else
    let stepSize := 1 / steps in
    sampleCollisions (S (loopCount steps)) 0 obj1 obj2 dt stepSize.

End CollisionSystem.

(** ** Math.random *)

Record Rng := mkRng { oracle : nat -> R; drawn : nat }.

(** A computation that may call [Math.random]. *)
Definition Rand (A : Type) : Type := Rng -> A * Rng.

Definition ret {A : Type} (a : A) : Rand A := fun g => (a, g).

Definition bind {A B : Type} (c : Rand A) (k : A -> Rand B) : Rand B :=
  fun g => let (a, g') := c g in k a g'.

Notation "v <- c ;; k" := (bind c (fun v => k))
  (at level 100, c at next level, right associativity).

Definition Math_random : Rand R :=
  fun g => (oracle g (drawn g), mkRng (oracle g) (S (drawn g))).

(** [for (let i = start; i < start + count; i++) body], the bodies pushing
    onto one array. *)
Fixpoint forEachIndex (count i : nat) (body : nat -> Rand (list Obstacle))
  : Rand (list Obstacle) :=
  match count with
  | O => ret []
  | S c =>
      os <- body i ;;
      rest <- forEachIndex c (S i) body ;;
      ret (os ++ rest)
  end.

Definition Rleb (a b : R) : bool := if Rle_dec a b then true else false.
Definition Rltb (a b : R) : bool := if Rlt_dec a b then true else false.
Definition Reqb (a b : R) : bool := if Req_dec_T a b then true else false.

(** ** pattern-system.ts *)

Record Pattern := mkPattern {
  name : string;
  weight : R;
  minAltitude : R;
  spawn : PatternParams -> Rand (list Obstacle)
}.

Record PatternSystem := mkPatternSystem {
  patterns : list Pattern;
  spawnTimer : R;
  spawnCooldown : R;
  lastSpawnY : R;
  patternHistory : list string
}.

Module PatternSystem.

(** The [do ... while] of [spawnBlockRain]: [retries] further draws are
    allowed after this one (nine after the first, [attempts < 10]). *)
Fixpoint pickBlockX (retries : nat) (lo hi : R) : Rand R :=
  r <- Math_random ;;
  let x := r * (800 - 100) + 50 in
  match retries with
  | O => ret x
  | S n =>
      if Rltb lo x && Rltb x hi then pickBlockX n lo hi else ret x
  end.

Definition spawnBlockRain (params : PatternParams) : Rand (list Obstacle) :=
  let blockCount := Math_floor (2 + difficulty params * 3) in
  let minGap := shieldRadius params * 2.4 + 20 in
  let safeZone_x := centerX params - minGap / 2 in
  let safeZone_width := minGap in
  forEachIndex (loopCount blockCount) 0 (fun i =>
    x <- pickBlockX 9 (safeZone_x - 40) (safeZone_x + safeZone_width + 40) ;;
    r1 <- Math_random ;;
    r2 <- Math_random ;;
    ret [mkGameObject (mkVector2 x (spawnY params - r1 * 100))
           (mkVector2 0 (r2 * 30 + 20)) 20 "block" true
           (Some 40) (Some 40) None None None None None None None]).

Definition spawnChicane (params : PatternParams) : Rand (list Obstacle) :=
  r <- Math_random ;;
  let side := if Rlt_dec r 0.5 then -1 else 1 in
  let left :=
    if Req_dec_T side 1 then
      [mkGameObject (mkVector2 50 (spawnY params)) (mkVector2 0 0) 25 "block"
         true (Some 100) (Some 50) None None (Some true) None None None None]
    else [] in
  let right :=
    if Req_dec_T side (-1) then
      [mkGameObject (mkVector2 750 (spawnY params)) (mkVector2 0 0) 25 "block"
         true (Some 100) (Some 50) None None (Some true) None None None None]
    else [] in
  ret (left ++ right).

Definition spawnSpikeGauntlet (params : PatternParams) : Rand (list Obstacle) :=
  let spikeCount := Math_floor (3 + difficulty params * 2) in
  let minGap := shieldRadius params * 2.4 + 15 in
  forEachIndex (loopCount spikeCount) 0 (fun i =>
    r1 <- Math_random ;;
    let angle := r1 * PI * 2 in
    r2 <- Math_random ;;
    let x := 100 + r2 * 600 in
    if Rlt_dec (minGap / 2) (Rabs (x - centerX params)) then
      r3 <- Math_random ;;
      ret [mkGameObject (mkVector2 x (spawnY params - INR i * 60))
             (mkVector2 0 0) 25 "spike" true None None (Some angle) None
             (Some (Rltb r3 0.7)) None None None None]
    else ret []).

Definition spawnRotor (params : PatternParams) : Rand (list Obstacle) :=
  r1 <- Math_random ;;
  let rotorX := centerX params + (r1 - 0.5) * 200 in
  r2 <- Math_random ;;
  let rotationSpeed := (r2 - 0.5) * 4 + 2 in
  ret [mkGameObject (mkVector2 rotorX (spawnY params)) (mkVector2 0 0) 80
         "rotor" true None None (Some 0) (Some rotationSpeed) (Some true)
         (Some 3) None None None].

Definition spawnSweeper (params : PatternParams) : Rand (list Obstacle) :=
  r <- Math_random ;;
  let direction := if Rlt_dec r 0.5 then -1 else 1 in
  let startX := if Req_dec_T direction 1 then -50 else 850 in
  let speed := 150 + difficulty params * 50 in
  ret [mkGameObject (mkVector2 startX (spawnY params))
         (mkVector2 (direction * speed) 0) 15 "sweeper" true (Some 200)
         (Some 30) None None None None (Some direction) None None].

Definition spawnShardBurst (params : PatternParams) : Rand (list Obstacle) :=
  let shardCount := Math_floor (8 + difficulty params * 4) in
  r0 <- Math_random ;;
  let centerX' := centerX params + (r0 - 0.5) * 200 in
  forEachIndex (loopCount shardCount) 0 (fun i =>
    let angle := (INR i / shardCount) * PI * 2 in
    r1 <- Math_random ;;
    let speed := 100 + r1 * 50 in
    r2 <- Math_random ;;
    ret [mkGameObject (mkVector2 centerX' (spawnY params))
           (mkVector2 (cos angle * speed) (sin angle * speed + 50)) 8 "shard"
           true None None None None None None None (Some (3 + r2 * 2)) None]).

Definition spawnGridDrop (params : PatternParams) : Rand (list Obstacle) :=
  let columns := 4 in
  let columnWidth := 800 / columns in
  r0 <- Math_random ;;
  let safeColumn := Math_floor (r0 * columns) in
  forEachIndex 4 0 (fun col =>
    if Req_dec_T (INR col) safeColumn then ret []
    else
      let x := INR col * columnWidth + columnWidth / 2 in
      r1 <- Math_random ;;
      let blockCount := Math_floor (2 + r1 * 3) in
      forEachIndex (loopCount blockCount) 0 (fun i =>
        r2 <- Math_random ;;
        r3 <- Math_random ;;
        r4 <- Math_random ;;
        ret [mkGameObject
               (mkVector2 (x + (r2 - 0.5) * 40)
                          (spawnY params - INR i * 80 - r3 * 50))
               (mkVector2 0 (30 + r4 * 20)) 20 "block" true (Some 40)
               (Some 40) None None (Some false) None None None None])).

Definition initializePatterns : list Pattern :=
  [ mkPattern "blockRain" 3 0 spawnBlockRain;
    mkPattern "chicane" 2 50 spawnChicane;
    mkPattern "spikeGauntlet" 2 100 spawnSpikeGauntlet;
    mkPattern "rotor" 1.5 150 spawnRotor;
    mkPattern "sweeper" 1.5 100 spawnSweeper;
    mkPattern "shardBurst" 1 200 spawnShardBurst;
    mkPattern "gridDrop" 2 75 spawnGridDrop ].

(** The constructor. *)
Definition new : PatternSystem :=
  mkPatternSystem initializePatterns 0 1.2 0 [].

Definition reset (ps : PatternSystem) : PatternSystem :=
  mkPatternSystem (patterns ps) 0 1.2 0 [].

(** The loop of [selectWeightedPattern]: [None] when it runs to its end. *)
Fixpoint pickByWeight (pool : list Pattern) (rnd : R) : option Pattern :=
  match pool with
  | [] => None
  | p :: rest =>
      let rnd' := rnd - weight p in
      if Rle_dec rnd' 0 then Some p else pickByWeight rest rnd'
  end.

(** [None] is the [undefined] that [patterns[patterns.length - 1]] reads in
    an empty array. *)
Definition selectWeightedPattern (pool : list Pattern)
  : Rand (option Pattern) :=
  let totalWeight := fold_left (fun sum p => sum + weight p) pool 0 in
  r <- Math_random ;;
  match pickByWeight pool (r * totalWeight) with
  | Some p => ret (Some p)
  | None => ret (last pool)
  end.

Definition executePattern (pattern : Pattern) (params : PatternParams)
  (ps : PatternSystem) : Rand (list Obstacle * PatternSystem) :=
  let pushed := patternHistory ps ++ [name pattern] in
  let history := if (5 <? length pushed)%nat then tl pushed else pushed in
  os <- spawn pattern params ;;
  ret (os, mkPatternSystem (patterns ps) (spawnTimer ps) (spawnCooldown ps)
             (spawnY params) history).

(** [patternHistory.slice(-2)] *)
Definition lastTwo (h : list string) : list string :=
  skipn (length h - 2) h.

(** The pool is not empty where a pattern is selected, so the selection is
    never [undefined]; on [undefined] the source would raise at
    [pattern.name], and the embedding spawns nothing. *)
Definition spawnPattern (params : PatternParams) (ps : PatternSystem)
  : Rand (list Obstacle * PatternSystem) :=
  let currentAltitude := Rabs (spawnY params) / 10 in
  let availablePatterns :=
    List.filter (fun p => Rleb (minAltitude p) currentAltitude) (patterns ps) in
  match availablePatterns with
  | [] => ret ([], ps)
  | _ :: _ =>
      selected <- selectWeightedPattern availablePatterns ;;
      match selected with
      | None => ret ([], ps)
      | Some pattern =>
          if (3 <=? length (patternHistory ps))%nat
             && forallb (fun n => String.eqb n (name pattern))
                  (lastTwo (patternHistory ps))
          then
            let alternatives :=
              List.filter (fun p => negb (String.eqb (name p) (name pattern)))
                availablePatterns in
            match alternatives with
            | _ :: _ =>
                alt <- selectWeightedPattern alternatives ;;
                match alt with
                | Some altPattern => executePattern altPattern params ps
                | None => ret ([], ps)
                end
            | [] => executePattern pattern params ps
            end
          else executePattern pattern params ps
      end
  end.

Definition update (dt : R) (params : PatternParams) (ps : PatternSystem)
  : Rand (list Obstacle * PatternSystem) :=
  let timer := spawnTimer ps - dt in
  if Rle_dec timer 0 then
    let cooldown := Rmax 0.55 (1.2 - difficulty params * 0.65) in
    spawnPattern params
      (mkPatternSystem (patterns ps) cooldown cooldown (lastSpawnY ps)
         (patternHistory ps))
  else
    ret ([], mkPatternSystem (patterns ps) timer (spawnCooldown ps)
               (lastSpawnY ps) (patternHistory ps)).

End PatternSystem.

(** ** game-engine.ts *)

(** What the engine sends to [onScoreChange] and [onGameStateChange]. *)
Inductive Notification :=
| ScoreChange (score : R)
| StateChange (state : GameState).

(** The members of the engine.  [canvasWidth] and [canvasHeight] are
    [this.canvas.width] and [this.canvas.height]; [rng] is the state of
    [Math.random]; [notifications] is the log of the calls of the two
    callbacks, the latest last.  The drawing context, the renderer and the
    animation-frame handle carry no simulation state and are left out. *)
Record GameEngine := mkGameEngine {
  canvasWidth : R;
  canvasHeight : R;
  patternSystem : PatternSystem;
  gameState : GameState;
  score : R;
  gameTime : R;
  cameraY : R;
  balloon : Balloon;
  shield : Shield;
  obstacles : list Obstacle;
  lastTime : R;
  accumulator : R;
  mousePosition : Vector2;
  worldMousePosition : Vector2;
  keys : gset string;
  settings : GameSettings;
  rng : Rng;
  notifications : list Notification
}.

Definition with_patternSystem (v : PatternSystem) (e : GameEngine) : GameEngine :=
  mkGameEngine (canvasWidth e) (canvasHeight e) v (gameState e) (score e)
    (gameTime e) (cameraY e) (balloon e) (shield e) (obstacles e) (lastTime e)
    (accumulator e) (mousePosition e) (worldMousePosition e) (keys e)
    (settings e) (rng e) (notifications e).

Definition with_gameState (v : GameState) (e : GameEngine) : GameEngine :=
  mkGameEngine (canvasWidth e) (canvasHeight e) (patternSystem e) v (score e)
    (gameTime e) (cameraY e) (balloon e) (shield e) (obstacles e) (lastTime e)
    (accumulator e) (mousePosition e) (worldMousePosition e) (keys e)
    (settings e) (rng e) (notifications e).

Definition with_score (v : R) (e : GameEngine) : GameEngine :=
  mkGameEngine (canvasWidth e) (canvasHeight e) (patternSystem e)
    (gameState e) v (gameTime e) (cameraY e) (balloon e) (shield e)
    (obstacles e) (lastTime e) (accumulator e) (mousePosition e)
    (worldMousePosition e) (keys e) (settings e) (rng e) (notifications e).

Definition with_gameTime (v : R) (e : GameEngine) : GameEngine :=
  mkGameEngine (canvasWidth e) (canvasHeight e) (patternSystem e)
    (gameState e) (score e) v (cameraY e) (balloon e) (shield e) (obstacles e)
    (lastTime e) (accumulator e) (mousePosition e) (worldMousePosition e)
    (keys e) (settings e) (rng e) (notifications e).

Definition with_cameraY (v : R) (e : GameEngine) : GameEngine :=
  mkGameEngine (canvasWidth e) (canvasHeight e) (patternSystem e)
    (gameState e) (score e) (gameTime e) v (balloon e) (shield e)
    (obstacles e) (lastTime e) (accumulator e) (mousePosition e)
    (worldMousePosition e) (keys e) (settings e) (rng e) (notifications e).

Definition with_balloon (v : Balloon) (e : GameEngine) : GameEngine :=
  mkGameEngine (canvasWidth e) (canvasHeight e) (patternSystem e)
    (gameState e) (score e) (gameTime e) (cameraY e) v (shield e)
    (obstacles e) (lastTime e) (accumulator e) (mousePosition e)
    (worldMousePosition e) (keys e) (settings e) (rng e) (notifications e).

Definition with_shield (v : Shield) (e : GameEngine) : GameEngine :=
  mkGameEngine (canvasWidth e) (canvasHeight e) (patternSystem e)
    (gameState e) (score e) (gameTime e) (cameraY e) (balloon e) v
    (obstacles e) (lastTime e) (accumulator e) (mousePosition e)
    (worldMousePosition e) (keys e) (settings e) (rng e) (notifications e).

Definition with_obstacles (v : list Obstacle) (e : GameEngine) : GameEngine :=
  mkGameEngine (canvasWidth e) (canvasHeight e) (patternSystem e)
    (gameState e) (score e) (gameTime e) (cameraY e) (balloon e) (shield e) v
    (lastTime e) (accumulator e) (mousePosition e) (worldMousePosition e)
    (keys e) (settings e) (rng e) (notifications e).

Definition with_lastTime (v : R) (e : GameEngine) : GameEngine :=
  mkGameEngine (canvasWidth e) (canvasHeight e) (patternSystem e)
    (gameState e) (score e) (gameTime e) (cameraY e) (balloon e) (shield e)
    (obstacles e) v (accumulator e) (mousePosition e) (worldMousePosition e)
    (keys e) (settings e) (rng e) (notifications e).

Definition with_accumulator (v : R) (e : GameEngine) : GameEngine :=
  mkGameEngine (canvasWidth e) (canvasHeight e) (patternSystem e)
    (gameState e) (score e) (gameTime e) (cameraY e) (balloon e) (shield e)
    (obstacles e) (lastTime e) v (mousePosition e) (worldMousePosition e)
    (keys e) (settings e) (rng e) (notifications e).

Definition with_mousePosition (v : Vector2) (e : GameEngine) : GameEngine :=
  mkGameEngine (canvasWidth e) (canvasHeight e) (patternSystem e)
    (gameState e) (score e) (gameTime e) (cameraY e) (balloon e) (shield e)
    (obstacles e) (lastTime e) (accumulator e) v (worldMousePosition e)
    (keys e) (settings e) (rng e) (notifications e).

Definition with_worldMousePosition (v : Vector2) (e : GameEngine) : GameEngine :=
  mkGameEngine (canvasWidth e) (canvasHeight e) (patternSystem e)
    (gameState e) (score e) (gameTime e) (cameraY e) (balloon e) (shield e)
    (obstacles e) (lastTime e) (accumulator e) (mousePosition e) v (keys e)
    (settings e) (rng e) (notifications e).

Definition with_keys (v : gset string) (e : GameEngine) : GameEngine :=
  mkGameEngine (canvasWidth e) (canvasHeight e) (patternSystem e)
    (gameState e) (score e) (gameTime e) (cameraY e) (balloon e) (shield e)
    (obstacles e) (lastTime e) (accumulator e) (mousePosition e)
    (worldMousePosition e) v (settings e) (rng e) (notifications e).

Definition with_settings (v : GameSettings) (e : GameEngine) : GameEngine :=
  mkGameEngine (canvasWidth e) (canvasHeight e) (patternSystem e)
    (gameState e) (score e) (gameTime e) (cameraY e) (balloon e) (shield e)
    (obstacles e) (lastTime e) (accumulator e) (mousePosition e)
    (worldMousePosition e) (keys e) v (rng e) (notifications e).

Definition with_rng (v : Rng) (e : GameEngine) : GameEngine :=
  mkGameEngine (canvasWidth e) (canvasHeight e) (patternSystem e)
    (gameState e) (score e) (gameTime e) (cameraY e) (balloon e) (shield e)
    (obstacles e) (lastTime e) (accumulator e) (mousePosition e)
    (worldMousePosition e) (keys e) (settings e) v (notifications e).

Definition with_notifications (v : list Notification) (e : GameEngine) : GameEngine :=
  mkGameEngine (canvasWidth e) (canvasHeight e) (patternSystem e)
    (gameState e) (score e) (gameTime e) (cameraY e) (balloon e) (shield e)
    (obstacles e) (lastTime e) (accumulator e) (mousePosition e)
    (worldMousePosition e) (keys e) (settings e) (rng e) v.

Definition isPlaying (s : GameState) : bool :=
  match s with playing => true | _ => false end.

Definition isPaused (s : GameState) : bool :=
  match s with paused => true | _ => false end.

(** Truthiness of an optional boolean, and [v || d] on an optional number
    ([undefined] and [0] are falsy). *)
Definition truthy (b : option bool) : bool :=
  match b with Some true => true | _ => false end.

Definition orElse (v : option R) (d : R) : R :=
  match v with
  | Some r => if Req_dec_T r 0 then d else r
  | None => d
  end.

Definition Math_sign (r : R) : R :=
  if Rlt_dec 0 r then 1 else if Rlt_dec r 0 then -1 else 0.

(** [getBoundingClientRect()] as the [mousemove] handler reads it. *)
Record DOMRect := mkDOMRect {
  rectLeft : R; rectTop : R; rectWidth : R; rectHeight : R
}.

Module GameEngine.

Definition physicsStep : R := 1 / 120.
Definition keyboardSpeed : R := 300.
Definition BALLOON_BASE_VELOCITY : R := 80.
Definition BALLOON_ACCELERATION : R := 4.
Definition BALLOON_MAX_VELOCITY : R := 160.
Definition SHIELD_LERP_FACTOR : R := 0.28.
Definition CAMERA_DEAD_ZONE : R := 100.

Definition notify (n : Notification) (e : GameEngine) : GameEngine :=
  with_notifications (notifications e ++ [n]) e.

Definition radiusOfSize (size : ShieldSize) : R :=
  match size with
  | small => 36
  | large => 48
  | normal_size => 42
  end.

Definition getShieldRadius (e : GameEngine) : R :=
  radiusOfSize (shieldSize (settings e)).

Definition initialBalloon (w h : R) : Balloon :=
  mkBalloon
    (plainObject (mkVector2 (w / 2) (h - 100))
       (mkVector2 0 (- BALLOON_BASE_VELOCITY)) 22 "balloon")
    BALLOON_BASE_VELOCITY BALLOON_ACCELERATION 0.

Definition initialShield (w h shieldRadius : R) : Shield :=
  mkShield
    (plainObject (mkVector2 (w / 2) (h - 150)) (mkVector2 0 0) shieldRadius
       "shield")
    (mkVector2 (w / 2) (h - 150)) SHIELD_LERP_FACTOR 100 0.

(** The constructor, for a canvas of the given size: the member
    initialisers, then [initializeGameObjects]. *)
Definition new (w h : R) (random : nat -> R) : GameEngine :=
  mkGameEngine w h PatternSystem.new menu 0 0 0
    (initialBalloon w h) (initialShield w h (radiusOfSize normal_size)) []
    0 0 (mkVector2 0 0) (mkVector2 0 0) ∅
    (mkGameSettings 1 normal_size false) (mkRng random 0) [].

(** The three listeners of [setupInput]. *)
Definition mousemove (clientX clientY : R) (rect : DOMRect) (e : GameEngine)
  : GameEngine :=
  let scaleX := canvasWidth e / rectWidth rect in
  let scaleY := canvasHeight e / rectHeight rect in
  let mx := (clientX - rectLeft rect) * scaleX in
  let my := (clientY - rectTop rect) * scaleY in
  with_worldMousePosition (mkVector2 mx (my + cameraY e))
    (with_mousePosition (mkVector2 mx my) e).

Definition keydown (code : string) (e : GameEngine) : GameEngine :=
  with_keys ({[ code ]} ∪ keys e) e.

Definition keyup (code : string) (e : GameEngine) : GameEngine :=
  with_keys (keys e ∖ {[ code ]}) e.

Definition resetGame (e : GameEngine) : GameEngine :=
  let b := balloon e in
  let bo := balloonObject b in
  let balloon' :=
    mkBalloon
      (set_active true
         (set_velocity (mkVector2 0 (- BALLOON_BASE_VELOCITY))
            (set_position
               (mkVector2 (canvasWidth e / 2) (canvasHeight e - 100)) bo)))
      (baseVelocity b) (acceleration b) 0 in
  let s := shield e in
  let start := mkVector2 (canvasWidth e / 2) (canvasHeight e - 150) in
  let shield' :=
    mkShield
      (set_active true
         (set_velocity (mkVector2 0 0) (set_position start (shieldObject s))))
      start (lerpFactor s) (mass s) 0 in
  notify (ScoreChange 0)
    (with_patternSystem (PatternSystem.reset (patternSystem e))
       (with_shield shield'
          (with_balloon balloon'
             (with_obstacles []
                (with_cameraY 0 (with_score 0 (with_gameTime 0 e))))))).

Definition startGame (e : GameEngine) : GameEngine :=
  notify (StateChange playing) (with_gameState playing (resetGame e)).

Definition pauseGame (e : GameEngine) : GameEngine :=
  if isPlaying (gameState e) then
    notify (StateChange paused) (with_gameState paused e)
  else e.

Definition resumeGame (e : GameEngine) : GameEngine :=
  if isPaused (gameState e) then
    notify (StateChange playing) (with_gameState playing e)
  else e.

Definition restartGame (e : GameEngine) : GameEngine := startGame e.

Definition toggleDebug (e : GameEngine) : GameEngine :=
  let s := settings e in
  with_settings
    (mkGameSettings (sensitivity s) (shieldSize s) (negb (debugMode s))) e.

Definition setSensitivity (v : R) (e : GameEngine) : GameEngine :=
  let s := settings e in
  with_settings
    (mkGameSettings (Rmax 0.5 (Rmin 1.5 v)) (shieldSize s) (debugMode s)) e.

Definition setShieldSize (size : ShieldSize) (e : GameEngine) : GameEngine :=
  let s := settings e in
  let e1 :=
    with_settings (mkGameSettings (sensitivity s) size (debugMode s)) e in
  let sh := shield e1 in
  with_shield
    (mkShield (set_radius (getShieldRadius e1) (shieldObject sh))
       (targetPosition sh) (lerpFactor sh) (mass sh) (lastHitTime sh)) e1.

Definition getScore (e : GameEngine) : R := score e.

Definition getObstacleMass (t : string) : R :=
  if String.eqb t "block" then 0.6
  else if String.eqb t "rotor" then 3.0
  else if String.eqb t "shard" then 0.2
  else if String.eqb t "spike" then 1.0
  else if String.eqb t "sweeper" then 2.0
  else 1.0.

(** [keys.has(code)] *)
Definition held (code : string) (e : GameEngine) : bool :=
  bool_decide (code ∈ keys e).

(** The keyboard delta of [updateInput]. *)
Definition keyboardDelta (dt : R) (e : GameEngine) : Vector2 :=
  let dy0 := 0 in
  let dy1 := if held "KeyW" e then dy0 - keyboardSpeed * dt else dy0 in
  let dy2 := if held "KeyS" e then dy1 + keyboardSpeed * dt else dy1 in
  let dx0 := 0 in
  let dx1 := if held "KeyA" e then dx0 - keyboardSpeed * dt else dx0 in
  let dx2 := if held "KeyD" e then dx1 + keyboardSpeed * dt else dx1 in
  mkVector2 dx2 dy2.

(** The target of [updateInput] before it is clamped. *)
Definition rawTarget (dt : R) (e : GameEngine) : Vector2 :=
  let pointer :=
    mkVector2 (x (worldMousePosition e) * sensitivity (settings e))
              (y (worldMousePosition e) * sensitivity (settings e)) in
  let delta := keyboardDelta dt e in
  if negb (Reqb (x delta) 0) || negb (Reqb (y delta) 0) then
    mkVector2 (x (position (shieldObject (shield e))) + x delta)
              (y (position (shieldObject (shield e))) + y delta)
  else pointer.

(** The clamp of [updateInput] to the screen bounds. *)
Definition clampTarget (e : GameEngine) (t : Vector2) : Vector2 :=
  let r := radius (shieldObject (shield e)) in
  mkVector2
    (Rmax r (Rmin (canvasWidth e - r) (x t)))
    (Rmax (r + cameraY e) (Rmin (canvasHeight e + cameraY e - r) (y t))).

Definition updateInput (dt : R) (e : GameEngine) : GameEngine :=
  if negb (isPlaying (gameState e)) then e
  else
    let s := shield e in
    with_shield
      (mkShield (shieldObject s) (clampTarget e (rawTarget dt e))
         (lerpFactor s) (mass s) (lastHitTime s)) e.

Definition updateBalloon (dt : R) (e : GameEngine) : GameEngine :=
  let b := balloon e in
  let bo := balloonObject b in
  let currentSpeed := Rabs (y (velocity bo)) in
  let maxSpeed :=
    Rmin BALLOON_MAX_VELOCITY
      (BALLOON_BASE_VELOCITY + acceleration b * gameTime e) in
  let vy1 :=
    if Rlt_dec currentSpeed maxSpeed then y (velocity bo) - acceleration b * dt
    else y (velocity bo) in
  let driftOffset' := driftOffset b + dt * 0.5 in
  let drift := sin driftOffset' * 10 + sin (driftOffset' * 2.3) * 5 in
  let py := y (position bo) + vy1 * dt in
  let centerX := canvasWidth e / 2 in
  with_balloon
    (mkBalloon
       (set_position (mkVector2 (centerX + drift) py)
          (set_velocity (mkVector2 drift vy1) bo))
       (baseVelocity b) (acceleration b) driftOffset') e.

Definition updateShield (dt : R) (e : GameEngine) : GameEngine :=
  let s := shield e in
  let so := shieldObject s in
  let dx := x (targetPosition s) - x (position so) in
  let dy := y (targetPosition s) - y (position so) in
  with_shield
    (mkShield
       (set_velocity
          (mkVector2 (dx * lerpFactor s / dt) (dy * lerpFactor s / dt))
          (set_position
             (mkVector2 (x (position so) + dx * lerpFactor s)
                        (y (position so) + dy * lerpFactor s)) so))
       (targetPosition s) (lerpFactor s) (mass s) (lastHitTime s)) e.

(** The pull toward the shield, the first block of the loop body of
    [updateObstacles]. *)
Definition applyGravity (dt : R) (e : GameEngine) (obstacle : Obstacle)
  : Obstacle :=
  if negb (truthy (anchored obstacle)) && isPlaying (gameState e) then
    let so := shieldObject (shield e) in
    let dx := x (position so) - x (position obstacle) in
    let dy := y (position so) - y (position obstacle) in
    let distance := sqrt (dx * dx + dy * dy) in
    if Rltb (radius so + radius obstacle + 10) distance && Rltb distance 200
    then
      let mass := getObstacleMass (type obstacle) in
      let gravitationalStrength := 15 in
      let force := gravitationalStrength / (distance * distance) in
      let forceX := (dx / distance) * force / mass in
      let forceY := (dy / distance) * force / mass in
      set_velocity
        (mkVector2 (x (velocity obstacle) + forceX * dt)
                   (y (velocity obstacle) + forceY * dt)) obstacle
    else obstacle
  else obstacle.

(** One pass of the loop body of [updateObstacles]. *)
Definition updateObstacle (dt : R) (e : GameEngine) (obstacle : Obstacle)
  : Obstacle :=
  let o1 := applyGravity dt e obstacle in
  let dampingFactor := 0.985 in
  let o2 :=
    set_velocity
      (mkVector2 (x (velocity o1) * dampingFactor)
                 (y (velocity o1) * dampingFactor)) o1 in
  let o3 :=
    set_position
      (mkVector2 (x (position o2) + x (velocity o2) * dt)
                 (y (position o2) + y (velocity o2) * dt)) o2 in
  let o4 :=
    match rotationSpeed o3 with
    | Some w =>
        if String.eqb (type o3) "rotor" && negb (Reqb w 0) then
          set_angle (Some (orElse (angle o3) 0 + w * dt)) o3
        else o3
    | None => o3
    end in
  let o5 :=
    match lifeTime o4 with
    | Some t =>
        let o := set_lifeTime (Some (t - dt)) o4 in
        if Rle_dec (t - dt) 0 then set_active false o else o
    | None => o4
    end in
  if Rlt_dec (cameraY e + canvasHeight e + 200) (y (position o5)) then
    set_active false o5
  else o5.

Definition updateObstacles (dt : R) (e : GameEngine) : GameEngine :=
  with_obstacles (map (updateObstacle dt e) (obstacles e)) e.

Definition updateSpawning (dt : R) (e : GameEngine) : GameEngine :=
  let difficulty := Rmin 1 (gameTime e / 180) in
  let spawnParams :=
    mkPatternParams (canvasWidth e / 2) (cameraY e - 100)
      (Rabs (y (velocity (balloonObject (balloon e)))))
      (radius (shieldObject (shield e))) difficulty in
  let '(newObstacles, ps, g) :=
    PatternSystem.update dt spawnParams (patternSystem e) (rng e) in
  with_rng g
    (with_patternSystem ps (with_obstacles (obstacles e ++ newObstacles) e)).

Definition updateCamera (e : GameEngine) : GameEngine :=
  let targetCameraY :=
    y (position (balloonObject (balloon e))) - canvasHeight e + 300 in
  if Rlt_dec targetCameraY (cameraY e - CAMERA_DEAD_ZONE) then
    with_cameraY (targetCameraY + CAMERA_DEAD_ZONE) e
  else e.

Definition gameOverTransition (e : GameEngine) : GameEngine :=
  notify (StateChange gameOver) (with_gameState gameOver e).

(** The part of [handleShieldCollision] after the repulsion direction is
    known: the impulse, the response by archetype, and the destruction of
    shards. *)
Definition applyImpulse (e : GameEngine) (obstacle : Obstacle)
  (repulsionDir : Vector2) : Rand Obstacle :=
  let mass := getObstacleMass (type obstacle) in
  let baseImpulseStrength := if truthy (anchored obstacle) then 50 else 250 in
  let sv := velocity (shieldObject (shield e)) in
  let shieldSpeed := sqrt (x sv * x sv + y sv * y sv) in
  let shieldContribution := Rmin (shieldSpeed * 0.3) 150 in
  let totalImpulse :=
    baseImpulseStrength
    + (if truthy (anchored obstacle) then 0 else shieldContribution) in
  let impulse :=
    mkVector2 (x repulsionDir * totalImpulse / mass)
              (y repulsionDir * totalImpulse / mass) in
  o' <-
    (if truthy (anchored obstacle) then
       if String.eqb (type obstacle) "rotor" then
         ret (set_rotationSpeed
                (Some (orElse (rotationSpeed obstacle) 0
                       + 0.5 * Math_sign (orElse (rotationSpeed obstacle) 1)))
                obstacle)
       else if String.eqb (type obstacle) "spike"
               || String.eqb (type obstacle) "block" then
         let o1 :=
           set_position
             (mkVector2 (x (position obstacle) + x impulse * 0.1)
                        (y (position obstacle) + y impulse * 0.1)) obstacle in
         let original :=
           match originalPosition o1 with
           | Some p => p
           | None => position o1
           end in
         let restoreForce := 0.15 in
         ret (set_velocity
                (mkVector2 ((x original - x (position o1)) * restoreForce)
                           ((y original - y (position o1)) * restoreForce))
                (set_originalPosition (Some original) o1))
       else ret obstacle
     else
       let o1 :=
         set_velocity
           (mkVector2 (x (velocity obstacle) + x impulse)
                      (y (velocity obstacle) + y impulse)) obstacle in
       let randomness :=
         if CollisionSystem.isRectangular obstacle then 10 else 20 in
       r1 <- Math_random ;;
       r2 <- Math_random ;;
       ret (set_velocity
              (mkVector2 (x (velocity o1) + (r1 - 0.5) * randomness / mass)
                         (y (velocity o1) + (r2 - 0.5) * randomness / mass))
              o1)) ;;
  ret (if String.eqb (type o') "shard" then set_active false o' else o').

Definition handleShieldCollision (e : GameEngine) (obstacle : Obstacle)
  (collision : CollisionInfo) : Rand Obstacle :=
  let mass := getObstacleMass (type obstacle) in
  if CollisionSystem.isRectangular obstacle then
    let separationDistance := 2 in
    applyImpulse e
      (set_position
         (mkVector2
            (x (position obstacle) + x (normal collision) * separationDistance)
            (y (position obstacle) + y (normal collision) * separationDistance))
         obstacle)
      (mkVector2 (x (normal collision)) (y (normal collision)))
  else
    let sp := position (shieldObject (shield e)) in
    let dx := x (position obstacle) - x sp in
    let dy := y (position obstacle) - y sp in
    let distance := sqrt (dx * dx + dy * dy) in
    if Req_dec_T distance 0 then
      if negb (truthy (anchored obstacle)) then
        r1 <- Math_random ;;
        r2 <- Math_random ;;
        ret (set_velocity
               (mkVector2 (x (velocity obstacle) + (r1 - 0.5) * 100 / mass)
                          (y (velocity obstacle) + (r2 - 0.5) * 100 / mass))
               obstacle)
      else ret obstacle
    else applyImpulse e obstacle (mkVector2 (dx / distance) (dy / distance)).

(** The first loop of [checkCollisions]: is some active obstacle on the
    balloon? *)
Definition balloonHit (e : GameEngine) : bool :=
  existsb
    (fun obstacle =>
       active obstacle
       && match CollisionSystem.checkCollision (balloonObject (balloon e))
                  obstacle with
          | Some _ => true
          | None => false
          end)
    (obstacles e).

(** The second loop of [checkCollisions] over the obstacles that are left:
    the obstacles after it, and whether the shield was hit.  The loop writes
    [lastHitTime] only, which no pass reads. *)
Fixpoint shieldPass (e : GameEngine) (todo : list Obstacle)
  : Rand (list Obstacle * bool) :=
  match todo with
  | [] => ret ([], false)
  | obstacle :: rest =>
      first <-
        (if active obstacle then
           match CollisionSystem.checkCollision (shieldObject (shield e))
                   obstacle with
           | Some collision =>
               o' <- handleShieldCollision e obstacle collision ;;
               ret (o', true)
           | None => ret (obstacle, false)
           end
         else ret (obstacle, false)) ;;
      others <- shieldPass e rest ;;
      ret (fst first :: fst others, snd first || snd others)
  end.

Definition checkCollisions (e : GameEngine) : GameEngine :=
  if balloonHit e then gameOverTransition e
  else
    let '(obstacles', hit, g) := shieldPass e (obstacles e) (rng e) in
    let s := shield e in
    let shield' :=
      if hit then
        mkShield (shieldObject s) (targetPosition s) (lerpFactor s) (mass s)
          (gameTime e)
      else s in
    with_rng g (with_shield shield' (with_obstacles obstacles' e)).

Definition updatePhysics (dt : R) (e : GameEngine) : GameEngine :=
  let e1 := with_gameTime (gameTime e + dt) e in
  let e2 := updateInput dt e1 in
  let e3 := updateBalloon dt e2 in
  let e4 := updateShield dt e3 in
  let e5 := updateObstacles dt e4 in
  let e6 := updateSpawning dt e5 in
  let e7 := updateCamera e6 in
  let e8 := checkCollisions e7 in
  let altitudeScore :=
    Rmax 0
      ((canvasHeight e8 - y (position (balloonObject (balloon e8)))) / 10) in
  let e9 := notify (ScoreChange altitudeScore) (with_score altitudeScore e8) in
  with_obstacles (List.filter active (obstacles e9)) e9.

(** The [while] of [gameLoop].  Each pass takes one step off the
    accumulator, so [loopFuel] passes are enough to leave the loop. *)
Fixpoint physicsLoop (fuel : nat) (e : GameEngine) : GameEngine :=
  match fuel with
  | O => e
  | S f =>
      if Rle_dec physicsStep (accumulator e) then
        let e1 :=
          if isPlaying (gameState e) then updatePhysics physicsStep e else e in
        physicsLoop f (with_accumulator (accumulator e1 - physicsStep) e1)
      else e
  end.

Definition loopFuel (acc : R) : nat := Z.to_nat (up (acc / physicsStep)).

(** One animation frame at the clock reading [currentTime].  Rendering
    reads the state and changes nothing. *)
Definition gameLoop (currentTime : R) (e : GameEngine) : GameEngine :=
  let frameTime := Rmin ((currentTime - lastTime e) / 1000) 0.25 in
  let e1 := with_lastTime currentTime e in
  let e2 := with_accumulator (accumulator e1 + frameTime) e1 in
  physicsLoop (loopFuel (accumulator e2)) e2.

(** [start] reads the clock, then runs the first frame, which reads it
    again. *)
Definition start (now currentTime : R) (e : GameEngine) : GameEngine :=
  gameLoop currentTime (with_lastTime now e).

End GameEngine.

(** ** Runs of the engine *)

(** What reaches the engine from outside: the input listeners, the public
    methods, and the animation frames with their clock readings. *)
Inductive Input :=
| MouseMove (clientX clientY : R) (rect : DOMRect)
| KeyDown (code : string)
| KeyUp (code : string)
| Start (now currentTime : R)
| Frame (currentTime : R)
| StartGame
| PauseGame
| ResumeGame
| RestartGame
| ToggleDebug
| SetSensitivity (v : R)
| SetShieldSize (size : ShieldSize).

Definition exec (i : Input) (e : GameEngine) : GameEngine :=
  match i with
  | MouseMove cx cy rect => GameEngine.mousemove cx cy rect e
  | KeyDown code => GameEngine.keydown code e
  | KeyUp code => GameEngine.keyup code e
  | Start now t => GameEngine.start now t e
  | Frame t => GameEngine.gameLoop t e
  | StartGame => GameEngine.startGame e
  | PauseGame => GameEngine.pauseGame e
  | ResumeGame => GameEngine.resumeGame e
  | RestartGame => GameEngine.restartGame e
  | ToggleDebug => GameEngine.toggleDebug e
  | SetSensitivity v => GameEngine.setSensitivity v e
  | SetShieldSize size => GameEngine.setShieldSize size e
  end.

(** The engine after a sequence of inputs, the first input first. *)
Definition run (inputs : list Input) (e : GameEngine) : GameEngine :=
  fold_left (fun e i => exec i e) inputs e.

Definition isFrame (i : Input) : bool :=
  match i with Start _ _ | Frame _ => true | _ => false end.


(** A frame taken apart: it sets the clock members and runs physics ticks
    while the game is playing.  [step] has these parts as steps of their
    own, so that every physics tick is a step; every input, frames
    included, is a sequence of such steps ([steps_exec] below). *)
Inductive step (allowed : Input -> bool) : GameEngine -> GameEngine -> Prop :=
| step_input e i :
    allowed i = true -> isFrame i = false -> step allowed e (exec i e)
| step_clock e t a :
    step allowed e (with_accumulator a (with_lastTime t e))
| step_tick e :
    gameState e = playing ->
    step allowed e (GameEngine.updatePhysics GameEngine.physicsStep e).

Inductive steps (allowed : Input -> bool) : GameEngine -> GameEngine -> Prop :=
| steps_refl e : steps allowed e e
| steps_snoc e1 e2 e3 :
    steps allowed e1 e2 -> step allowed e2 e3 -> steps allowed e1 e3.

(** The states of an engine built on a [w] by [h] canvas. *)
Definition reachable (w h : R) (random : nat -> R) (e : GameEngine) : Prop :=
  steps (fun _ => true) (GameEngine.new w h random) e.


(** ** Notions the properties are stated with *)

(** The opposite vector. *)
Definition negate (v : Vector2) : Vector2 := mkVector2 (- x v) (- y v).

(** The vertical velocity of the balloon and its height on the canvas. *)
Definition balloonVy (e : GameEngine) : R :=
  y (velocity (balloonObject (balloon e))).

Definition balloonY (e : GameEngine) : R :=
  y (position (balloonObject (balloon e))).

(** What every state of an engine on a canvas of height [h] satisfies: the
    balloon is at or above its starting height [h - 100]; its upward speed
    is [80 + k / 30] for some number [k] of accelerated ticks, at most 2400
    and at most the ticks played; the score is between 0 and the height of
    the balloon over the bottom edge in tenths. *)
Definition balloonInvariant (h : R) (e : GameEngine) : Prop :=
  canvasHeight e = h /\
  acceleration (balloon e) = 4 /\
  balloonY e <= h - 100 /\
  0 <= score e <= Rmax 0 ((h - balloonY e) / 10) /\
  exists k : nat,
    (k <= 2400)%nat /\
    balloonVy e = - (80 + INR k / 30) /\
    INR k / 30 <= 4 * gameTime e.

(** A shard whose centre is the centre of the shield: a playing engine on a
    1000 by 1000 canvas, the shield (radius 42) moved to (500, 500), and one
    shard of radius 8 at (500, 500). *)
Definition shardOnShieldCentre : Obstacle :=
  mkGameObject (mkVector2 500 500) (mkVector2 0 50) 8 "shard" true None None
    None None None None None (Some 3) None.

Definition engineWithShardOnCentre (random : nat -> R) : GameEngine :=
  let e := GameEngine.startGame (GameEngine.new 1000 1000 random) in
  let s := shield e in
  with_obstacles [shardOnShieldCentre]
    (with_shield
       (mkShield (set_position (mkVector2 500 500) (shieldObject s))
          (targetPosition s) (lerpFactor s) (mass s) (lastHitTime s)) e).

(** The selections are observed through the history: the name that the
    latest selection pushed. *)
Definition latestSelection (ps : PatternSystem) : option string :=
  last (patternHistory ps).

(** The oracle whose every draw is 0, and spawn parameters at depth 800
    (altitude 80: block rain, chicane and grid drop are unlocked). *)
Definition zeroRng : Rng := mkRng (fun _ => 0) 0.

Definition paramsAtDepth800 : PatternParams :=
  mkPatternParams 960 (-800) 80 42 0.

(** ** A run in which nothing happens to the balloon

    A 1920 by 1080 canvas, every draw of [Math.random] equal to 0, the
    pointer parked at the bottom centre of the canvas, no key held, and one
    animation frame every 1000 / 120 ms, so that each frame runs exactly one
    physics tick. *)

Definition fullCanvasRect : DOMRect := mkDOMRect 0 0 1920 1080.

Fixpoint calmFrames (n : nat) : list Input :=
  match n with
  | O => []
  | S k => calmFrames k ++ [Frame (INR (S k) * (25 / 3))]
  end.

Definition calmInputs (n : nat) : list Input :=
  [Start 0 0; MouseMove 960 1080 fullCanvasRect; StartGame] ++ calmFrames n.

Definition calmState (n : nat) : GameEngine :=
  run (calmInputs n) (GameEngine.new 1920 1080 (fun _ => 0)).

(** The obstacles of the calm run: blocks in the column x = 50, which move
    up and down only. *)
Definition calmObstacle (o : Obstacle) : Prop :=
  type o = "block"%string /\
  x (position o) = 50 /\
  x (velocity o) = 0 /\
  width o = Some 40 /\
  height o = Some 40 /\
  anchored o = None.

(** The state of the calm run after [n] ticks, as long as the camera has
    not moved. *)
Record Calm (n : nat) (e : GameEngine) : Prop := mkCalm {
  calm_width : canvasWidth e = 1920;
  calm_height : canvasHeight e = 1080;
  calm_state : gameState e = playing;
  calm_time : gameTime e = INR n / 120;
  calm_camera : cameraY e = 0;
  calm_accel : acceleration (balloon e) = 4;
  calm_vy : balloonVy e = - (80 + INR n / 30);
  calm_by : balloonY e = 980 - 2 * INR n / 3 - INR n * (INR n + 1) / 7200;
  calm_bx : 945 <= x (position (balloonObject (balloon e))) <= 975;
  calm_br : radius (balloonObject (balloon e)) = 22;
  calm_sx : x (position (shieldObject (shield e))) = 960;
  calm_sy : y (position (shieldObject (shield e))) = 1038 - 108 * 0.72 ^ n;
  calm_sr : radius (shieldObject (shield e)) = 42;
  calm_lerp : lerpFactor (shield e) = 0.28;
  calm_obstacles : Forall calmObstacle (obstacles e);
  calm_keys : keys e = ∅;
  calm_mouse : worldMousePosition e = mkVector2 960 1080;
  calm_sens : sensitivity (settings e) = 1;
  calm_patterns : patterns (patternSystem e) = PatternSystem.initializePatterns;
  calm_oracle : oracle (rng e) = (fun _ => 0)
}.

(** The clock members between two frames of the calm run. *)
Definition CalmClock (n : nat) (e : GameEngine) : Prop :=
  accumulator e = 0 /\ lastTime e = INR n * (25 / 3).

(** The engine when [checkCollisions] is called in a tick. *)
Definition beforeCollisions (dt : R) (e : GameEngine) : GameEngine :=
  GameEngine.updateCamera
    (GameEngine.updateSpawning dt
       (GameEngine.updateObstacles dt
          (GameEngine.updateShield dt
             (GameEngine.updateBalloon dt
                (GameEngine.updateInput dt
                   (with_gameTime (gameTime e + dt) e)))))).

(** The engine when [updateShield] is called in a tick. *)
Definition afterInput (dt : R) (e : GameEngine) : GameEngine :=
  GameEngine.updateInput dt (with_gameTime (gameTime e + dt) e).

(** What holds of the shield in every state of an engine on a [w] by [h]
    canvas: the smoothing factor is the constant, and the radius is the one
    of the size in the settings. *)
Definition shieldSettled (w h : R) (e : GameEngine) : Prop :=
  canvasWidth e = w /\ canvasHeight e = h /\
  lerpFactor (shield e) = GameEngine.SHIELD_LERP_FACTOR /\
  radius (shieldObject (shield e)) = GameEngine.getShieldRadius e.


(** The directional keys that are held do not cancel out: W without S or S
    without W, or A without D or D without A. *)
Definition netDirection (e : GameEngine) : bool :=
  xorb (GameEngine.held "KeyW" e) (GameEngine.held "KeyS" e)
  || xorb (GameEngine.held "KeyA" e) (GameEngine.held "KeyD" e).

(** The pointer moved to another place. *)
Definition withPointer (m wm : Vector2) (e : GameEngine) : GameEngine :=
  with_worldMousePosition wm (with_mousePosition m e).

(** An obstacle as the simulation expects it: active, of positive radius,
    and, when its archetype is rectangular, with a width and a height, both
    positive. *)
Definition wellFormedObstacle (o : Obstacle) : Prop :=
  active o = true /\ 0 < radius o /\
  (CollisionSystem.isRectangular o = true ->
   exists w h, width o = Some w /\ height o = Some h /\ 0 < w /\ 0 < h).

(** Every draw of the oracle is in [0, 1), as [Math.random] promises. *)
Definition unitDraws (g : Rng) : Prop := forall n, 0 <= oracle g n < 1.

(** What holds of the generator in every state of the engine.  The
    registry is the one of the constructor, the clock and the timer are not
    negative, the balloon has climbed at most 160 pixels for each second
    played, and the camera is at most 300 pixels ahead of the climb.  As
    long as fewer than three selections were made since the last reset,
    little time was played, because every selection restarts the timer
    with at most 1.2 seconds; and all of them returned block rain, the only
    pattern unlocked that early. *)
Definition generatorInRun (h : R) (e : GameEngine) : Prop :=
  let ps := patternSystem e in
  balloonInvariant h e /\
  patterns ps = PatternSystem.initializePatterns /\
  0 <= gameTime e /\ 0 <= spawnTimer ps /\
  h - 100 - balloonY e <= 160 * gameTime e /\
  balloonY e - h + 100 <= cameraY e <= 0 /\
  ((length (patternHistory ps) < 3)%nat ->
   gameTime e + spawnTimer ps
   <= INR (length (patternHistory ps)) * (1.2 + 1 / 120) /\
   Forall (fun n => n = "blockRain"%string) (patternHistory ps)).

(** The state of the calm run after [n] ticks, as long as block rain is the
    only pattern unlocked: the camera follows the balloon once it is above
    height 680, and every selection so far returned block rain. *)
Record Quiet (n : nat) (e : GameEngine) : Prop := mkQuiet {
  quiet_width : canvasWidth e = 1920;
  quiet_height : canvasHeight e = 1080;
  quiet_state : gameState e = playing;
  quiet_time : gameTime e = INR n / 120;
  quiet_camera : cameraY e = Rmin 0 (balloonY e - 680);
  quiet_accel : acceleration (balloon e) = 4;
  quiet_vy : balloonVy e = - (80 + INR n / 30);
  quiet_by : balloonY e = 980 - 2 * INR n / 3 - INR n * (INR n + 1) / 7200;
  quiet_bx : 945 <= x (position (balloonObject (balloon e))) <= 975;
  quiet_br : radius (balloonObject (balloon e)) = 22;
  quiet_sx : x (position (shieldObject (shield e))) = 960;
  quiet_sr : radius (shieldObject (shield e)) = 42;
  quiet_lerp : lerpFactor (shield e) = 0.28;
  quiet_obstacles : Forall calmObstacle (obstacles e);
  quiet_keys : keys e = ∅;
  quiet_mouse : worldMousePosition e = mkVector2 960 1080;
  quiet_sens : sensitivity (settings e) = 1;
  quiet_patterns : patterns (patternSystem e) = PatternSystem.initializePatterns;
  quiet_oracle : oracle (rng e) = (fun _ => 0);
  quiet_history :
    Forall (fun n => n = "blockRain"%string) (patternHistory (patternSystem e))
}.

(** The generator in the calm run.  It selects at ticks 1, 145, 289, 432,
    575, 717, 859 and 1000; the selection of tick [s] restarts the timer
    with the cooldown of the difficulty at that time, and each later tick
    takes 1/120 off. *)
Definition calmCooldown (s : nat) : R := 1.2 - INR s / 120 / 180 * 0.65.

Definition lastSpawn (n : nat) : nat :=
  if (n <? 145)%nat then 1
  else if (n <? 289)%nat then 145
  else if (n <? 432)%nat then 289
  else if (n <? 575)%nat then 432
  else if (n <? 717)%nat then 575
  else if (n <? 859)%nat then 717
  else 859.

Definition calmTimer (n : nat) : R :=
  if (n =? 0)%nat then 0
  else calmCooldown (lastSpawn n) - (INR n - INR (lastSpawn n)) / 120.

(** * Properties *)

(** ** The collision resolver *)

Section CircleVsCircle.

Import CollisionSystem.

Lemma sum_squares_zero (a b : R) : a * a + b * b = 0 -> a = 0 /\ b = 0.
Proof. intros H. split; nra. Qed.

Lemma distance_zero_iff (a b : R) : sqrt (a * a + b * b) = 0 <-> a = 0 /\ b = 0.
Proof.
  split.
  - intros H. apply sum_squares_zero. apply sqrt_eq_0; [nra | exact H].
  - intros [-> ->]. rewrite Rmult_0_l, Rplus_0_l. apply sqrt_0.
Qed.

Lemma vector_eq (p q : Vector2) : x p = x q -> y p = y q -> p = q.
Proof. destruct p, q; simpl; intros -> ->; reflexivity. Qed.

(** Swapping the operands of the circle test keeps the squared distance. *)
Lemma squared_distance_swap (p q : Vector2) :
  (x p - x q) * (x p - x q) + (y p - y q) * (y p - y q)
  = (x q - x p) * (x q - x p) + (y q - y p) * (y q - y p).
Proof. ring. Qed.

Lemma circleVsCircle_verdict (a b : GameObject) :
  circleVsCircle a b = None <-> circleVsCircle b a = None.
Proof.
  unfold circleVsCircle.
  rewrite (squared_distance_swap (position a) (position b)).
  replace (radius b + radius a) with (radius a + radius b) by ring.
  destruct (Rle_dec _ _); [|tauto].
  destruct (Req_dec_T _ _); split; discriminate.
Qed.

Lemma circleVsCircle_normals (a b : GameObject) (i j : CollisionInfo) :
  circleVsCircle a b = Some i -> circleVsCircle b a = Some j ->
  penetration j = penetration i /\
  (position a <> position b -> normal j = negate (normal i)) /\
  (position a = position b ->
   normal i = mkVector2 1 0 /\ normal j = mkVector2 1 0).
Proof.
  unfold circleVsCircle.
  rewrite (squared_distance_swap (position a) (position b)).
  replace (radius b + radius a) with (radius a + radius b) by ring.
  destruct (Rle_dec _ _); [|discriminate].
  destruct (Req_dec_T _ _) as [Hz|Hnz]; intros Hi Hj;
    inversion Hi; inversion Hj; subst; clear Hi Hj; simpl.
  - split; [reflexivity|]. split; [|auto].
    intros Hne. exfalso. apply Hne.
    apply distance_zero_iff in Hz. destruct Hz as [Hx Hy].
    apply vector_eq; lra.
  - split; [reflexivity|]. split.
    + intros _. unfold negate. simpl. f_equal; field; exact Hnz.
    + intros Heq. exfalso. apply Hnz. rewrite Heq.
      apply distance_zero_iff. split; ring.
Qed.

End CircleVsCircle.

(** C1, as amended.  For two bodies neither of which is a rectangular
    archetype, [checkCollision] gives the same verdict in both orders; when
    both orders report an overlap the penetrations agree, and the normals are
    exact opposites if the centres differ, while at equal centres both orders
    return the fixed normal (1, 0). *)
Theorem checkCollision_swap_circles (a b : GameObject) :
  CollisionSystem.isRectangular a = false ->
  CollisionSystem.isRectangular b = false ->
  (CollisionSystem.checkCollision a b = None
   <-> CollisionSystem.checkCollision b a = None) /\
  (forall i j,
     CollisionSystem.checkCollision a b = Some i ->
     CollisionSystem.checkCollision b a = Some j ->
     penetration j = penetration i /\
     (position a <> position b -> normal j = negate (normal i)) /\
     (position a = position b ->
      normal i = mkVector2 1 0 /\ normal j = mkVector2 1 0)).
Proof.
  intros Ha Hb. unfold CollisionSystem.checkCollision. rewrite Ha, Hb. split.
  - apply circleVsCircle_verdict.
  - intros i j. apply circleVsCircle_normals.
Qed.

Lemma checkCollision_swap_circles_witness :
  let a := plainObject (mkVector2 0 0) (mkVector2 0 0) 22 "balloon" in
  let b := plainObject (mkVector2 30 0) (mkVector2 0 0) 25 "spike" in
  CollisionSystem.checkCollision a b = None
  <-> CollisionSystem.checkCollision b a = None.
Proof.
  intros a b.
  exact (proj1 (checkCollision_swap_circles a b eq_refl eq_refl)).
Defined.

(** Deciding the comparisons of a closed arithmetic expression. *)
Ltac decide_reals :=
  repeat match goal with
  | |- context [Rle_dec ?a ?b] => destruct (Rle_dec a b); try lra
  | |- context [Rlt_dec ?a ?b] => destruct (Rlt_dec a b); try lra
  | |- context [Req_dec_T ?a ?b] => destruct (Req_dec_T a b); try lra
  end.

(** Evaluating [Math.min] and [Math.max] where [lra] orders the operands. *)
Ltac simpl_minmax :=
  repeat match goal with
  | |- context [Rmin ?a ?b] =>
      first [rewrite (Rmin_left a b) by lra | rewrite (Rmin_right a b) by lra]
  | |- context [Rmax ?a ?b] =>
      first [rewrite (Rmax_left a b) by lra | rewrite (Rmax_right a b) by lra]
  end.

(** C1 fails as stated.  A balloon and a spike with the same centre overlap
    in both orders and both orders return the normal (1, 0), which is not
    its own opposite.  A balloon at the origin and a 40 by 40 block centred
    at (30, 30) overlap by the rectangle test, balloon first, and do not by
    the circle test, block first. *)
Lemma checkCollision_swap_counterexample :
  let balloon := plainObject (mkVector2 0 0) (mkVector2 0 0) 22 "balloon" in
  let spike := plainObject (mkVector2 0 0) (mkVector2 0 0) 25 "spike" in
  let block :=
    mkGameObject (mkVector2 30 30) (mkVector2 0 0) 20 "block" true (Some 40)
      (Some 40) None None None None None None None in
  (exists i j,
     CollisionSystem.checkCollision balloon spike = Some i /\
     CollisionSystem.checkCollision spike balloon = Some j /\
     normal i = mkVector2 1 0 /\ normal j = mkVector2 1 0 /\
     normal j <> negate (normal i)) /\
  (CollisionSystem.checkCollision balloon block <> None /\
   CollisionSystem.checkCollision block balloon = None).
Proof.
  intros balloon spike block. split.
  - assert (Hs : sqrt ((0 - 0) * (0 - 0) + (0 - 0) * (0 - 0)) = 0).
    { replace ((0 - 0) * (0 - 0) + (0 - 0) * (0 - 0)) with 0 by ring.
      apply sqrt_0. }
    unfold CollisionSystem.checkCollision, CollisionSystem.circleVsCircle.
    simpl. rewrite Hs.
    destruct (Rle_dec _ _) as [_|Hn]; [|exfalso; apply Hn; lra].
    destruct (Rle_dec _ _) as [_|Hn]; [|exfalso; apply Hn; lra].
    destruct (Req_dec_T 0 0) as [_|Hn]; [|congruence].
    eexists. eexists. repeat split; try reflexivity.
    unfold negate. simpl. intros H. inversion H. lra.
  - unfold CollisionSystem.checkCollision, CollisionSystem.circleVsCircle,
      CollisionSystem.circleVsAABB. simpl. split.
    + simpl_minmax. decide_reals; congruence.
    + decide_reals. reflexivity.
Qed.

(** ** What each stage of a tick leaves alone *)

Ltac stage_frame f := intros; unfold f; repeat case_match; reflexivity.

Create Rewrite HintDb engine.
Lemma updateInput_canvasWidth (dt : R) (e : GameEngine) :
  canvasWidth (GameEngine.updateInput dt e) = canvasWidth e.
Proof. stage_frame GameEngine.updateInput. Qed.

Lemma updateInput_canvasHeight (dt : R) (e : GameEngine) :
  canvasHeight (GameEngine.updateInput dt e) = canvasHeight e.
Proof. stage_frame GameEngine.updateInput. Qed.

Lemma updateInput_patternSystem (dt : R) (e : GameEngine) :
  patternSystem (GameEngine.updateInput dt e) = patternSystem e.
Proof. stage_frame GameEngine.updateInput. Qed.

Lemma updateInput_gameState (dt : R) (e : GameEngine) :
  gameState (GameEngine.updateInput dt e) = gameState e.
Proof. stage_frame GameEngine.updateInput. Qed.

Lemma updateInput_score (dt : R) (e : GameEngine) :
  score (GameEngine.updateInput dt e) = score e.
Proof. stage_frame GameEngine.updateInput. Qed.

Lemma updateInput_gameTime (dt : R) (e : GameEngine) :
  gameTime (GameEngine.updateInput dt e) = gameTime e.
Proof. stage_frame GameEngine.updateInput. Qed.

Lemma updateInput_cameraY (dt : R) (e : GameEngine) :
  cameraY (GameEngine.updateInput dt e) = cameraY e.
Proof. stage_frame GameEngine.updateInput. Qed.

Lemma updateInput_balloon (dt : R) (e : GameEngine) :
  balloon (GameEngine.updateInput dt e) = balloon e.
Proof. stage_frame GameEngine.updateInput. Qed.

Lemma updateInput_obstacles (dt : R) (e : GameEngine) :
  obstacles (GameEngine.updateInput dt e) = obstacles e.
Proof. stage_frame GameEngine.updateInput. Qed.

Lemma updateInput_lastTime (dt : R) (e : GameEngine) :
  lastTime (GameEngine.updateInput dt e) = lastTime e.
Proof. stage_frame GameEngine.updateInput. Qed.

Lemma updateInput_accumulator (dt : R) (e : GameEngine) :
  accumulator (GameEngine.updateInput dt e) = accumulator e.
Proof. stage_frame GameEngine.updateInput. Qed.

Lemma updateInput_mousePosition (dt : R) (e : GameEngine) :
  mousePosition (GameEngine.updateInput dt e) = mousePosition e.
Proof. stage_frame GameEngine.updateInput. Qed.

Lemma updateInput_worldMousePosition (dt : R) (e : GameEngine) :
  worldMousePosition (GameEngine.updateInput dt e) = worldMousePosition e.
Proof. stage_frame GameEngine.updateInput. Qed.

Lemma updateInput_keys (dt : R) (e : GameEngine) :
  keys (GameEngine.updateInput dt e) = keys e.
Proof. stage_frame GameEngine.updateInput. Qed.

Lemma updateInput_settings (dt : R) (e : GameEngine) :
  settings (GameEngine.updateInput dt e) = settings e.
Proof. stage_frame GameEngine.updateInput. Qed.

Lemma updateInput_rng (dt : R) (e : GameEngine) :
  rng (GameEngine.updateInput dt e) = rng e.
Proof. stage_frame GameEngine.updateInput. Qed.

Lemma updateInput_notifications (dt : R) (e : GameEngine) :
  notifications (GameEngine.updateInput dt e) = notifications e.
Proof. stage_frame GameEngine.updateInput. Qed.

#[export] Hint Rewrite updateInput_canvasWidth updateInput_canvasHeight
  updateInput_patternSystem updateInput_gameState updateInput_score
  updateInput_gameTime updateInput_cameraY updateInput_balloon
  updateInput_obstacles updateInput_lastTime updateInput_accumulator
  updateInput_mousePosition updateInput_worldMousePosition updateInput_keys
  updateInput_settings updateInput_rng updateInput_notifications
  : engine.

Lemma updateBalloon_canvasWidth (dt : R) (e : GameEngine) :
  canvasWidth (GameEngine.updateBalloon dt e) = canvasWidth e.
Proof. stage_frame GameEngine.updateBalloon. Qed.

Lemma updateBalloon_canvasHeight (dt : R) (e : GameEngine) :
  canvasHeight (GameEngine.updateBalloon dt e) = canvasHeight e.
Proof. stage_frame GameEngine.updateBalloon. Qed.

Lemma updateBalloon_patternSystem (dt : R) (e : GameEngine) :
  patternSystem (GameEngine.updateBalloon dt e) = patternSystem e.
Proof. stage_frame GameEngine.updateBalloon. Qed.

Lemma updateBalloon_gameState (dt : R) (e : GameEngine) :
  gameState (GameEngine.updateBalloon dt e) = gameState e.
Proof. stage_frame GameEngine.updateBalloon. Qed.

Lemma updateBalloon_score (dt : R) (e : GameEngine) :
  score (GameEngine.updateBalloon dt e) = score e.
Proof. stage_frame GameEngine.updateBalloon. Qed.

Lemma updateBalloon_gameTime (dt : R) (e : GameEngine) :
  gameTime (GameEngine.updateBalloon dt e) = gameTime e.
Proof. stage_frame GameEngine.updateBalloon. Qed.

Lemma updateBalloon_cameraY (dt : R) (e : GameEngine) :
  cameraY (GameEngine.updateBalloon dt e) = cameraY e.
Proof. stage_frame GameEngine.updateBalloon. Qed.

Lemma updateBalloon_shield (dt : R) (e : GameEngine) :
  shield (GameEngine.updateBalloon dt e) = shield e.
Proof. stage_frame GameEngine.updateBalloon. Qed.

Lemma updateBalloon_obstacles (dt : R) (e : GameEngine) :
  obstacles (GameEngine.updateBalloon dt e) = obstacles e.
Proof. stage_frame GameEngine.updateBalloon. Qed.

Lemma updateBalloon_lastTime (dt : R) (e : GameEngine) :
  lastTime (GameEngine.updateBalloon dt e) = lastTime e.
Proof. stage_frame GameEngine.updateBalloon. Qed.

Lemma updateBalloon_accumulator (dt : R) (e : GameEngine) :
  accumulator (GameEngine.updateBalloon dt e) = accumulator e.
Proof. stage_frame GameEngine.updateBalloon. Qed.

Lemma updateBalloon_mousePosition (dt : R) (e : GameEngine) :
  mousePosition (GameEngine.updateBalloon dt e) = mousePosition e.
Proof. stage_frame GameEngine.updateBalloon. Qed.

Lemma updateBalloon_worldMousePosition (dt : R) (e : GameEngine) :
  worldMousePosition (GameEngine.updateBalloon dt e) = worldMousePosition e.
Proof. stage_frame GameEngine.updateBalloon. Qed.

Lemma updateBalloon_keys (dt : R) (e : GameEngine) :
  keys (GameEngine.updateBalloon dt e) = keys e.
Proof. stage_frame GameEngine.updateBalloon. Qed.

Lemma updateBalloon_settings (dt : R) (e : GameEngine) :
  settings (GameEngine.updateBalloon dt e) = settings e.
Proof. stage_frame GameEngine.updateBalloon. Qed.

Lemma updateBalloon_rng (dt : R) (e : GameEngine) :
  rng (GameEngine.updateBalloon dt e) = rng e.
Proof. stage_frame GameEngine.updateBalloon. Qed.

Lemma updateBalloon_notifications (dt : R) (e : GameEngine) :
  notifications (GameEngine.updateBalloon dt e) = notifications e.
Proof. stage_frame GameEngine.updateBalloon. Qed.

#[export] Hint Rewrite updateBalloon_canvasWidth updateBalloon_canvasHeight
  updateBalloon_patternSystem updateBalloon_gameState updateBalloon_score
  updateBalloon_gameTime updateBalloon_cameraY updateBalloon_shield
  updateBalloon_obstacles updateBalloon_lastTime updateBalloon_accumulator
  updateBalloon_mousePosition updateBalloon_worldMousePosition
  updateBalloon_keys updateBalloon_settings updateBalloon_rng
  updateBalloon_notifications
  : engine.

Lemma updateShield_canvasWidth (dt : R) (e : GameEngine) :
  canvasWidth (GameEngine.updateShield dt e) = canvasWidth e.
Proof. stage_frame GameEngine.updateShield. Qed.

Lemma updateShield_canvasHeight (dt : R) (e : GameEngine) :
  canvasHeight (GameEngine.updateShield dt e) = canvasHeight e.
Proof. stage_frame GameEngine.updateShield. Qed.

Lemma updateShield_patternSystem (dt : R) (e : GameEngine) :
  patternSystem (GameEngine.updateShield dt e) = patternSystem e.
Proof. stage_frame GameEngine.updateShield. Qed.

Lemma updateShield_gameState (dt : R) (e : GameEngine) :
  gameState (GameEngine.updateShield dt e) = gameState e.
Proof. stage_frame GameEngine.updateShield. Qed.

Lemma updateShield_score (dt : R) (e : GameEngine) :
  score (GameEngine.updateShield dt e) = score e.
Proof. stage_frame GameEngine.updateShield. Qed.

Lemma updateShield_gameTime (dt : R) (e : GameEngine) :
  gameTime (GameEngine.updateShield dt e) = gameTime e.
Proof. stage_frame GameEngine.updateShield. Qed.

Lemma updateShield_cameraY (dt : R) (e : GameEngine) :
  cameraY (GameEngine.updateShield dt e) = cameraY e.
Proof. stage_frame GameEngine.updateShield. Qed.

Lemma updateShield_balloon (dt : R) (e : GameEngine) :
  balloon (GameEngine.updateShield dt e) = balloon e.
Proof. stage_frame GameEngine.updateShield. Qed.

Lemma updateShield_obstacles (dt : R) (e : GameEngine) :
  obstacles (GameEngine.updateShield dt e) = obstacles e.
Proof. stage_frame GameEngine.updateShield. Qed.

Lemma updateShield_lastTime (dt : R) (e : GameEngine) :
  lastTime (GameEngine.updateShield dt e) = lastTime e.
Proof. stage_frame GameEngine.updateShield. Qed.

Lemma updateShield_accumulator (dt : R) (e : GameEngine) :
  accumulator (GameEngine.updateShield dt e) = accumulator e.
Proof. stage_frame GameEngine.updateShield. Qed.

Lemma updateShield_mousePosition (dt : R) (e : GameEngine) :
  mousePosition (GameEngine.updateShield dt e) = mousePosition e.
Proof. stage_frame GameEngine.updateShield. Qed.

Lemma updateShield_worldMousePosition (dt : R) (e : GameEngine) :
  worldMousePosition (GameEngine.updateShield dt e) = worldMousePosition e.
Proof. stage_frame GameEngine.updateShield. Qed.

Lemma updateShield_keys (dt : R) (e : GameEngine) :
  keys (GameEngine.updateShield dt e) = keys e.
Proof. stage_frame GameEngine.updateShield. Qed.

Lemma updateShield_settings (dt : R) (e : GameEngine) :
  settings (GameEngine.updateShield dt e) = settings e.
Proof. stage_frame GameEngine.updateShield. Qed.

Lemma updateShield_rng (dt : R) (e : GameEngine) :
  rng (GameEngine.updateShield dt e) = rng e.
Proof. stage_frame GameEngine.updateShield. Qed.

Lemma updateShield_notifications (dt : R) (e : GameEngine) :
  notifications (GameEngine.updateShield dt e) = notifications e.
Proof. stage_frame GameEngine.updateShield. Qed.

#[export] Hint Rewrite updateShield_canvasWidth updateShield_canvasHeight
  updateShield_patternSystem updateShield_gameState updateShield_score
  updateShield_gameTime updateShield_cameraY updateShield_balloon
  updateShield_obstacles updateShield_lastTime updateShield_accumulator
  updateShield_mousePosition updateShield_worldMousePosition
  updateShield_keys updateShield_settings updateShield_rng
  updateShield_notifications
  : engine.

Lemma updateObstacles_canvasWidth (dt : R) (e : GameEngine) :
  canvasWidth (GameEngine.updateObstacles dt e) = canvasWidth e.
Proof. stage_frame GameEngine.updateObstacles. Qed.

Lemma updateObstacles_canvasHeight (dt : R) (e : GameEngine) :
  canvasHeight (GameEngine.updateObstacles dt e) = canvasHeight e.
Proof. stage_frame GameEngine.updateObstacles. Qed.

Lemma updateObstacles_patternSystem (dt : R) (e : GameEngine) :
  patternSystem (GameEngine.updateObstacles dt e) = patternSystem e.
Proof. stage_frame GameEngine.updateObstacles. Qed.

Lemma updateObstacles_gameState (dt : R) (e : GameEngine) :
  gameState (GameEngine.updateObstacles dt e) = gameState e.
Proof. stage_frame GameEngine.updateObstacles. Qed.

Lemma updateObstacles_score (dt : R) (e : GameEngine) :
  score (GameEngine.updateObstacles dt e) = score e.
Proof. stage_frame GameEngine.updateObstacles. Qed.

Lemma updateObstacles_gameTime (dt : R) (e : GameEngine) :
  gameTime (GameEngine.updateObstacles dt e) = gameTime e.
Proof. stage_frame GameEngine.updateObstacles. Qed.

Lemma updateObstacles_cameraY (dt : R) (e : GameEngine) :
  cameraY (GameEngine.updateObstacles dt e) = cameraY e.
Proof. stage_frame GameEngine.updateObstacles. Qed.

Lemma updateObstacles_balloon (dt : R) (e : GameEngine) :
  balloon (GameEngine.updateObstacles dt e) = balloon e.
Proof. stage_frame GameEngine.updateObstacles. Qed.

Lemma updateObstacles_shield (dt : R) (e : GameEngine) :
  shield (GameEngine.updateObstacles dt e) = shield e.
Proof. stage_frame GameEngine.updateObstacles. Qed.

Lemma updateObstacles_lastTime (dt : R) (e : GameEngine) :
  lastTime (GameEngine.updateObstacles dt e) = lastTime e.
Proof. stage_frame GameEngine.updateObstacles. Qed.

Lemma updateObstacles_accumulator (dt : R) (e : GameEngine) :
  accumulator (GameEngine.updateObstacles dt e) = accumulator e.
Proof. stage_frame GameEngine.updateObstacles. Qed.

Lemma updateObstacles_mousePosition (dt : R) (e : GameEngine) :
  mousePosition (GameEngine.updateObstacles dt e) = mousePosition e.
Proof. stage_frame GameEngine.updateObstacles. Qed.

Lemma updateObstacles_worldMousePosition (dt : R) (e : GameEngine) :
  worldMousePosition (GameEngine.updateObstacles dt e) = worldMousePosition e.
Proof. stage_frame GameEngine.updateObstacles. Qed.

Lemma updateObstacles_keys (dt : R) (e : GameEngine) :
  keys (GameEngine.updateObstacles dt e) = keys e.
Proof. stage_frame GameEngine.updateObstacles. Qed.

Lemma updateObstacles_settings (dt : R) (e : GameEngine) :
  settings (GameEngine.updateObstacles dt e) = settings e.
Proof. stage_frame GameEngine.updateObstacles. Qed.

Lemma updateObstacles_rng (dt : R) (e : GameEngine) :
  rng (GameEngine.updateObstacles dt e) = rng e.
Proof. stage_frame GameEngine.updateObstacles. Qed.

Lemma updateObstacles_notifications (dt : R) (e : GameEngine) :
  notifications (GameEngine.updateObstacles dt e) = notifications e.
Proof. stage_frame GameEngine.updateObstacles. Qed.

#[export] Hint Rewrite updateObstacles_canvasWidth
  updateObstacles_canvasHeight updateObstacles_patternSystem
  updateObstacles_gameState updateObstacles_score updateObstacles_gameTime
  updateObstacles_cameraY updateObstacles_balloon updateObstacles_shield
  updateObstacles_lastTime updateObstacles_accumulator
  updateObstacles_mousePosition updateObstacles_worldMousePosition
  updateObstacles_keys updateObstacles_settings updateObstacles_rng
  updateObstacles_notifications
  : engine.

Lemma updateSpawning_canvasWidth (dt : R) (e : GameEngine) :
  canvasWidth (GameEngine.updateSpawning dt e) = canvasWidth e.
Proof. stage_frame GameEngine.updateSpawning. Qed.

Lemma updateSpawning_canvasHeight (dt : R) (e : GameEngine) :
  canvasHeight (GameEngine.updateSpawning dt e) = canvasHeight e.
Proof. stage_frame GameEngine.updateSpawning. Qed.

Lemma updateSpawning_gameState (dt : R) (e : GameEngine) :
  gameState (GameEngine.updateSpawning dt e) = gameState e.
Proof. stage_frame GameEngine.updateSpawning. Qed.

Lemma updateSpawning_score (dt : R) (e : GameEngine) :
  score (GameEngine.updateSpawning dt e) = score e.
Proof. stage_frame GameEngine.updateSpawning. Qed.

Lemma updateSpawning_gameTime (dt : R) (e : GameEngine) :
  gameTime (GameEngine.updateSpawning dt e) = gameTime e.
Proof. stage_frame GameEngine.updateSpawning. Qed.

Lemma updateSpawning_cameraY (dt : R) (e : GameEngine) :
  cameraY (GameEngine.updateSpawning dt e) = cameraY e.
Proof. stage_frame GameEngine.updateSpawning. Qed.

Lemma updateSpawning_balloon (dt : R) (e : GameEngine) :
  balloon (GameEngine.updateSpawning dt e) = balloon e.
Proof. stage_frame GameEngine.updateSpawning. Qed.

Lemma updateSpawning_shield (dt : R) (e : GameEngine) :
  shield (GameEngine.updateSpawning dt e) = shield e.
Proof. stage_frame GameEngine.updateSpawning. Qed.

Lemma updateSpawning_lastTime (dt : R) (e : GameEngine) :
  lastTime (GameEngine.updateSpawning dt e) = lastTime e.
Proof. stage_frame GameEngine.updateSpawning. Qed.

Lemma updateSpawning_accumulator (dt : R) (e : GameEngine) :
  accumulator (GameEngine.updateSpawning dt e) = accumulator e.
Proof. stage_frame GameEngine.updateSpawning. Qed.

Lemma updateSpawning_mousePosition (dt : R) (e : GameEngine) :
  mousePosition (GameEngine.updateSpawning dt e) = mousePosition e.
Proof. stage_frame GameEngine.updateSpawning. Qed.

Lemma updateSpawning_worldMousePosition (dt : R) (e : GameEngine) :
  worldMousePosition (GameEngine.updateSpawning dt e) = worldMousePosition e.
Proof. stage_frame GameEngine.updateSpawning. Qed.

Lemma updateSpawning_keys (dt : R) (e : GameEngine) :
  keys (GameEngine.updateSpawning dt e) = keys e.
Proof. stage_frame GameEngine.updateSpawning. Qed.

Lemma updateSpawning_settings (dt : R) (e : GameEngine) :
  settings (GameEngine.updateSpawning dt e) = settings e.
Proof. stage_frame GameEngine.updateSpawning. Qed.

Lemma updateSpawning_notifications (dt : R) (e : GameEngine) :
  notifications (GameEngine.updateSpawning dt e) = notifications e.
Proof. stage_frame GameEngine.updateSpawning. Qed.

#[export] Hint Rewrite updateSpawning_canvasWidth
  updateSpawning_canvasHeight updateSpawning_gameState updateSpawning_score
  updateSpawning_gameTime updateSpawning_cameraY updateSpawning_balloon
  updateSpawning_shield updateSpawning_lastTime updateSpawning_accumulator
  updateSpawning_mousePosition updateSpawning_worldMousePosition
  updateSpawning_keys updateSpawning_settings updateSpawning_notifications
  : engine.

Lemma updateCamera_canvasWidth (e : GameEngine) :
  canvasWidth (GameEngine.updateCamera e) = canvasWidth e.
Proof. stage_frame GameEngine.updateCamera. Qed.

Lemma updateCamera_canvasHeight (e : GameEngine) :
  canvasHeight (GameEngine.updateCamera e) = canvasHeight e.
Proof. stage_frame GameEngine.updateCamera. Qed.

Lemma updateCamera_patternSystem (e : GameEngine) :
  patternSystem (GameEngine.updateCamera e) = patternSystem e.
Proof. stage_frame GameEngine.updateCamera. Qed.

Lemma updateCamera_gameState (e : GameEngine) :
  gameState (GameEngine.updateCamera e) = gameState e.
Proof. stage_frame GameEngine.updateCamera. Qed.

Lemma updateCamera_score (e : GameEngine) :
  score (GameEngine.updateCamera e) = score e.
Proof. stage_frame GameEngine.updateCamera. Qed.

Lemma updateCamera_gameTime (e : GameEngine) :
  gameTime (GameEngine.updateCamera e) = gameTime e.
Proof. stage_frame GameEngine.updateCamera. Qed.

Lemma updateCamera_balloon (e : GameEngine) :
  balloon (GameEngine.updateCamera e) = balloon e.
Proof. stage_frame GameEngine.updateCamera. Qed.

Lemma updateCamera_shield (e : GameEngine) :
  shield (GameEngine.updateCamera e) = shield e.
Proof. stage_frame GameEngine.updateCamera. Qed.

Lemma updateCamera_obstacles (e : GameEngine) :
  obstacles (GameEngine.updateCamera e) = obstacles e.
Proof. stage_frame GameEngine.updateCamera. Qed.

Lemma updateCamera_lastTime (e : GameEngine) :
  lastTime (GameEngine.updateCamera e) = lastTime e.
Proof. stage_frame GameEngine.updateCamera. Qed.

Lemma updateCamera_accumulator (e : GameEngine) :
  accumulator (GameEngine.updateCamera e) = accumulator e.
Proof. stage_frame GameEngine.updateCamera. Qed.

Lemma updateCamera_mousePosition (e : GameEngine) :
  mousePosition (GameEngine.updateCamera e) = mousePosition e.
Proof. stage_frame GameEngine.updateCamera. Qed.

Lemma updateCamera_worldMousePosition (e : GameEngine) :
  worldMousePosition (GameEngine.updateCamera e) = worldMousePosition e.
Proof. stage_frame GameEngine.updateCamera. Qed.

Lemma updateCamera_keys (e : GameEngine) :
  keys (GameEngine.updateCamera e) = keys e.
Proof. stage_frame GameEngine.updateCamera. Qed.

Lemma updateCamera_settings (e : GameEngine) :
  settings (GameEngine.updateCamera e) = settings e.
Proof. stage_frame GameEngine.updateCamera. Qed.

Lemma updateCamera_rng (e : GameEngine) :
  rng (GameEngine.updateCamera e) = rng e.
Proof. stage_frame GameEngine.updateCamera. Qed.

Lemma updateCamera_notifications (e : GameEngine) :
  notifications (GameEngine.updateCamera e) = notifications e.
Proof. stage_frame GameEngine.updateCamera. Qed.

#[export] Hint Rewrite updateCamera_canvasWidth updateCamera_canvasHeight
  updateCamera_patternSystem updateCamera_gameState updateCamera_score
  updateCamera_gameTime updateCamera_balloon updateCamera_shield
  updateCamera_obstacles updateCamera_lastTime updateCamera_accumulator
  updateCamera_mousePosition updateCamera_worldMousePosition
  updateCamera_keys updateCamera_settings updateCamera_rng
  updateCamera_notifications
  : engine.

Lemma checkCollisions_canvasWidth (e : GameEngine) :
  canvasWidth (GameEngine.checkCollisions e) = canvasWidth e.
Proof. stage_frame GameEngine.checkCollisions. Qed.

Lemma checkCollisions_canvasHeight (e : GameEngine) :
  canvasHeight (GameEngine.checkCollisions e) = canvasHeight e.
Proof. stage_frame GameEngine.checkCollisions. Qed.

Lemma checkCollisions_patternSystem (e : GameEngine) :
  patternSystem (GameEngine.checkCollisions e) = patternSystem e.
Proof. stage_frame GameEngine.checkCollisions. Qed.

Lemma checkCollisions_score (e : GameEngine) :
  score (GameEngine.checkCollisions e) = score e.
Proof. stage_frame GameEngine.checkCollisions. Qed.

Lemma checkCollisions_gameTime (e : GameEngine) :
  gameTime (GameEngine.checkCollisions e) = gameTime e.
Proof. stage_frame GameEngine.checkCollisions. Qed.

Lemma checkCollisions_cameraY (e : GameEngine) :
  cameraY (GameEngine.checkCollisions e) = cameraY e.
Proof. stage_frame GameEngine.checkCollisions. Qed.

Lemma checkCollisions_balloon (e : GameEngine) :
  balloon (GameEngine.checkCollisions e) = balloon e.
Proof. stage_frame GameEngine.checkCollisions. Qed.

Lemma checkCollisions_lastTime (e : GameEngine) :
  lastTime (GameEngine.checkCollisions e) = lastTime e.
Proof. stage_frame GameEngine.checkCollisions. Qed.

Lemma checkCollisions_accumulator (e : GameEngine) :
  accumulator (GameEngine.checkCollisions e) = accumulator e.
Proof. stage_frame GameEngine.checkCollisions. Qed.

Lemma checkCollisions_mousePosition (e : GameEngine) :
  mousePosition (GameEngine.checkCollisions e) = mousePosition e.
Proof. stage_frame GameEngine.checkCollisions. Qed.

Lemma checkCollisions_worldMousePosition (e : GameEngine) :
  worldMousePosition (GameEngine.checkCollisions e) = worldMousePosition e.
Proof. stage_frame GameEngine.checkCollisions. Qed.

Lemma checkCollisions_keys (e : GameEngine) :
  keys (GameEngine.checkCollisions e) = keys e.
Proof. stage_frame GameEngine.checkCollisions. Qed.

Lemma checkCollisions_settings (e : GameEngine) :
  settings (GameEngine.checkCollisions e) = settings e.
Proof. stage_frame GameEngine.checkCollisions. Qed.

#[export] Hint Rewrite checkCollisions_canvasWidth
  checkCollisions_canvasHeight checkCollisions_patternSystem
  checkCollisions_score checkCollisions_gameTime checkCollisions_cameraY
  checkCollisions_balloon checkCollisions_lastTime
  checkCollisions_accumulator checkCollisions_mousePosition
  checkCollisions_worldMousePosition checkCollisions_keys
  checkCollisions_settings
  : engine.

(** ** Pause and resume *)

(** C9.  [pauseGame] outside [playing] and [resumeGame] outside [paused]
    return the engine as it was: the state, every other member and the log
    of notifications are unchanged. *)
Theorem pause_resume_noop (e : GameEngine) :
  (gameState e <> playing -> GameEngine.pauseGame e = e) /\
  (gameState e <> paused -> GameEngine.resumeGame e = e).
Proof.
  unfold GameEngine.pauseGame, GameEngine.resumeGame.
  split; intros H; destruct (gameState e); simpl; congruence.
Qed.

Lemma pause_resume_noop_witness :
  let e := GameEngine.new 1920 1080 (fun _ => 0) in
  GameEngine.pauseGame e = e /\ GameEngine.resumeGame e = e.
Proof.
  intros e. split.
  - apply (proj1 (pause_resume_noop e)). simpl. discriminate.
  - apply (proj2 (pause_resume_noop e)). simpl. discriminate.
Defined.

(** Where they do act, each sends exactly one notification. *)
Lemma pauseGame_playing (e : GameEngine) :
  gameState e = playing ->
  gameState (GameEngine.pauseGame e) = paused /\
  notifications (GameEngine.pauseGame e)
  = notifications e ++ [StateChange paused].
Proof.
  intros H. unfold GameEngine.pauseGame. rewrite H. simpl. auto.
Qed.

Lemma resumeGame_paused (e : GameEngine) :
  gameState e = paused ->
  gameState (GameEngine.resumeGame e) = playing /\
  notifications (GameEngine.resumeGame e)
  = notifications e ++ [StateChange playing].
Proof.
  intros H. unfold GameEngine.resumeGame. rewrite H. simpl. auto.
Qed.

(** ** The purge at the end of a tick *)

(** C8.  After a physics tick every obstacle of the collection is active,
    whatever the state before it, the step, and the outcome of the collision
    checks. *)
Theorem updatePhysics_obstacles_active (dt : R) (e : GameEngine) :
  Forall (fun o => active o = true)
    (obstacles (GameEngine.updatePhysics dt e)).
Proof.
  unfold GameEngine.updatePhysics. simpl.
  apply List.Forall_forall. intros o Ho.
  apply filter_In in Ho. tauto.
Qed.

(** ** What a whole tick leaves alone *)

Arguments GameEngine.updatePhysics : simpl never.
Arguments GameEngine.updateInput : simpl never.
Arguments GameEngine.updateBalloon : simpl never.
Arguments GameEngine.updateShield : simpl never.
Arguments GameEngine.updateObstacles : simpl never.
Arguments GameEngine.updateSpawning : simpl never.
Arguments GameEngine.updateCamera : simpl never.
Arguments GameEngine.checkCollisions : simpl never.

Ltac tick_frame :=
  intros; unfold GameEngine.updatePhysics; simpl;
  autorewrite with engine; reflexivity.

Lemma updatePhysics_canvasWidth (dt : R) (e : GameEngine) :
  canvasWidth (GameEngine.updatePhysics dt e) = canvasWidth e.
Proof. tick_frame. Qed.

Lemma updatePhysics_canvasHeight (dt : R) (e : GameEngine) :
  canvasHeight (GameEngine.updatePhysics dt e) = canvasHeight e.
Proof. tick_frame. Qed.

Lemma updatePhysics_lastTime (dt : R) (e : GameEngine) :
  lastTime (GameEngine.updatePhysics dt e) = lastTime e.
Proof. tick_frame. Qed.

Lemma updatePhysics_accumulator (dt : R) (e : GameEngine) :
  accumulator (GameEngine.updatePhysics dt e) = accumulator e.
Proof. tick_frame. Qed.

Lemma updatePhysics_mousePosition (dt : R) (e : GameEngine) :
  mousePosition (GameEngine.updatePhysics dt e) = mousePosition e.
Proof. tick_frame. Qed.

Lemma updatePhysics_worldMousePosition (dt : R) (e : GameEngine) :
  worldMousePosition (GameEngine.updatePhysics dt e) = worldMousePosition e.
Proof. tick_frame. Qed.

Lemma updatePhysics_keys (dt : R) (e : GameEngine) :
  keys (GameEngine.updatePhysics dt e) = keys e.
Proof. tick_frame. Qed.

Lemma updatePhysics_settings (dt : R) (e : GameEngine) :
  settings (GameEngine.updatePhysics dt e) = settings e.
Proof. tick_frame. Qed.

Lemma updatePhysics_gameTime (dt : R) (e : GameEngine) :
  gameTime (GameEngine.updatePhysics dt e) = gameTime e + dt.
Proof. tick_frame. Qed.

(** The balloon after a tick is the balloon after [updateBalloon], which
    reads the balloon, the clock and the canvas only. *)
Lemma updatePhysics_balloon (dt : R) (e : GameEngine) :
  balloon (GameEngine.updatePhysics dt e)
  = balloon (GameEngine.updateBalloon dt (with_gameTime (gameTime e + dt) e)).
Proof.
  unfold GameEngine.updatePhysics. simpl. autorewrite with engine.
  unfold GameEngine.updateBalloon. simpl. autorewrite with engine.
  reflexivity.
Qed.

Lemma updatePhysics_score (dt : R) (e : GameEngine) :
  score (GameEngine.updatePhysics dt e)
  = Rmax 0
      ((canvasHeight e
        - y (position (balloonObject (balloon (GameEngine.updatePhysics dt e)))))
       / 10).
Proof.
  rewrite updatePhysics_balloon.
  unfold GameEngine.updatePhysics. simpl. autorewrite with engine.
  unfold GameEngine.updateBalloon. simpl. autorewrite with engine.
  reflexivity.
Qed.

#[export] Hint Rewrite updatePhysics_canvasWidth updatePhysics_canvasHeight updatePhysics_lastTime updatePhysics_accumulator
  updatePhysics_mousePosition updatePhysics_worldMousePosition updatePhysics_keys updatePhysics_settings updatePhysics_gameTime
  : engine.

(** ** Frames are sequences of steps *)

Lemma steps_trans (allowed : Input -> bool) (e1 e2 e3 : GameEngine) :
  steps allowed e1 e2 -> steps allowed e2 e3 -> steps allowed e1 e3.
Proof.
  intros H12 H23. induction H23 as [|e2 e3 e4 _ IH Hs]; [exact H12|].
  eapply steps_snoc; [apply IH; exact H12 | exact Hs].
Qed.

Lemma steps_one (allowed : Input -> bool) (e1 e2 : GameEngine) :
  step allowed e1 e2 -> steps allowed e1 e2.
Proof. intros H. eapply steps_snoc; [apply steps_refl | exact H]. Qed.

Lemma with_lastTime_same (e : GameEngine) : with_lastTime (lastTime e) e = e.
Proof. destruct e; reflexivity. Qed.

Lemma physicsLoop_steps (allowed : Input -> bool) (fuel : nat)
  (e : GameEngine) :
  steps allowed e (GameEngine.physicsLoop fuel e).
Proof.
  revert e. induction fuel as [|fuel IH]; intros e; simpl.
  - apply steps_refl.
  - destruct (Rle_dec _ _); [|apply steps_refl].
    eapply steps_trans; [|apply IH].
    set (e1 := if isPlaying (gameState e) then _ else e).
    apply steps_trans with e1.
    + subst e1. destruct (gameState e) eqn:Hs; simpl; try apply steps_refl.
      apply steps_one, step_tick, Hs.
    + apply steps_one. rewrite <- (with_lastTime_same e1) at 2.
      apply step_clock.
Qed.

Lemma gameLoop_steps (allowed : Input -> bool) (t : R) (e : GameEngine) :
  steps allowed e (GameEngine.gameLoop t e).
Proof.
  unfold GameEngine.gameLoop.
  eapply steps_trans; [|apply physicsLoop_steps].
  apply steps_one.
  exact (step_clock allowed e t
           (accumulator e + Rmin ((t - lastTime e) / 1000) 0.25)).
Qed.

Lemma with_accumulator_same (e : GameEngine) :
  with_accumulator (accumulator e) e = e.
Proof. destruct e; reflexivity. Qed.

Lemma steps_exec (allowed : Input -> bool) (i : Input) (e : GameEngine) :
  allowed i = true -> steps allowed e (exec i e).
Proof.
  intros Hi. destruct (isFrame i) eqn:Hf.
  - destruct i; try discriminate; simpl.
    + unfold GameEngine.start.
      eapply steps_trans; [|apply gameLoop_steps].
      apply steps_one. rewrite <- (with_accumulator_same (with_lastTime now e)).
      exact (step_clock allowed e now (accumulator e)).
    + apply gameLoop_steps.
  - apply steps_one, step_input; assumption.
Qed.

Lemma steps_run (allowed : Input -> bool) (inputs : list Input)
  (e : GameEngine) :
  forallb allowed inputs = true -> steps allowed e (run inputs e).
Proof.
  revert e. induction inputs as [|i inputs IH]; intros e H; simpl.
  - apply steps_refl.
  - simpl in H. apply andb_prop in H. destruct H as [Hi Hr].
    eapply steps_trans; [apply steps_exec, Hi | apply IH, Hr].
Qed.

(** Every sequence of inputs leads to a reachable state. *)
Lemma run_reachable (w h : R) (random : nat -> R) (inputs : list Input) :
  reachable w h random (run inputs (GameEngine.new w h random)).
Proof.
  apply steps_run. induction inputs; simpl; auto.
Qed.

(** The accumulator loop runs to its end: when the frame returns, less than
    one step is left on the accumulator. *)
Lemma physicsLoop_accumulator (fuel : nat) (e : GameEngine) :
  accumulator e < INR fuel * GameEngine.physicsStep ->
  accumulator (GameEngine.physicsLoop fuel e) < GameEngine.physicsStep.
Proof.
  revert e. induction fuel as [|fuel IH]; intros e H.
  - simpl in *. unfold GameEngine.physicsStep in *. lra.
  - simpl GameEngine.physicsLoop.
    destruct (Rle_dec _ _) as [Hge|Hlt]; [|lra].
    apply IH. rewrite S_INR in H.
    destruct (isPlaying (gameState e)); simpl; autorewrite with engine;
      simpl; unfold GameEngine.physicsStep in *; lra.
Qed.

Lemma gameLoop_accumulator (t : R) (e : GameEngine) :
  accumulator (GameEngine.gameLoop t e) < GameEngine.physicsStep.
Proof.
  unfold GameEngine.gameLoop.
  set (e2 := with_accumulator _ _).
  destruct (Rle_dec GameEngine.physicsStep (accumulator e2)) as [Hge|Hlt].
  - apply physicsLoop_accumulator. unfold GameEngine.loopFuel.
    set (q := accumulator e2 / GameEngine.physicsStep).
    assert (Hq : 0 < q).
    { unfold q, GameEngine.physicsStep in *.
      apply Rdiv_lt_0_compat; lra. }
    destruct (archimed q) as [Hup _].
    assert (Hz : (0 <= up q)%Z).
    { apply le_IZR. lra. }
    rewrite INR_IZR_INZ, Z2Nat.id by exact Hz.
    assert (Hq' : q = accumulator e2 * 120).
    { unfold q, GameEngine.physicsStep. field. }
    unfold GameEngine.physicsStep in *. lra.
  - apply Rnot_le_lt in Hlt.
    destruct (GameEngine.loopFuel (accumulator e2)) as [|fuel];
      [exact Hlt|].
    cbn [GameEngine.physicsLoop].
    destruct (Rle_dec _ _); [lra | exact Hlt].
Qed.

(** An invariant of the steps is an invariant of every state they reach. *)
Lemma steps_invariant (allowed : Input -> bool) (P : GameEngine -> Prop) :
  (forall e i, P e -> allowed i = true -> isFrame i = false -> P (exec i e)) ->
  (forall e t a, P e -> P (with_accumulator a (with_lastTime t e))) ->
  (forall e, P e -> gameState e = playing ->
             P (GameEngine.updatePhysics GameEngine.physicsStep e)) ->
  forall e0 e, steps allowed e0 e -> P e0 -> P e.
Proof.
  intros Hin Hclock Htick e0 e Hsteps H0.
  induction Hsteps as [|e1 e2 e3 _ IH Hstep]; [exact H0|].
  specialize (IH H0). destruct Hstep; auto.
Qed.

(** ** The balloon, the clock and the score *)

Lemma updateBalloon_velocity (dt : R) (e : GameEngine) :
  balloonVy (GameEngine.updateBalloon dt e)
  = if Rlt_dec (Rabs (balloonVy e))
         (Rmin GameEngine.BALLOON_MAX_VELOCITY
            (GameEngine.BALLOON_BASE_VELOCITY
             + acceleration (balloon e) * gameTime e))
    then balloonVy e - acceleration (balloon e) * dt
    else balloonVy e.
Proof. reflexivity. Qed.

Lemma updateBalloon_height (dt : R) (e : GameEngine) :
  balloonY (GameEngine.updateBalloon dt e)
  = balloonY e + balloonVy (GameEngine.updateBalloon dt e) * dt.
Proof. reflexivity. Qed.

Lemma updateBalloon_acceleration (dt : R) (e : GameEngine) :
  acceleration (balloon (GameEngine.updateBalloon dt e))
  = acceleration (balloon e).
Proof. reflexivity. Qed.

Lemma INR_2400 : INR 2400 = 2400.
Proof. rewrite INR_IZR_INZ. apply f_equal. reflexivity. Qed.

(** One more accelerated tick, or none: the step of the speed count. *)
Lemma speed_count_step (k : nat) (t vy : R) :
  (k <= 2400)%nat -> vy = - (80 + INR k / 30) -> INR k / 30 <= 4 * t ->
  let t' := t + 1 / 120 in
  let vy' :=
    if Rlt_dec (Rabs vy) (Rmin 160 (80 + 4 * t')) then vy - 4 * (1 / 120)
    else vy in
  vy' <= vy /\
  exists k' : nat,
    (k' <= 2400)%nat /\ vy' = - (80 + INR k' / 30) /\ INR k' / 30 <= 4 * t'.
Proof.
  intros Hk Hvy Ht t' vy'.
  assert (Hk0 : 0 <= INR k) by apply pos_INR.
  assert (Habs : Rabs vy = 80 + INR k / 30).
  { rewrite Hvy, Rabs_Ropp. apply Rabs_pos_eq. lra. }
  subst vy' t'. destruct (Rlt_dec _ _) as [Hlt|Hge].
  - split; [lra|]. exists (S k). rewrite S_INR.
    assert (Hlt' : 80 + INR k / 30 < 160).
    { rewrite <- Habs. eapply Rlt_le_trans; [exact Hlt | apply Rmin_l]. }
    assert (Hk' : (k < 2400)%nat).
    { apply INR_lt. rewrite INR_2400. lra. }
    split; [lia|]. split; lra.
  - split; [lra|]. exists k. split; [exact Hk|]. split; [exact Hvy | lra].
Qed.

Lemma balloonInvariant_startGame (h : R) (e : GameEngine) :
  canvasHeight e = h -> acceleration (balloon e) = 4 ->
  balloonInvariant h (GameEngine.startGame e).
Proof.
  intros Hh Ha. unfold balloonInvariant, balloonY, balloonVy. simpl.
  rewrite Hh. repeat split; try assumption; try lra.
  - apply Rmax_l.
  - exists 0%nat. simpl. unfold GameEngine.BALLOON_BASE_VELOCITY.
    repeat split; [lia | lra | lra].
Qed.

Lemma balloonInvariant_new (w h : R) (random : nat -> R) :
  balloonInvariant h (GameEngine.new w h random).
Proof.
  unfold balloonInvariant, balloonY, balloonVy. simpl.
  unfold GameEngine.BALLOON_ACCELERATION, GameEngine.BALLOON_BASE_VELOCITY.
  repeat split; try lra.
  - apply Rmax_l.
  - exists 0%nat. simpl. repeat split; [lia | lra | lra].
Qed.

Lemma balloonInvariant_input (h : R) (e : GameEngine) (i : Input) :
  balloonInvariant h e -> isFrame i = false -> balloonInvariant h (exec i e).
Proof.
  intros H Hf.
  destruct i; try discriminate; cbn [exec].
  - exact H.
  - exact H.
  - exact H.
  - apply balloonInvariant_startGame; apply H.
  - unfold GameEngine.pauseGame. destruct (isPlaying _); exact H.
  - unfold GameEngine.resumeGame. destruct (isPaused _); exact H.
  - apply balloonInvariant_startGame; apply H.
  - exact H.
  - exact H.
  - exact H.
Qed.

Lemma balloonInvariant_clock (h : R) (e : GameEngine) (t a : R) :
  balloonInvariant h e ->
  balloonInvariant h (with_accumulator a (with_lastTime t e)).
Proof. intros H. exact H. Qed.

(** A tick keeps the invariant, and does not lower the balloon. *)
Lemma balloonInvariant_tick (h : R) (e : GameEngine) :
  balloonInvariant h e ->
  let e' := GameEngine.updatePhysics GameEngine.physicsStep e in
  balloonInvariant h e' /\ balloonY e' <= balloonY e /\
  score e' = (h - balloonY e') / 10.
Proof.
  intros (Hh & Ha & Hy & Hs & k & Hk & Hv & Ht) e'.
  assert (Hb : balloon e'
               = balloon (GameEngine.updateBalloon GameEngine.physicsStep
                            (with_gameTime
                               (gameTime e + GameEngine.physicsStep) e)))
    by apply updatePhysics_balloon.
  set (e1 := with_gameTime (gameTime e + GameEngine.physicsStep) e) in Hb.
  assert (Hvy : balloonVy e'
                = balloonVy (GameEngine.updateBalloon GameEngine.physicsStep e1))
    by (unfold balloonVy; rewrite Hb; reflexivity).
  assert (Hyy : balloonY e'
                = balloonY e + balloonVy e' * GameEngine.physicsStep).
  { rewrite Hvy. unfold balloonY at 1. rewrite Hb.
    apply (updateBalloon_height GameEngine.physicsStep e1). }
  rewrite updateBalloon_velocity in Hvy.
  change (acceleration (balloon e1)) with (acceleration (balloon e)) in Hvy.
  change (balloonVy e1) with (balloonVy e) in Hvy.
  change (gameTime e1) with (gameTime e + GameEngine.physicsStep) in Hvy.
  rewrite Ha in Hvy.
  unfold GameEngine.BALLOON_MAX_VELOCITY, GameEngine.BALLOON_BASE_VELOCITY,
    GameEngine.physicsStep in Hvy, Hyy.
  destruct (speed_count_step k (gameTime e) (balloonVy e) Hk Hv Ht)
    as (Hle & k' & Hk' & Hv' & Ht').
  rewrite <- Hvy in Hle, Hv'.
  assert (Hk0 : 0 <= INR k') by apply pos_INR.
  assert (Hdown : balloonY e' <= balloonY e) by lra.
  assert (Hscore : score e' = (h - balloonY e') / 10).
  { subst e'. rewrite updatePhysics_score, Hh. fold (balloonY
      (GameEngine.updatePhysics GameEngine.physicsStep e)).
    apply Rmax_right. lra. }
  split; [|split; assumption].
  unfold balloonInvariant.
  replace (canvasHeight e') with h
    by (subst e'; rewrite updatePhysics_canvasHeight; congruence).
  replace (acceleration (balloon e')) with 4
    by (rewrite Hb, updateBalloon_acceleration; symmetry; exact Ha).
  replace (gameTime e') with (gameTime e + 1 / 120)
    by (subst e'; rewrite updatePhysics_gameTime; reflexivity).
  repeat split; try lra.
  - rewrite Hscore. apply Rmax_r.
  - exists k'. auto.
Qed.

Lemma reachable_balloonInvariant (w h : R) (random : nat -> R)
  (e : GameEngine) :
  reachable w h random e -> balloonInvariant h e.
Proof.
  intros H.
  refine (steps_invariant _ (balloonInvariant h) _ _ _ _ _ H
            (balloonInvariant_new w h random)).
  - intros e1 i He1 _ Hf. apply balloonInvariant_input; assumption.
  - intros e1 t a He1. apply balloonInvariant_clock, He1.
  - intros e1 He1 _. apply balloonInvariant_tick, He1.
Qed.

Lemma speed_within_cap (h : R) (e : GameEngine) :
  balloonInvariant h e ->
  Rabs (balloonVy e)
  <= Rmin GameEngine.BALLOON_MAX_VELOCITY
       (GameEngine.BALLOON_BASE_VELOCITY
        + acceleration (balloon e) * gameTime e).
Proof.
  intros (_ & Ha & _ & _ & k & Hk & Hv & Ht).
  assert (Hk0 : 0 <= INR k) by apply pos_INR.
  assert (Hk1 : INR k <= 2400) by (rewrite <- INR_2400; apply le_INR, Hk).
  rewrite Hv, Rabs_Ropp, Rabs_pos_eq, Ha by lra.
  unfold GameEngine.BALLOON_MAX_VELOCITY, GameEngine.BALLOON_BASE_VELOCITY.
  apply Rmin_glb; lra.
Qed.

(** The balloon and the clock are final once [updateBalloon] has run. *)
Lemma afterBalloon_final (dt : R) (e : GameEngine) :
  let e3 :=
    GameEngine.updateBalloon dt
      (GameEngine.updateInput dt (with_gameTime (gameTime e + dt) e)) in
  balloon e3 = balloon (GameEngine.updatePhysics dt e) /\
  gameTime e3 = gameTime (GameEngine.updatePhysics dt e).
Proof.
  intros e3. subst e3. split.
  - rewrite updatePhysics_balloon.
    unfold GameEngine.updateBalloon. simpl. autorewrite with engine.
    reflexivity.
  - autorewrite with engine. reflexivity.
Qed.

(** The height after a tick, and the speed the invariant allows. *)
Lemma updatePhysics_height (dt : R) (e : GameEngine) :
  balloonY (GameEngine.updatePhysics dt e)
  = balloonY e + balloonVy (GameEngine.updatePhysics dt e) * dt.
Proof.
  unfold balloonY, balloonVy. rewrite updatePhysics_balloon. reflexivity.
Qed.

Lemma balloonInvariant_speed (h : R) (e : GameEngine) :
  balloonInvariant h e -> -160 <= balloonVy e <= -80.
Proof.
  intros (_ & _ & _ & _ & k & Hk & Hv & _).
  assert (H0 : 0 <= INR k) by apply pos_INR.
  assert (H1 : INR k <= 2400) by (rewrite <- INR_2400; apply le_INR, Hk).
  lra.
Qed.

(** C4.  In a tick of a playing engine the speed of the balloon, once
    [updateBalloon] has run, is at most the smaller of the global cap and
    base speed plus acceleration times the play time elapsed at that tick;
    so it is at the end of the tick. *)
Theorem balloon_speed_within_cap (w h : R) (random : nat -> R)
  (e : GameEngine) :
  reachable w h random e -> gameState e = playing ->
  let dt := GameEngine.physicsStep in
  let e3 :=
    GameEngine.updateBalloon dt
      (GameEngine.updateInput dt (with_gameTime (gameTime e + dt) e)) in
  let e' := GameEngine.updatePhysics dt e in
  Rabs (balloonVy e3)
  <= Rmin GameEngine.BALLOON_MAX_VELOCITY
       (GameEngine.BALLOON_BASE_VELOCITY
        + acceleration (balloon e3) * gameTime e3) /\
  Rabs (balloonVy e')
  <= Rmin GameEngine.BALLOON_MAX_VELOCITY
       (GameEngine.BALLOON_BASE_VELOCITY
        + acceleration (balloon e') * gameTime e').
Proof.
  intros Hr _ dt e3 e'.
  assert (Hinv : balloonInvariant h e').
  { apply balloonInvariant_tick, (reachable_balloonInvariant w h random), Hr. }
  destruct (afterBalloon_final dt e) as [Hb Ht].
  fold e3 in Hb, Ht. fold e' in Hb, Ht.
  unfold balloonVy. rewrite Hb, Ht.
  split; apply (speed_within_cap h e' Hinv).
Qed.

Lemma balloon_speed_within_cap_witness :
  let e := GameEngine.startGame (GameEngine.new 1920 1080 (fun _ => 0)) in
  let e' := GameEngine.updatePhysics GameEngine.physicsStep e in
  Rabs (balloonVy e')
  <= Rmin GameEngine.BALLOON_MAX_VELOCITY
       (GameEngine.BALLOON_BASE_VELOCITY
        + acceleration (balloon e') * gameTime e').
Proof.
  intros e e'.
  exact (proj2 (balloon_speed_within_cap 1920 1080 (fun _ => 0) e
                  (run_reachable 1920 1080 (fun _ => 0) [StartGame])
                  eq_refl)).
Defined.

(** C10.  The score that [getScore] returns is never negative. *)
Theorem getScore_nonnegative (w h : R) (random : nat -> R) (e : GameEngine) :
  reachable w h random e -> 0 <= GameEngine.getScore e.
Proof.
  intros Hr. apply (reachable_balloonInvariant w h random) in Hr.
  unfold GameEngine.getScore. apply Hr.
Qed.

Lemma getScore_nonnegative_witness :
  0 <= GameEngine.getScore
         (GameEngine.updatePhysics GameEngine.physicsStep
            (GameEngine.startGame (GameEngine.new 1920 1080 (fun _ => 0)))).
Proof.
  apply (getScore_nonnegative 1920 1080 (fun _ => 0)).
  eapply steps_snoc.
  - exact (run_reachable 1920 1080 (fun _ => 0) [StartGame]).
  - apply step_tick. reflexivity.
Defined.

(** The two places that write the score: the clamp of the tick and the
    reset of a run. *)
Lemma updatePhysics_score_clamped (dt : R) (e : GameEngine) :
  0 <= score (GameEngine.updatePhysics dt e).
Proof. rewrite updatePhysics_score. apply Rmax_l. Qed.

Lemma startGame_score (e : GameEngine) :
  score (GameEngine.startGame e) = 0 /\
  balloonY (GameEngine.startGame e) = canvasHeight e - 100.
Proof. split; reflexivity. Qed.

(** C2, as amended.  After a physics tick of a run the score is the height
    of the balloon over the bottom edge of the canvas divided by 10, that
    is 10 more than the tenth of the distance climbed from the starting
    height [h - 100]; a tick never lowers the score; [startGame] sets the
    score to 0 with the balloon at the starting height. *)
Theorem score_after_tick (w h : R) (random : nat -> R) (e : GameEngine) :
  reachable w h random e -> gameState e = playing ->
  let e' := GameEngine.updatePhysics GameEngine.physicsStep e in
  let climbed := (h - 100) - balloonY e' in
  0 <= climbed /\
  score e' = (h - balloonY e') / 10 /\
  score e' = 10 + climbed / 10 /\
  score e <= score e' /\
  score (GameEngine.startGame e) = 0 /\
  balloonY (GameEngine.startGame e) = h - 100.
Proof.
  intros Hr _ e' climbed.
  pose proof (reachable_balloonInvariant w h random e Hr) as Hinv.
  destruct (balloonInvariant_tick h e Hinv) as (Hinv' & Hdown & Hscore).
  fold e' in Hinv', Hdown, Hscore.
  destruct Hinv as (Hh & _ & Hy & [_ Hs] & _).
  rewrite Rmax_right in Hs by lra.
  subst climbed. rewrite Hscore.
  destruct (startGame_score e) as [H0 Hstart]. rewrite Hh in Hstart.
  repeat split; try assumption; lra.
Qed.

Lemma score_after_tick_witness :
  let e := GameEngine.startGame (GameEngine.new 1920 1080 (fun _ => 0)) in
  let e' := GameEngine.updatePhysics GameEngine.physicsStep e in
  score e' = 10 + ((1080 - 100) - balloonY e') / 10.
Proof.
  intros e e'.
  exact (proj1 (proj2 (proj2
           (score_after_tick 1920 1080 (fun _ => 0) e
              (run_reachable 1920 1080 (fun _ => 0) [StartGame]) eq_refl)))).
Defined.

(** C2 fails as stated.  On a 1920 by 1080 canvas the balloon starts at
    height 980; after the first tick of the run the score is 10 more than
    the tenth of the distance climbed from there. *)
Lemma score_after_tick_counterexample :
  let e := GameEngine.startGame (GameEngine.new 1920 1080 (fun _ => 0)) in
  let e' := GameEngine.updatePhysics GameEngine.physicsStep e in
  balloonY e = 980 /\
  score e' = 10 + (balloonY e - balloonY e') / 10 /\
  score e' <> (balloonY e - balloonY e') / 10.
Proof.
  intros e e'.
  assert (Hinv : balloonInvariant 1080 e).
  { apply (reachable_balloonInvariant 1920 1080 (fun _ => 0)).
    exact (run_reachable 1920 1080 (fun _ => 0) [StartGame]). }
  destruct (balloonInvariant_tick 1080 e Hinv) as (_ & _ & Hscore).
  fold e' in Hscore.
  assert (Hy : balloonY e = 980) by (unfold balloonY; simpl; lra).
  rewrite Hy, Hscore. repeat split; lra.
Qed.

(** ** Shield contacts *)

Lemma applyImpulse_type (e : GameEngine) (o : Obstacle) (d : Vector2)
  (g : Rng) :
  type (fst (GameEngine.applyImpulse e o d g)) = type o.
Proof.
  unfold GameEngine.applyImpulse, bind, ret, Math_random.
  destruct (truthy (anchored o));
    [destruct (String.eqb (type o) "rotor");
       [|destruct (String.eqb (type o) "spike" || String.eqb (type o) "block")]
    |]; simpl; destruct (String.eqb (type o) "shard"); reflexivity.
Qed.

Lemma handleShieldCollision_type (e : GameEngine) (o : Obstacle)
  (c : CollisionInfo) (g : Rng) :
  type (fst (GameEngine.handleShieldCollision e o c g)) = type o.
Proof.
  unfold GameEngine.handleShieldCollision.
  destruct (CollisionSystem.isRectangular o).
  - rewrite applyImpulse_type. reflexivity.
  - destruct (Req_dec_T _ _).
    + unfold bind, ret, Math_random. destruct (negb _); reflexivity.
    + apply applyImpulse_type.
Qed.

(** Past the zero-distance exit, a shard leaves [handleShieldCollision]
    inactive. *)
Lemma applyImpulse_shard (e : GameEngine) (o : Obstacle) (d : Vector2)
  (g : Rng) :
  type o = "shard"%string ->
  active (fst (GameEngine.applyImpulse e o d g)) = false.
Proof.
  intros Ht.
  unfold GameEngine.applyImpulse, bind, ret, Math_random.
  rewrite Ht. destruct (truthy (anchored o)); simpl; rewrite Ht; reflexivity.
Qed.

Lemma handleShieldCollision_shard_apart (e : GameEngine) (o : Obstacle)
  (c : CollisionInfo) (g : Rng) :
  type o = "shard"%string ->
  position o <> position (shieldObject (shield e)) ->
  active (fst (GameEngine.handleShieldCollision e o c g)) = false.
Proof.
  intros Ht Hp. unfold GameEngine.handleShieldCollision.
  unfold CollisionSystem.isRectangular. rewrite Ht. simpl.
  destruct (Req_dec_T _ _) as [Hz|Hnz].
  - exfalso. apply Hp. apply distance_zero_iff in Hz.
    destruct Hz as [Hx Hy]. apply vector_eq; lra.
  - apply applyImpulse_shard, Ht.
Qed.

(** At zero distance [handleShieldCollision] returns before the line that
    destroys shards: a body that is not rectangular keeps its [active]
    flag. *)
Lemma handleShieldCollision_on_centre (e : GameEngine) (o : Obstacle)
  (c : CollisionInfo) (g : Rng) :
  CollisionSystem.isRectangular o = false ->
  position o = position (shieldObject (shield e)) ->
  active (fst (GameEngine.handleShieldCollision e o c g)) = active o.
Proof.
  intros Hr Hp. unfold GameEngine.handleShieldCollision.
  rewrite Hr, Hp.
  destruct (Req_dec_T _ _) as [Hz|Hnz].
  - unfold bind, ret, Math_random. destruct (negb _); reflexivity.
  - exfalso. apply Hnz. apply distance_zero_iff. split; ring.
Qed.

(** [checkCollisions] on a collection of one active obstacle that is on
    the shield and off the balloon. *)
Lemma checkCollisions_single (e : GameEngine) (o : Obstacle)
  (c : CollisionInfo) :
  GameEngine.balloonHit e = false ->
  obstacles e = [o] ->
  active o = true ->
  CollisionSystem.checkCollision (shieldObject (shield e)) o = Some c ->
  GameEngine.checkCollisions e
  = with_rng (snd (GameEngine.handleShieldCollision e o c (rng e)))
      (with_shield
         (mkShield (shieldObject (shield e)) (targetPosition (shield e))
            (lerpFactor (shield e)) (mass (shield e)) (gameTime e))
         (with_obstacles
            [fst (GameEngine.handleShieldCollision e o c (rng e))] e)).
Proof.
  intros Hb Ho Ha Hc. unfold GameEngine.checkCollisions.
  rewrite Hb, Ho. cbn [GameEngine.shieldPass]. unfold bind, ret.
  rewrite Ha, Hc.
  destruct (GameEngine.handleShieldCollision e o c (rng e)) as [o' g'].
  reflexivity.
Qed.

(** C6 at its failing input.  The shield, radius 42, and a shard, radius 8,
    are both centred at (500, 500).  The resolver reports the overlap with
    the fixed normal (1, 0); [handleShieldCollision] leaves the shard active;
    after [checkCollisions] the shard is still in the collection and active,
    while the shield has recorded the contact. *)
Theorem shard_on_shield_centre_stays_active (random : nat -> R) :
  let e := engineWithShardOnCentre random in
  (exists c,
     CollisionSystem.checkCollision (shieldObject (shield e))
       shardOnShieldCentre = Some c /\
     normal c = mkVector2 1 0 /\
     forall g,
       active (fst (GameEngine.handleShieldCollision e shardOnShieldCentre
                      c g)) = true) /\
  (exists o,
     obstacles (GameEngine.checkCollisions e) = [o] /\
     type o = "shard"%string /\ active o = true) /\
  gameState (GameEngine.checkCollisions e) = playing /\
  lastHitTime (shield (GameEngine.checkCollisions e)) = gameTime e.
Proof.
  intros e.
  assert (Hs : sqrt ((500 - 500) * (500 - 500) + (500 - 500) * (500 - 500))
               = 0).
  { replace ((500 - 500) * (500 - 500) + (500 - 500) * (500 - 500))
      with 0 by ring. apply sqrt_0. }
  assert (Hc : CollisionSystem.checkCollision (shieldObject (shield e))
                 shardOnShieldCentre
               = Some (mkCollisionInfo (42 + 8 - 0) (mkVector2 1 0)
                         (mkVector2 500 500))).
  { unfold CollisionSystem.checkCollision, CollisionSystem.circleVsCircle.
    simpl. rewrite Hs.
    destruct (Rle_dec _ _) as [_|Hn]; [|exfalso; apply Hn; lra].
    destruct (Req_dec_T 0 0) as [_|Hn]; [reflexivity|congruence]. }
  assert (Hh : forall c g,
             active (fst (GameEngine.handleShieldCollision e
                            shardOnShieldCentre c g)) = true).
  { intros c g.
    exact (handleShieldCollision_on_centre e shardOnShieldCentre c g
             eq_refl eq_refl). }
  split; [eexists; split; [exact Hc | split; [reflexivity | apply Hh]]|].
  assert (Hb : GameEngine.balloonHit e = false).
  { unfold GameEngine.balloonHit. simpl.
    unfold CollisionSystem.checkCollision, CollisionSystem.circleVsCircle.
    simpl. unfold GameEngine.BALLOON_BASE_VELOCITY.
    destruct (Rle_dec _ _) as [Hle|_]; [exfalso; lra | reflexivity]. }
  rewrite (checkCollisions_single e shardOnShieldCentre _ Hb eq_refl eq_refl
             Hc).
  split; [|split; reflexivity].
  eexists. split; [reflexivity|]. split.
  - apply handleShieldCollision_type.
  - apply Hh.
Qed.

(** ** The pattern generator *)

Section Selection.

Import PatternSystem.

Lemma pickByWeight_In (pool : list Pattern) (rnd : R) (p : Pattern) :
  pickByWeight pool rnd = Some p -> In p pool.
Proof.
  revert rnd. induction pool as [|q pool IH]; intros rnd; simpl.
  - discriminate.
  - destruct (Rle_dec _ _).
    + intros [= ->]. left. reflexivity.
    + intros H. right. eapply IH, H.
Qed.

Lemma last_In (pool : list Pattern) (p : Pattern) :
  last pool = Some p -> In p pool.
Proof.
  induction pool as [|q [|q' pool] IH]; simpl.
  - discriminate.
  - intros [= ->]. left. reflexivity.
  - intros H. right. apply IH, H.
Qed.

Lemma last_nonempty (pool : list Pattern) :
  pool <> [] -> exists p, last pool = Some p.
Proof.
  induction pool as [|q [|q' pool] IH]; intros H.
  - congruence.
  - exists q. reflexivity.
  - apply IH. discriminate.
Qed.

(** A selection from a pool that is not empty returns one of its
    patterns. *)
Lemma selectWeightedPattern_In (pool : list Pattern) (g : Rng) :
  pool <> [] ->
  exists p, fst (selectWeightedPattern pool g) = Some p /\ In p pool.
Proof.
  intros Hne. unfold selectWeightedPattern, bind, ret, Math_random.
  destruct (pickByWeight pool _) as [p|] eqn:Hp; simpl.
  - exists p. split; [reflexivity|]. eapply pickByWeight_In, Hp.
  - destruct (last_nonempty pool Hne) as [p Hl]. exists p.
    split; [exact Hl | apply last_In, Hl].
Qed.

(** The history after a pattern is executed: its name is pushed, and the
    oldest entry leaves once there are more than five. *)
Lemma executePattern_history (p : Pattern) (params : PatternParams)
  (ps : PatternSystem) (g : Rng) :
  let pushed := patternHistory ps ++ [name p] in
  patternHistory (snd (fst (executePattern p params ps g)))
  = (if (5 <? length pushed)%nat then tl pushed else pushed) /\
  last (patternHistory (snd (fst (executePattern p params ps g))))
  = Some (name p) /\
  patterns (snd (fst (executePattern p params ps g))) = patterns ps.
Proof.
  intros pushed. unfold executePattern, bind, ret.
  destruct (spawn p params g) as [os g']. simpl. fold pushed.
  split; [reflexivity|]. split; [|reflexivity].
  destruct (5 <? length pushed)%nat eqn:Hlen.
  - subst pushed. destruct (patternHistory ps) as [|n h]; [discriminate|].
    simpl. apply last_snoc.
  - apply last_snoc.
Qed.

Lemma available_In (params : PatternParams) (ps : PatternSystem)
  (p : Pattern) :
  let altitude := Rabs (spawnY params) / 10 in
  In p (List.filter (fun p => Rleb (minAltitude p) altitude) (patterns ps))
  <-> In p (patterns ps) /\ minAltitude p <= altitude.
Proof.
  intros altitude. rewrite filter_In. unfold Rleb.
  destruct (Rle_dec _ _); intuition congruence.
Qed.

(** What the guard of [spawnPattern] gives: when the history has at least
    three entries, the two latest are both [N], and the altitude-filtered
    pool holds a pattern with another name, the selection executes a
    pattern of the pool whose name is not [N]. *)
Lemma spawnPattern_avoids_repeat (params : PatternParams)
  (ps : PatternSystem) (g : Rng) (N : string) :
  (3 <= length (patternHistory ps))%nat ->
  lastTwo (patternHistory ps) = [N; N] ->
  (exists q, In q (patterns ps) /\
             minAltitude q <= Rabs (spawnY params) / 10 /\ name q <> N) ->
  exists p,
    In p (patterns ps) /\
    minAltitude p <= Rabs (spawnY params) / 10 /\
    name p <> N /\
    last (patternHistory (snd (fst (spawnPattern params ps g))))
    = Some (name p).
Proof.
  intros Hlen Htwo (q & Hq & Hqa & HqN).
  unfold spawnPattern.
  set (pool := List.filter _ (patterns ps)).
  assert (Hqp : In q pool) by (apply available_In; auto).
  destruct pool as [|p0 pool'] eqn:Hpool; [destruct Hqp|].
  rewrite <- Hpool in *. clear Hpool p0 pool'.
  assert (Hne : pool <> []) by (intros E; rewrite E in Hqp; destruct Hqp).
  unfold bind at 1.
  destruct (selectWeightedPattern_In pool g Hne) as (p & Hsel & Hp).
  destruct (selectWeightedPattern pool g) as [sel g1]. simpl in Hsel.
  subst sel.
  apply Nat.leb_le in Hlen. rewrite Hlen, Htwo. cbn [forallb andb].
  destruct (String.eqb N (name p)) eqn:HN; cbn [andb].
  - apply String.eqb_eq in HN. subst N.
    set (alts := List.filter _ pool).
    assert (Hqa' : In q alts).
    { apply filter_In. split; [exact Hqp|].
      apply negb_true_iff, String.eqb_neq, HqN. }
    destruct alts as [|a0 alts'] eqn:Halts; [destruct Hqa'|].
    rewrite <- Halts in *. clear Halts a0 alts'.
    assert (Hne' : alts <> []) by (intros E; rewrite E in Hqa'; destruct Hqa').
    unfold bind at 1.
    destruct (selectWeightedPattern_In alts g1 Hne') as (a & Hsel & Ha).
    destruct (selectWeightedPattern alts g1) as [sel g2]. simpl in Hsel.
    subst sel. apply filter_In in Ha. destruct Ha as [Hap Han].
    apply negb_true_iff, String.eqb_neq in Han.
    apply available_In in Hap. destruct Hap as [Hap1 Hap2].
    exists a. repeat split; try assumption.
    apply executePattern_history.
  - apply String.eqb_neq in HN.
    apply available_In in Hp. destruct Hp as [Hp1 Hp2].
    exists p. repeat split; try assumption; [congruence|].
    apply executePattern_history.
Qed.

End Selection.

(** ** The calm run *)

(** A block of the column x = 50 is far from any body of radius at most 42
    whose centre is right of x = 900. *)
Lemma calm_no_collision (c : GameObject) (o : Obstacle) :
  calmObstacle o -> 900 <= x (position c) -> 0 <= radius c <= 42 ->
  CollisionSystem.checkCollision c o = None.
Proof.
  intros (Ht & Hx & _ & Hw & Hh & _) Hc Hr.
  unfold CollisionSystem.checkCollision, CollisionSystem.isRectangular.
  rewrite Ht, Hw, Hh. cbn [String.eqb Ascii.eqb Bool.eqb orb].
  unfold CollisionSystem.circleVsAABB. rewrite Hx.
  rewrite (Rmin_right (x (position c)) (50 - 40 / 2 + 40)) by lra.
  rewrite (Rmax_right (50 - 40 / 2) (50 - 40 / 2 + 40)) by lra.
  set (cy := Rmax _ _).
  destruct (Rle_dec _ _) as [Hle|_]; [exfalso | reflexivity].
  set (dx := x (position c) - (50 - 40 / 2 + 40)) in Hle.
  set (dy := y (position c) - cy) in Hle.
  assert (Hdx : 830 <= dx) by (unfold dx; lra).
  assert (H1 : 830 * 830 <= dx * dx) by nra.
  assert (H2 : 0 <= dy * dy) by nra.
  assert (H3 : radius c * radius c <= 42 * 42) by nra.
  lra.
Qed.

Lemma shieldPass_no_contact (e : GameEngine) (os : list Obstacle) (g : Rng) :
  Forall (fun o => CollisionSystem.checkCollision (shieldObject (shield e)) o
                   = None) os ->
  GameEngine.shieldPass e os g = (os, false, g).
Proof.
  intros H. revert g.
  induction H as [|o os Ho _ IH]; intros g; cbn [GameEngine.shieldPass].
  - reflexivity.
  - unfold bind, ret in *. rewrite Ho.
    destruct (active o); rewrite IH; reflexivity.
Qed.

Lemma balloonHit_no_contact (e : GameEngine) :
  Forall (fun o => CollisionSystem.checkCollision (balloonObject (balloon e))
                     o = None) (obstacles e) ->
  GameEngine.balloonHit e = false.
Proof.
  unfold GameEngine.balloonHit.
  induction 1 as [|o os Ho _ IH]; cbn [existsb].
  - reflexivity.
  - rewrite Ho, IH. destruct (active o); reflexivity.
Qed.

(** With no obstacle on the balloon or on the shield, [checkCollisions]
    changes nothing. *)
Lemma checkCollisions_no_contact (e : GameEngine) :
  Forall (fun o => CollisionSystem.checkCollision (balloonObject (balloon e))
                     o = None) (obstacles e) ->
  Forall (fun o => CollisionSystem.checkCollision (shieldObject (shield e)) o
                   = None) (obstacles e) ->
  GameEngine.checkCollisions e = e.
Proof.
  intros Hb Hs. unfold GameEngine.checkCollisions.
  rewrite (balloonHit_no_contact e Hb), (shieldPass_no_contact e _ _ Hs).
  destruct e; reflexivity.
Qed.

(** A block of the column stays in the column: the shield, at x = 960, is
    too far to pull it. *)
Lemma updateObstacle_calm (dt : R) (e : GameEngine) (o : Obstacle) :
  x (position (shieldObject (shield e))) = 960 ->
  calmObstacle o -> calmObstacle (GameEngine.updateObstacle dt e o).
Proof.
  intros Hs (Ht & Hx & Hv & Hw & Hh & Ha).
  assert (Hg : GameEngine.applyGravity dt e o = o).
  { unfold GameEngine.applyGravity.
    destruct (negb _ && _); [|reflexivity].
    rewrite Hs, Hx. set (dy := y _ - y _).
    assert (Hd : 910 <= sqrt ((960 - 50) * (960 - 50) + dy * dy)).
    { rewrite <- (sqrt_square 910) at 1 by lra.
      apply sqrt_le_1; nra. }
    unfold Rltb at 2. destruct (Rlt_dec _ 200) as [Hlt|_]; [exfalso; lra|].
    rewrite andb_false_r. reflexivity. }
  unfold GameEngine.updateObstacle. rewrite Hg.
  unfold calmObstacle.
  repeat match goal with
  | |- context [match ?c with _ => _ end] => destruct c
  end; cbn; rewrite ?Hx, ?Hv; repeat split; try assumption; lra.
Qed.

Lemma updateObstacles_calm (dt : R) (e : GameEngine) :
  x (position (shieldObject (shield e))) = 960 ->
  Forall calmObstacle (obstacles e) ->
  Forall calmObstacle (obstacles (GameEngine.updateObstacles dt e)).
Proof.
  intros Hs Ho. unfold GameEngine.updateObstacles.
  cbn [obstacles with_obstacles]. apply List.Forall_forall.
  intros o Hin. apply in_map_iff in Hin. destruct Hin as (o0 & <- & Hin0).
  apply updateObstacle_calm; [exact Hs|].
  eapply List.Forall_forall in Ho; eauto.
Qed.

Section CalmSpawning.

Import PatternSystem.

Lemma forEachIndex_Forall (P : Obstacle -> Prop) (inv : Rng -> Prop)
  (count i : nat) (body : nat -> Rand (list Obstacle)) (g : Rng) :
  (forall j g, inv g ->
     exists os g', body j g = (os, g') /\ Forall P os /\ inv g') ->
  inv g ->
  exists os g',
    forEachIndex count i body g = (os, g') /\ Forall P os /\ inv g'.
Proof.
  intros Hb. revert i g. induction count as [|count IH]; intros i g Hg.
  - exists [], g. repeat split; [constructor | exact Hg].
  - cbn [forEachIndex]. unfold bind, ret.
    destruct (Hb i g Hg) as (os & g1 & -> & H1 & H2).
    destruct (IH (S i) g1 H2) as (rest & g2 & -> & H3 & H4).
    exists (os ++ rest), g2.
    repeat split; [apply Forall_app; split; assumption | exact H4].
Qed.

(** With every draw 0 the first try of [spawnBlockRain] is x = 50, left of
    the safe zone, and is kept. *)
Lemma pickBlockX_zero (retries : nat) (lo hi : R) (g : Rng) :
  oracle g = (fun _ => 0) -> 50 <= lo ->
  fst (pickBlockX retries lo hi g) = 50 /\
  oracle (snd (pickBlockX retries lo hi g)) = (fun _ => 0).
Proof.
  intros Hg Hlo.
  assert (Hx : oracle g (drawn g) * (800 - 100) + 50 = 50)
    by (rewrite Hg; lra).
  destruct retries as [|n]; cbn [pickBlockX];
    unfold bind, ret, Math_random; rewrite Hx.
  - split; [reflexivity | exact Hg].
  - assert (Hl : Rltb lo 50 = false).
    { unfold Rltb. destruct (Rlt_dec lo 50); [exfalso; lra | reflexivity]. }
    rewrite Hl. cbn [andb]. split; [reflexivity | exact Hg].
Qed.

Lemma spawnBlockRain_calm (params : PatternParams) (g : Rng) :
  oracle g = (fun _ => 0) ->
  centerX params = 960 -> shieldRadius params = 42 ->
  exists os g',
    spawnBlockRain params g = (os, g') /\
    Forall calmObstacle os /\ oracle g' = (fun _ => 0).
Proof.
  intros Hg Hc Hr. unfold spawnBlockRain. rewrite Hc, Hr.
  apply (forEachIndex_Forall calmObstacle
           (fun g => oracle g = (fun _ => 0))); [|exact Hg].
  intros j g0 Hg0. unfold bind, ret.
  destruct (pickBlockX_zero 9 (960 - (42 * 2.4 + 20) / 2 - 40)
              (960 - (42 * 2.4 + 20) / 2 + (42 * 2.4 + 20) + 40) g0 Hg0)
    as [Hx Ho]; [lra|].
  destruct (pickBlockX 9 _ _ g0) as [x0 g1].
  cbn [fst snd] in Hx, Ho. subst x0.
  unfold Math_random. eexists. eexists. split; [reflexivity|].
  split; [|exact Ho].
  constructor; [|constructor].
  unfold calmObstacle. cbn. repeat split; reflexivity.
Qed.

Lemma Rabs_minus_100 : Rabs (-100) / 10 = 10.
Proof. unfold Rabs. destruct (Rcase_abs _); lra. Qed.

(** At spawn depth 100 block rain is the only pattern unlocked. *)
Lemma pool_at_depth_100 (params : PatternParams) :
  spawnY params = -100 ->
  List.filter (fun p => Rleb (minAltitude p) (Rabs (spawnY params) / 10))
    initializePatterns
  = [mkPattern "blockRain" 3 0 spawnBlockRain].
Proof.
  intros ->. rewrite Rabs_minus_100.
  unfold initializePatterns, Rleb. cbn [List.filter minAltitude].
  decide_reals. reflexivity.
Qed.

Lemma spawnPattern_calm (params : PatternParams) (ps : PatternSystem)
  (g : Rng) :
  oracle g = (fun _ => 0) ->
  patterns ps = initializePatterns ->
  spawnY params = -100 -> centerX params = 960 -> shieldRadius params = 42 ->
  let r := spawnPattern params ps g in
  Forall calmObstacle (fst (fst r)) /\
  patterns (snd (fst r)) = initializePatterns /\
  oracle (snd r) = (fun _ => 0).
Proof.
  intros Hg Hp Hy Hc Hr r.
  set (p := mkPattern "blockRain" 3 0 spawnBlockRain).
  set (g1 := mkRng (fun _ => 0) (S (drawn g))).
  assert (Heq : r = executePattern p params ps g1).
  { subst r. unfold spawnPattern.
    rewrite Hp, (pool_at_depth_100 params Hy).
    unfold bind at 1. unfold selectWeightedPattern at 1.
    unfold bind at 1. unfold Math_random at 1. rewrite Hg.
    cbn [pickByWeight weight fold_left].
    destruct (Rle_dec _ _) as [_|Hn]; [|exfalso; apply Hn; lra].
    unfold ret at 1. cbn [List.filter name String.eqb Ascii.eqb Bool.eqb negb].
    destruct (_ && _); reflexivity. }
  rewrite Heq. unfold executePattern, bind, ret. cbn [spawn p].
  destruct (spawnBlockRain_calm params g1 eq_refl Hc Hr)
    as (os & g2 & -> & Ho & Hg2).
  cbn [fst snd patterns]. auto.
Qed.

Lemma update_calm (dt : R) (params : PatternParams) (ps : PatternSystem)
  (g : Rng) :
  oracle g = (fun _ => 0) ->
  patterns ps = initializePatterns ->
  spawnY params = -100 -> centerX params = 960 -> shieldRadius params = 42 ->
  let r := update dt params ps g in
  Forall calmObstacle (fst (fst r)) /\
  patterns (snd (fst r)) = initializePatterns /\
  oracle (snd r) = (fun _ => 0).
Proof.
  intros Hg Hp Hy Hc Hr. unfold update.
  destruct (Rle_dec _ _).
  - apply spawnPattern_calm; assumption.
  - simpl. auto.
Qed.

End CalmSpawning.

Lemma updateSpawning_calm (dt : R) (e : GameEngine) :
  cameraY e = 0 -> canvasWidth e = 1920 ->
  radius (shieldObject (shield e)) = 42 ->
  patterns (patternSystem e) = PatternSystem.initializePatterns ->
  oracle (rng e) = (fun _ => 0) ->
  Forall calmObstacle (obstacles e) ->
  let e' := GameEngine.updateSpawning dt e in
  Forall calmObstacle (obstacles e') /\
  patterns (patternSystem e') = PatternSystem.initializePatterns /\
  oracle (rng e') = (fun _ => 0).
Proof.
  intros Hc Hw Hr Hp Hg Ho e'. subst e'. unfold GameEngine.updateSpawning.
  set (params := mkPatternParams _ _ _ _ _).
  assert (H : let r := PatternSystem.update dt params (patternSystem e) (rng e)
              in Forall calmObstacle (fst (fst r)) /\
                 patterns (snd (fst r)) = PatternSystem.initializePatterns /\
                 oracle (snd r) = (fun _ => 0)).
  { apply update_calm; [exact Hg | exact Hp | | | exact Hr];
      subst params; cbn [spawnY centerX]; [rewrite Hc | rewrite Hw]; lra. }
  destruct (PatternSystem.update dt params (patternSystem e) (rng e))
    as [[os ps] g]. simpl in H. destruct H as (H1 & H2 & H3).
  cbn [obstacles patternSystem rng with_rng with_patternSystem with_obstacles].
  split; [apply Forall_app; split; assumption | split; assumption].
Qed.

(** ** The shield and the camera over a tick *)

Lemma checkCollisions_shieldObject (e : GameEngine) :
  shieldObject (shield (GameEngine.checkCollisions e))
  = shieldObject (shield e).
Proof.
  unfold GameEngine.checkCollisions.
  destruct (GameEngine.balloonHit e); [reflexivity|].
  destruct (GameEngine.shieldPass e (obstacles e) (rng e)) as [[os hit] g].
  destruct hit; reflexivity.
Qed.

Lemma checkCollisions_targetPosition (e : GameEngine) :
  targetPosition (shield (GameEngine.checkCollisions e))
  = targetPosition (shield e).
Proof.
  unfold GameEngine.checkCollisions.
  destruct (GameEngine.balloonHit e); [reflexivity|].
  destruct (GameEngine.shieldPass e (obstacles e) (rng e)) as [[os hit] g].
  destruct hit; reflexivity.
Qed.

Lemma checkCollisions_lerpFactor (e : GameEngine) :
  lerpFactor (shield (GameEngine.checkCollisions e)) = lerpFactor (shield e).
Proof.
  unfold GameEngine.checkCollisions.
  destruct (GameEngine.balloonHit e); [reflexivity|].
  destruct (GameEngine.shieldPass e (obstacles e) (rng e)) as [[os hit] g].
  destruct hit; reflexivity.
Qed.

Lemma updatePhysics_unfold (dt : R) (e : GameEngine) :
  GameEngine.updatePhysics dt e
  = let e8 := GameEngine.checkCollisions (beforeCollisions dt e) in
    let altitudeScore :=
      Rmax 0
        ((canvasHeight e8 - y (position (balloonObject (balloon e8)))) / 10) in
    let e9 :=
      GameEngine.notify (ScoreChange altitudeScore)
        (with_score altitudeScore e8) in
    with_obstacles (List.filter active (obstacles e9)) e9.
Proof. reflexivity. Qed.

(** The shield after a tick: the target that [updateInput] set, and the
    position one smoothing step toward it. *)
Lemma updatePhysics_shield (dt : R) (e : GameEngine) :
  let s := shield (afterInput dt e) in
  let s' := shield (GameEngine.updatePhysics dt e) in
  targetPosition s' = targetPosition s /\
  lerpFactor s' = lerpFactor (shield e) /\
  radius (shieldObject s') = radius (shieldObject (shield e)) /\
  x (position (shieldObject s'))
  = x (position (shieldObject (shield e)))
    + (x (targetPosition s) - x (position (shieldObject (shield e))))
      * lerpFactor (shield e) /\
  y (position (shieldObject s'))
  = y (position (shieldObject (shield e)))
    + (y (targetPosition s) - y (position (shieldObject (shield e))))
      * lerpFactor (shield e).
Proof.
  intros s s'. subst s s'. rewrite updatePhysics_unfold. cbv zeta.
  cbn [shield with_obstacles GameEngine.notify with_notifications with_score].
  rewrite checkCollisions_targetPosition, checkCollisions_lerpFactor,
    checkCollisions_shieldObject.
  unfold beforeCollisions. autorewrite with engine.
  fold (afterInput dt e).
  assert (Hs : shieldObject (shield (afterInput dt e))
               = shieldObject (shield e)).
  { unfold afterInput, GameEngine.updateInput.
    destruct (negb _); reflexivity. }
  assert (Hl : lerpFactor (shield (afterInput dt e)) = lerpFactor (shield e)).
  { unfold afterInput, GameEngine.updateInput.
    destruct (negb _); reflexivity. }
  unfold GameEngine.updateShield.
  cbn [shield with_shield targetPosition lerpFactor shieldObject position
       set_velocity set_position radius x y].
  autorewrite with engine. rewrite Hs, Hl. repeat split; reflexivity.
Qed.

(** The camera after a tick. *)
Lemma updatePhysics_cameraY (dt : R) (e : GameEngine) :
  cameraY (GameEngine.updatePhysics dt e)
  = let targetCameraY :=
      balloonY (GameEngine.updatePhysics dt e) - canvasHeight e + 300 in
    if Rlt_dec targetCameraY (cameraY e - GameEngine.CAMERA_DEAD_ZONE)
    then targetCameraY + GameEngine.CAMERA_DEAD_ZONE
    else cameraY e.
Proof.
  cbv zeta. unfold balloonY. rewrite updatePhysics_balloon.
  rewrite updatePhysics_unfold. cbv zeta.
  cbn [cameraY with_obstacles GameEngine.notify with_notifications with_score].
  rewrite checkCollisions_cameraY. unfold beforeCollisions.
  unfold GameEngine.updateCamera at 1. autorewrite with engine.
  assert (Hb : balloon (GameEngine.updateBalloon dt
                          (GameEngine.updateInput dt
                             (with_gameTime (gameTime e + dt) e)))
               = balloon (GameEngine.updateBalloon dt
                            (with_gameTime (gameTime e + dt) e))).
  { unfold GameEngine.updateBalloon. cbn [balloon with_balloon].
    autorewrite with engine. reflexivity. }
  rewrite Hb. cbn [canvasHeight cameraY with_gameTime].
  destruct (Rlt_dec _ _); cbn [cameraY with_cameraY];
    autorewrite with engine; reflexivity.
Qed.

Lemma afterInput_target (dt : R) (e : GameEngine) :
  gameState e = playing ->
  targetPosition (shield (afterInput dt e))
  = GameEngine.clampTarget e (GameEngine.rawTarget dt e).
Proof.
  intros Hp. unfold afterInput, GameEngine.updateInput.
  cbn [gameState with_gameTime]. rewrite Hp. reflexivity.
Qed.

Lemma radiusOfSize_bounds (size : ShieldSize) :
  36 <= GameEngine.radiusOfSize size <= 48.
Proof. destruct size; simpl; lra. Qed.

Lemma shieldSettled_reachable (w h : R) (random : nat -> R)
  (e : GameEngine) :
  reachable w h random e -> shieldSettled w h e.
Proof.
  intros H.
  refine (steps_invariant _ (shieldSettled w h) _ _ _ _ _ H _).
  - intros e1 i He1 _ Hf. destruct i; try discriminate; cbn [exec];
      try (unfold GameEngine.pauseGame; destruct (isPlaying _));
      try (unfold GameEngine.resumeGame; destruct (isPaused _));
      first
        [ exact He1
        | destruct He1 as (H1 & H2 & H3 & H4);
          split; [exact H1|]; split; [exact H2|]; split; [exact H3|];
          first [exact H4 | reflexivity] ].
  - intros e1 t a He1. exact He1.
  - intros e1 (H1 & H2 & H3 & H4) _.
    destruct (updatePhysics_shield GameEngine.physicsStep e1)
      as (_ & Hl & Hr & _).
    unfold shieldSettled, GameEngine.getShieldRadius.
    autorewrite with engine. rewrite Hl, Hr. repeat split; assumption.
  - repeat split; reflexivity.
Qed.

Lemma clamp_between (lo hi t : R) :
  lo <= hi -> lo <= Rmax lo (Rmin hi t) <= hi.
Proof.
  intros H. split; [apply Rmax_l|].
  apply Rmax_lub; [exact H | apply Rmin_l].
Qed.







(** ** Keyboard and pointer *)

Lemma keyboardDelta_nonzero (dt : R) (e : GameEngine) :
  dt <> 0 -> netDirection e = true ->
  negb (Reqb (x (GameEngine.keyboardDelta dt e)) 0)
  || negb (Reqb (y (GameEngine.keyboardDelta dt e)) 0) = true.
Proof.
  intros Hdt. unfold netDirection, GameEngine.keyboardDelta.
  cbn [x y]. unfold GameEngine.keyboardSpeed, Reqb.
  destruct (GameEngine.held "KeyW" e), (GameEngine.held "KeyS" e),
    (GameEngine.held "KeyA" e), (GameEngine.held "KeyD" e);
    cbn [xorb orb]; intros H; try discriminate H;
    repeat match goal with
    | |- context [Req_dec_T ?a ?b] =>
        destruct (Req_dec_T a b) as [?|?];
        [try (exfalso; apply Hdt; lra)|]
    end; reflexivity.
Qed.

Lemma rawTarget_keyboard (dt : R) (e : GameEngine) :
  dt <> 0 -> netDirection e = true ->
  GameEngine.rawTarget dt e
  = mkVector2
      (x (position (shieldObject (shield e)))
       + x (GameEngine.keyboardDelta dt e))
      (y (position (shieldObject (shield e)))
       + y (GameEngine.keyboardDelta dt e)).
Proof.
  intros Hdt Hk. unfold GameEngine.rawTarget.
  rewrite (keyboardDelta_nonzero dt e Hdt Hk). reflexivity.
Qed.

Lemma updatePhysics_target (dt : R) (e : GameEngine) :
  gameState e = playing ->
  targetPosition (shield (GameEngine.updatePhysics dt e))
  = GameEngine.clampTarget e (GameEngine.rawTarget dt e).
Proof.
  intros Hp. destruct (updatePhysics_shield dt e) as (Ht & _).
  rewrite Ht. apply afterInput_target, Hp.
Qed.

(** C5, as amended.  In a tick of a playing engine in which the held
    directional keys do not cancel out, the target of the shield is its
    position plus the keyboard delta, clamped to the screen bounds, and it
    is the same wherever the pointer is. *)
Theorem keyboard_overrides_pointer (dt : R) (e : GameEngine) :
  gameState e = playing -> dt <> 0 -> netDirection e = true ->
  let pos := position (shieldObject (shield e)) in
  let delta := GameEngine.keyboardDelta dt e in
  let t :=
    GameEngine.clampTarget e
      (mkVector2 (x pos + x delta) (y pos + y delta)) in
  targetPosition (shield (GameEngine.updatePhysics dt e)) = t /\
  forall m wm,
    targetPosition (shield (GameEngine.updatePhysics dt (withPointer m wm e)))
    = t.
Proof.
  intros Hp Hdt Hk pos delta t. subst pos delta t. split.
  - rewrite (updatePhysics_target dt e Hp), (rawTarget_keyboard dt e Hdt Hk).
    reflexivity.
  - intros m wm.
    rewrite (updatePhysics_target dt (withPointer m wm e) Hp).
    rewrite (rawTarget_keyboard dt (withPointer m wm e) Hdt Hk).
    reflexivity.
Qed.

(** The held keys: [keydown] adds a code, [keyup] removes it, and no key is
    held in a new engine. *)
Lemma held_keydown_same (k : string) (e : GameEngine) :
  GameEngine.held k (GameEngine.keydown k e) = true.
Proof.
  unfold GameEngine.held, GameEngine.keydown. cbn [keys with_keys].
  apply bool_decide_eq_true. apply elem_of_union. left.
  apply elem_of_singleton. reflexivity.
Qed.

Lemma held_keydown_other (k k' : string) (e : GameEngine) :
  k <> k' ->
  GameEngine.held k (GameEngine.keydown k' e) = GameEngine.held k e.
Proof.
  intros Hk. unfold GameEngine.held, GameEngine.keydown.
  cbn [keys with_keys]. apply bool_decide_ext.
  rewrite elem_of_union, elem_of_singleton. tauto.
Qed.

Lemma held_keyup_same (k : string) (e : GameEngine) :
  GameEngine.held k (GameEngine.keyup k e) = false.
Proof.
  unfold GameEngine.held, GameEngine.keyup. cbn [keys with_keys].
  apply bool_decide_eq_false.
  rewrite elem_of_difference, elem_of_singleton. tauto.
Qed.

Lemma held_keyup_other (k k' : string) (e : GameEngine) :
  k <> k' ->
  GameEngine.held k (GameEngine.keyup k' e) = GameEngine.held k e.
Proof.
  intros Hk. unfold GameEngine.held, GameEngine.keyup.
  cbn [keys with_keys]. apply bool_decide_ext.
  rewrite elem_of_difference, elem_of_singleton. tauto.
Qed.

Lemma held_none (k : string) (e : GameEngine) :
  keys e = ∅ -> GameEngine.held k e = false.
Proof.
  intros He. unfold GameEngine.held. rewrite He.
  apply bool_decide_eq_false. apply not_elem_of_empty.
Qed.

Lemma keyboard_overrides_pointer_witness :
  let e :=
    GameEngine.keydown "KeyD"
      (GameEngine.startGame (GameEngine.new 1920 1080 (fun _ => 0))) in
  let dt := GameEngine.physicsStep in
  let pos := position (shieldObject (shield e)) in
  let delta := GameEngine.keyboardDelta dt e in
  targetPosition (shield (GameEngine.updatePhysics dt e))
  = GameEngine.clampTarget e (mkVector2 (x pos + x delta) (y pos + y delta)).
Proof.
  intros e dt pos delta.
  refine (proj1 (keyboard_overrides_pointer dt e eq_refl _ _)).
  - unfold dt, GameEngine.physicsStep. lra.
  - unfold netDirection, e.
    rewrite held_keydown_same.
    rewrite !held_keydown_other by discriminate.
    rewrite !held_none by reflexivity. reflexivity.
Defined.

(** ** One tick of the calm run *)

(** The pointer parked at the bottom centre: the target is the bottom
    centre of the band. *)
Lemma calm_target (n : nat) (dt : R) (e : GameEngine) :
  Calm n e ->
  targetPosition (shield (afterInput dt e)) = mkVector2 (960 * 1) 1038.
Proof.
  intros C. rewrite (afterInput_target dt e (calm_state n e C)).
  unfold GameEngine.rawTarget, GameEngine.keyboardDelta.
  rewrite !(held_none _ e (calm_keys n e C)). cbn [x y].
  unfold Reqb. destruct (Req_dec_T 0 0) as [_|Hn]; [|congruence].
  cbn [negb orb]. unfold GameEngine.clampTarget.
  rewrite (calm_mouse n e C), (calm_sens n e C), (calm_sr n e C),
    (calm_width n e C), (calm_height n e C), (calm_camera n e C).
  cbn [x y]. f_equal.
  - rewrite Rmin_right by lra. apply Rmax_right. lra.
  - rewrite Rmin_left by lra. rewrite Rmax_right by lra. lra.
Qed.

Lemma drift_bounds (a b : R) : -15 <= sin a * 10 + sin b * 5 <= 15.
Proof.
  pose proof (SIN_bound a). pose proof (SIN_bound b). lra.
Qed.

(** The balloon of the calm run after one more tick. *)
Lemma calm_balloon (n : nat) (e : GameEngine) :
  Calm n e -> (n < 2400)%nat ->
  let b := balloon (GameEngine.updatePhysics GameEngine.physicsStep e) in
  acceleration b = 4 /\
  y (velocity (balloonObject b)) = - (80 + INR (S n) / 30) /\
  y (position (balloonObject b))
  = 980 - 2 * INR (S n) / 3 - INR (S n) * (INR (S n) + 1) / 7200 /\
  945 <= x (position (balloonObject b)) <= 975 /\
  radius (balloonObject b) = 22.
Proof.
  intros C Hn b. subst b. rewrite updatePhysics_balloon.
  set (e1 := with_gameTime _ e).
  assert (Hv : balloonVy (GameEngine.updateBalloon GameEngine.physicsStep e1)
               = - (80 + INR (S n) / 30)).
  { rewrite updateBalloon_velocity.
    change (acceleration (balloon e1)) with (acceleration (balloon e)).
    change (balloonVy e1) with (balloonVy e).
    change (gameTime e1) with (gameTime e + GameEngine.physicsStep).
    rewrite (calm_accel n e C), (calm_vy n e C), (calm_time n e C).
    unfold GameEngine.BALLOON_MAX_VELOCITY, GameEngine.BALLOON_BASE_VELOCITY,
      GameEngine.physicsStep.
    rewrite S_INR.
    assert (H0 : 0 <= INR n) by apply pos_INR.
    assert (H1 : INR n < 2400) by (rewrite <- INR_2400; apply lt_INR, Hn).
    rewrite Rabs_Ropp, Rabs_pos_eq by lra.
    destruct (Rlt_dec _ _) as [_|Hge]; [lra|].
    exfalso. apply Hge. apply Rmin_glb_lt; lra. }
  assert (Hy : balloonY (GameEngine.updateBalloon GameEngine.physicsStep e1)
               = 980 - 2 * INR (S n) / 3
                 - INR (S n) * (INR (S n) + 1) / 7200).
  { rewrite updateBalloon_height, Hv.
    change (balloonY e1) with (balloonY e). rewrite (calm_by n e C).
    unfold GameEngine.physicsStep. rewrite S_INR. field. }
  split; [exact (calm_accel n e C)|]. split; [exact Hv|].
  split; [exact Hy|].
  unfold GameEngine.updateBalloon.
  cbn [balloon with_balloon balloonObject position set_position x radius
       set_velocity].
  change (canvasWidth e1) with (canvasWidth e).
  rewrite (calm_width n e C). split; [|exact (calm_br n e C)].
  set (a := driftOffset _ + _).
  pose proof (drift_bounds a (a * 2.3)). lra.
Qed.

Lemma updatePhysics_shieldObject (dt : R) (e : GameEngine) :
  shieldObject (shield (GameEngine.updatePhysics dt e))
  = shieldObject (shield (beforeCollisions dt e)).
Proof.
  rewrite updatePhysics_unfold. cbv zeta.
  cbn [shield with_obstacles GameEngine.notify with_notifications with_score].
  apply checkCollisions_shieldObject.
Qed.

Lemma beforeCollisions_balloon (dt : R) (e : GameEngine) :
  balloon (beforeCollisions dt e) = balloon (GameEngine.updatePhysics dt e).
Proof.
  unfold beforeCollisions. autorewrite with engine.
  apply (afterBalloon_final dt e).
Qed.

(** The shield of the calm run after one more tick. *)
Lemma calm_shield (n : nat) (e : GameEngine) :
  Calm n e ->
  let s := shield (GameEngine.updatePhysics GameEngine.physicsStep e) in
  x (position (shieldObject s)) = 960 /\
  y (position (shieldObject s)) = 1038 - 108 * 0.72 ^ S n /\
  radius (shieldObject s) = 42 /\
  lerpFactor s = 0.28.
Proof.
  intros C s. subst s.
  destruct (updatePhysics_shield GameEngine.physicsStep e)
    as (_ & Hl & Hr & Hx & Hy).
  rewrite (calm_target n _ e C) in Hx, Hy. cbn [x y] in Hx, Hy.
  rewrite (calm_lerp n e C) in Hl, Hx, Hy.
  rewrite (calm_sx n e C) in Hx. rewrite (calm_sy n e C) in Hy.
  rewrite (calm_sr n e C) in Hr.
  rewrite Hx, Hy, Hl, Hr. cbn [pow]. repeat split; lra.
Qed.

(** In the calm run no obstacle touches the balloon or the shield, and
    [checkCollisions] changes nothing. *)
Lemma calm_beforeCollisions (n : nat) (e : GameEngine) :
  Calm n e -> (n < 2400)%nat ->
  let e7 := beforeCollisions GameEngine.physicsStep e in
  GameEngine.checkCollisions e7 = e7 /\
  Forall calmObstacle (obstacles e7) /\
  patterns (patternSystem e7) = PatternSystem.initializePatterns /\
  oracle (rng e7) = (fun _ => 0).
Proof.
  intros C Hn e7.
  set (dt := GameEngine.physicsStep) in *.
  destruct (calm_shield n e C) as (Hsx & _ & Hsr & _).
  destruct (calm_balloon n e C Hn) as (_ & _ & _ & Hbx & Hbr).
  fold dt in Hsx, Hsr, Hbx, Hbr.
  rewrite updatePhysics_shieldObject in Hsx, Hsr.
  rewrite <- beforeCollisions_balloon in Hbx, Hbr.
  fold e7 in Hsx, Hsr, Hbx, Hbr.
  set (e4 := GameEngine.updateShield dt
               (GameEngine.updateBalloon dt (afterInput dt e))).
  assert (H4 : shield e7 = shield e4).
  { subst e7 e4. unfold beforeCollisions. autorewrite with engine.
    reflexivity. }
  assert (Ho5 : Forall calmObstacle
                  (obstacles (GameEngine.updateObstacles dt e4))).
  { apply updateObstacles_calm.
    - rewrite <- H4. exact Hsx.
    - subst e4. unfold afterInput. autorewrite with engine.
      exact (calm_obstacles n e C). }
  destruct (updateSpawning_calm dt (GameEngine.updateObstacles dt e4))
    as (Ho6 & Hp6 & Hg6); try exact Ho5.
  { subst e4. unfold afterInput. autorewrite with engine.
    exact (calm_camera n e C). }
  { subst e4. unfold afterInput. autorewrite with engine.
    exact (calm_width n e C). }
  { autorewrite with engine. rewrite <- H4. exact Hsr. }
  { subst e4. unfold afterInput. autorewrite with engine.
    exact (calm_patterns n e C). }
  { subst e4. unfold afterInput. autorewrite with engine.
    exact (calm_oracle n e C). }
  assert (Ho7 : obstacles e7
                = obstacles (GameEngine.updateSpawning dt
                               (GameEngine.updateObstacles dt e4))).
  { subst e7 e4. unfold beforeCollisions. autorewrite with engine.
    reflexivity. }
  assert (Hp7 : patternSystem e7
                = patternSystem (GameEngine.updateSpawning dt
                                   (GameEngine.updateObstacles dt e4))).
  { subst e7 e4. unfold beforeCollisions. autorewrite with engine.
    reflexivity. }
  assert (Hg7 : rng e7
                = rng (GameEngine.updateSpawning dt
                         (GameEngine.updateObstacles dt e4))).
  { subst e7 e4. unfold beforeCollisions. autorewrite with engine.
    reflexivity. }
  rewrite Ho7, Hp7, Hg7. split; [|auto].
  apply checkCollisions_no_contact; rewrite Ho7;
    eapply Forall_impl; try exact Ho6; intros o Hco;
    apply calm_no_collision; try exact Hco; lra.
Qed.

Lemma updatePhysics_after_collisions (dt : R) (e : GameEngine) :
  let e8 := GameEngine.checkCollisions (beforeCollisions dt e) in
  let e' := GameEngine.updatePhysics dt e in
  gameState e' = gameState e8 /\
  obstacles e' = List.filter active (obstacles e8) /\
  patternSystem e' = patternSystem e8 /\
  rng e' = rng e8.
Proof.
  cbv zeta. rewrite updatePhysics_unfold. cbv zeta. repeat split; reflexivity.
Qed.

Lemma Forall_filter_active (P : Obstacle -> Prop) (os : list Obstacle) :
  Forall P os -> Forall P (List.filter active os).
Proof.
  intros H. apply List.Forall_forall. intros o Ho.
  apply filter_In in Ho. destruct Ho as [Ho _].
  eapply List.Forall_forall in H; eauto.
Qed.

(** One tick of the calm run: everything but the camera is as the next
    state of the run has it; the camera follows the balloon once it is
    above height 680. *)
Lemma calm_tick (n : nat) (e : GameEngine) :
  Calm n e -> (n < 2400)%nat ->
  let e' := GameEngine.updatePhysics GameEngine.physicsStep e in
  Calm (S n) (with_cameraY 0 e') /\
  cameraY e'
  = (if Rlt_dec (balloonY e') 680 then balloonY e' - 680 else 0) /\
  accumulator e' = accumulator e /\
  lastTime e' = lastTime e.
Proof.
  intros C Hn e'.
  destruct (calm_balloon n e C Hn) as (Ba & Bv & By & Bx & Br).
  destruct (calm_shield n e C) as (Sx & Sy & Sr & Sl).
  destruct (calm_beforeCollisions n e C Hn) as (Hcc & Ho & Hp & Hg).
  destruct (updatePhysics_after_collisions GameEngine.physicsStep e)
    as (Es & Eo & Ep & Eg).
  rewrite Hcc in Es, Eo, Ep, Eg.
  fold e' in Ba, Bv, By, Bx, Br, Sx, Sy, Sr, Sl, Es, Eo, Ep, Eg.
  split; [|split; [|split]].
  - constructor; cbn [canvasWidth canvasHeight gameState gameTime cameraY
                      balloon shield obstacles keys worldMousePosition
                      settings patternSystem rng with_cameraY];
      unfold balloonVy, balloonY;
      cbn [canvasWidth canvasHeight gameState gameTime cameraY
           balloon shield obstacles keys worldMousePosition
           settings patternSystem rng with_cameraY];
      try assumption; try reflexivity.
    + subst e'. rewrite updatePhysics_canvasWidth. exact (calm_width n e C).
    + subst e'. rewrite updatePhysics_canvasHeight. exact (calm_height n e C).
    + rewrite Es. unfold beforeCollisions. autorewrite with engine.
      exact (calm_state n e C).
    + subst e'. rewrite updatePhysics_gameTime, (calm_time n e C), S_INR.
      unfold GameEngine.physicsStep. lra.
    + rewrite Eo. apply Forall_filter_active, Ho.
    + subst e'. rewrite updatePhysics_keys. exact (calm_keys n e C).
    + subst e'. rewrite updatePhysics_worldMousePosition.
      exact (calm_mouse n e C).
    + subst e'. rewrite updatePhysics_settings. exact (calm_sens n e C).
    + rewrite Ep. exact Hp.
    + rewrite Eg. exact Hg.
  - subst e'. rewrite updatePhysics_cameraY. cbv zeta.
    rewrite (calm_height n e C), (calm_camera n e C).
    unfold GameEngine.CAMERA_DEAD_ZONE.
    destruct (Rlt_dec _ _), (Rlt_dec _ 680); lra.
  - subst e'. apply updatePhysics_accumulator.
  - subst e'. apply updatePhysics_lastTime.
Qed.

(** ** The frames of the calm run *)

Lemma physicsLoop_idle (fuel : nat) (e : GameEngine) :
  accumulator e < GameEngine.physicsStep ->
  GameEngine.physicsLoop fuel e = e.
Proof.
  intros H. destruct fuel as [|fuel]; cbn [GameEngine.physicsLoop].
  - reflexivity.
  - destruct (Rle_dec _ _); [lra | reflexivity].
Qed.

Lemma loopFuel_positive (a : R) :
  GameEngine.physicsStep <= a -> exists f, GameEngine.loopFuel a = S f.
Proof.
  intros H. unfold GameEngine.loopFuel.
  set (q := a / GameEngine.physicsStep).
  assert (Hq : 1 <= q).
  { unfold q, GameEngine.physicsStep in *.
    replace (a / (1 / 120)) with (a * 120) by field. lra. }
  destruct (archimed q) as [Hup _].
  assert (Hz : (1 < up q)%Z) by (apply lt_IZR; lra).
  exists (Nat.pred (Z.to_nat (up q))). lia.
Qed.

(** A frame that finds one step, and less than two, on the accumulator
    runs one tick while the game is playing. *)
Lemma gameLoop_single_tick (t : R) (e : GameEngine) :
  gameState e = playing ->
  let frameTime := Rmin ((t - lastTime e) / 1000) 0.25 in
  GameEngine.physicsStep <= accumulator e + frameTime
  < 2 * GameEngine.physicsStep ->
  GameEngine.gameLoop t e
  = let e1 :=
      GameEngine.updatePhysics GameEngine.physicsStep
        (with_accumulator (accumulator e + frameTime) (with_lastTime t e)) in
    with_accumulator (accumulator e1 - GameEngine.physicsStep) e1.
Proof.
  intros Hp frameTime [Hlo Hhi]. unfold GameEngine.gameLoop.
  fold frameTime. cbn [accumulator with_lastTime].
  set (e2 := with_accumulator _ _).
  destruct (loopFuel_positive (accumulator e2)) as [f ->]; [exact Hlo|].
  cbn [GameEngine.physicsLoop].
  destruct (Rle_dec _ _) as [_|Hn]; [|exfalso; apply Hn; exact Hlo].
  change (gameState e2) with (gameState e). rewrite Hp. cbn [isPlaying].
  apply physicsLoop_idle. cbn [accumulator with_accumulator].
  rewrite updatePhysics_accumulator. cbn [accumulator e2 with_accumulator].
  lra.
Qed.

(** A frame that finds less than one step runs no tick. *)
Lemma gameLoop_idle (t : R) (e : GameEngine) :
  let frameTime := Rmin ((t - lastTime e) / 1000) 0.25 in
  accumulator e + frameTime < GameEngine.physicsStep ->
  GameEngine.gameLoop t e
  = with_accumulator (accumulator e + frameTime) (with_lastTime t e).
Proof.
  intros frameTime H. unfold GameEngine.gameLoop. fold frameTime.
  apply physicsLoop_idle. exact H.
Qed.

Lemma calm_clock (n : nat) (e : GameEngine) (t a : R) :
  Calm n e -> Calm n (with_accumulator a (with_lastTime t e)).
Proof. intros C. destruct C. constructor; assumption. Qed.

Lemma with_cameraY_same (e : GameEngine) : with_cameraY (cameraY e) e = e.
Proof. destruct e; reflexivity. Qed.

(** The balloon of the calm run is at height 680 or below it through tick
    414, and above it at tick 415. *)
Lemma calm_height_low (m : R) :
  0 <= m <= 414 -> 680 <= 980 - 2 * m / 3 - m * (m + 1) / 7200.
Proof. intros H. nra. Qed.

Lemma calm_frame (n : nat) (e : GameEngine) :
  Calm n e -> CalmClock n e -> (S n <= 414)%nat ->
  let e' := GameEngine.gameLoop (INR (S n) * (25 / 3)) e in
  Calm (S n) e' /\ CalmClock (S n) e'.
Proof.
  intros C [Ha Hl] Hn e'.
  assert (Hft : Rmin ((INR (S n) * (25 / 3) - lastTime e) / 1000) 0.25
                = 1 / 120).
  { rewrite Hl, S_INR. rewrite Rmin_left; lra. }
  pose proof (gameLoop_single_tick (INR (S n) * (25 / 3)) e
                (calm_state n e C)) as He'.
  cbv zeta in He'. rewrite Hft, Ha in He'.
  specialize (He' ltac:(unfold GameEngine.physicsStep; lra)).
  fold e' in He'.
  set (e2 := with_accumulator (0 + 1 / 120) _) in He'.
  assert (C2 : Calm n e2) by (apply calm_clock, C).
  destruct (calm_tick n e2 C2) as (C' & Hcam & Hacc & Hlast); [lia|].
  set (e1 := GameEngine.updatePhysics GameEngine.physicsStep e2) in *.
  assert (Hy : 680 <= balloonY e1).
  { change (balloonY e1) with (balloonY (with_cameraY 0 e1)).
    rewrite (calm_by (S n) _ C'). apply calm_height_low.
    split; [apply pos_INR|].
    replace 414 with (INR 414)
      by (rewrite INR_IZR_INZ; apply f_equal; reflexivity).
    apply le_INR, Hn. }
  assert (Hc0 : cameraY e1 = 0)
    by (rewrite Hcam; destruct (Rlt_dec _ _); [lra | reflexivity]).
  rewrite <- Hc0, with_cameraY_same in C'.
  rewrite He'. split.
  - rewrite <- (with_lastTime_same e1). apply calm_clock, C'.
  - split; cbn [accumulator lastTime with_accumulator].
    + rewrite Hacc. cbn [accumulator e2 with_accumulator].
      unfold GameEngine.physicsStep. lra.
    + rewrite Hlast. reflexivity.
Qed.

Lemma run_app (l1 l2 : list Input) (e : GameEngine) :
  run (l1 ++ l2) e = run l2 (run l1 e).
Proof. apply fold_left_app. Qed.

Lemma start_idle (w h : R) (random : nat -> R) :
  GameEngine.start 0 0 (GameEngine.new w h random)
  = with_accumulator (0 + Rmin ((0 - 0) / 1000) 0.25)
      (with_lastTime 0 (with_lastTime 0 (GameEngine.new w h random))).
Proof.
  unfold GameEngine.start. rewrite gameLoop_idle; [reflexivity|].
  cbv zeta. cbn [accumulator lastTime with_lastTime GameEngine.new].
  rewrite Rmin_left by lra. unfold GameEngine.physicsStep. lra.
Qed.

Lemma calm_base : Calm 0 (calmState 0) /\ CalmClock 0 (calmState 0).
Proof.
  unfold calmState, calmInputs, run.
  cbn [app calmFrames fold_left exec]. rewrite start_idle.
  assert (Hm : Rmin ((0 - 0) / 1000) 0.25 = 0) by (rewrite Rmin_left; lra).
  split.
  - constructor; unfold balloonVy, balloonY; cbn;
      unfold GameEngine.BALLOON_BASE_VELOCITY, GameEngine.BALLOON_ACCELERATION,
        GameEngine.SHIELD_LERP_FACTOR;
      try reflexivity; try lra.
    + constructor.
    + apply vector_eq; cbn; field.
  - split; cbn; lra.
Qed.

(** The calm run through tick 414: the camera has not moved. *)
Lemma calm_run (n : nat) :
  (n <= 414)%nat -> Calm n (calmState n) /\ CalmClock n (calmState n).
Proof.
  induction n as [|n IH]; intros Hn.
  - exact calm_base.
  - destruct IH as [C K]; [lia|].
    unfold calmState, calmInputs in *. cbn [calmFrames].
    rewrite app_assoc, run_app. cbn [run fold_left exec].
    apply (calm_frame n _ C K Hn).
Qed.

Lemma calmState_reachable (n : nat) : reachable 1920 1080 (fun _ => 0)
                                        (calmState n).
Proof. apply run_reachable. Qed.






Lemma pow_072_12 : 0.72 ^ 12 < 0.02.
Proof. lra. Qed.





Lemma with_pointer_same (e : GameEngine) :
  withPointer (mousePosition e) (worldMousePosition e) e = e.
Proof. destruct e; reflexivity. Qed.

Lemma keyboardDelta_withPointer (dt : R) (m wm : Vector2) (e : GameEngine) :
  GameEngine.keyboardDelta dt (withPointer m wm e)
  = GameEngine.keyboardDelta dt e.
Proof. reflexivity. Qed.

Lemma clampTarget_withPointer (m wm u : Vector2) (e : GameEngine) :
  GameEngine.clampTarget (withPointer m wm e) u = GameEngine.clampTarget e u.
Proof. reflexivity. Qed.

(** The target of a tick when the keyboard delta is zero: the pointer,
    scaled and clamped. *)
Lemma rawTarget_pointer (dt : R) (e : GameEngine) :
  x (GameEngine.keyboardDelta dt e) = 0 ->
  y (GameEngine.keyboardDelta dt e) = 0 ->
  GameEngine.rawTarget dt e
  = mkVector2 (x (worldMousePosition e) * sensitivity (settings e))
              (y (worldMousePosition e) * sensitivity (settings e)).
Proof.
  intros Hx Hy. unfold GameEngine.rawTarget. rewrite Hx, Hy. unfold Reqb.
  destruct (Req_dec_T 0 0) as [_|Hn]; [reflexivity | congruence].
Qed.

(** The facts of a calm state that the keys do not touch. *)
Lemma calm_keydown (n : nat) (k : string) (e : GameEngine) :
  Calm n e ->
  let e' := GameEngine.keydown k e in
  gameState e' = playing /\
  radius (shieldObject (shield e')) = 42 /\
  cameraY e' = 0 /\
  canvasHeight e' = 1080 /\
  y (position (shieldObject (shield e'))) = 1038 - 108 * 0.72 ^ n /\
  worldMousePosition e' = mkVector2 960 1080 /\
  sensitivity (settings e') = 1 /\
  GameEngine.held k e' = true /\
  (forall k', k' <> k -> GameEngine.held k' e' = GameEngine.held k' e).
Proof.
  intros C e'. destruct C.
  repeat split; try assumption.
  - apply held_keydown_same.
  - intros k' Hk. apply held_keydown_other, Hk.
Qed.

(** C5 fails as stated, in two ways.  First tick of the calm run with W
    and S both held: the two cancel out, the target is the pointer (clamped
    to the band), not the shield position, and it moves with the pointer.
    Tick 13 of the calm run with S held: the shield is within 2.5 of the
    bottom of the band, and the target is the bottom of the band, short of
    the position plus the keyboard delta. *)
Lemma keyboard_overrides_pointer_counterexample :
  let dt := GameEngine.physicsStep in
  (let e := GameEngine.keydown "KeyS"
              (GameEngine.keydown "KeyW" (calmState 0)) in
   let t := targetPosition (shield (GameEngine.updatePhysics dt e)) in
   let t' :=
     targetPosition
       (shield (GameEngine.updatePhysics dt
                  (withPointer (mkVector2 100 100) (mkVector2 100 100) e))) in
   gameState e = playing /\
   GameEngine.held "KeyW" e = true /\ GameEngine.held "KeyS" e = true /\
   y (position (shieldObject (shield e)))
   + y (GameEngine.keyboardDelta dt e) = 930 /\
   y t = 1038 /\ y t' = 100) /\
  (let e := GameEngine.keydown "KeyS" (calmState 12) in
   let t := targetPosition (shield (GameEngine.updatePhysics dt e)) in
   gameState e = playing /\
   GameEngine.held "KeyS" e = true /\
   y t = 1038 /\
   1038 < y (position (shieldObject (shield e)))
          + y (GameEngine.keyboardDelta dt e)).
Proof.
  intros dt. assert (Hdt : dt = 1 / 120) by reflexivity. clearbody dt.
  split.
  - destruct (calm_run 0) as [C _]; [lia|].
    generalize dependent (calmState 0). intros e0 C.
    destruct (calm_keydown 0 "KeyW" e0 C)
      as (_ & _ & _ & _ & _ & _ & _ & HW0 & Hk0).
    pose proof (Hk0 "KeyA" ltac:(discriminate)) as HA0.
    pose proof (Hk0 "KeyD" ltac:(discriminate)) as HD0.
    rewrite (held_none "KeyA" e0 (calm_keys 0 e0 C)) in HA0.
    rewrite (held_none "KeyD" e0 (calm_keys 0 e0 C)) in HD0.
    set (e1 := GameEngine.keydown "KeyW" e0) in *.
    assert (F : gameState (GameEngine.keydown "KeyS" e1) = playing /\
                radius (shieldObject (shield (GameEngine.keydown "KeyS" e1)))
                = 42 /\
                cameraY (GameEngine.keydown "KeyS" e1) = 0 /\
                canvasHeight (GameEngine.keydown "KeyS" e1) = 1080 /\
                y (position (shieldObject
                               (shield (GameEngine.keydown "KeyS" e1))))
                = 1038 - 108 * 0.72 ^ 0 /\
                worldMousePosition (GameEngine.keydown "KeyS" e1)
                = mkVector2 960 1080 /\
                sensitivity (settings (GameEngine.keydown "KeyS" e1)) = 1).
    { destruct C. repeat split; assumption. }
    destruct F as (Hp & Hr & Hc & Hh & Hy & Hm & Hs).
    assert (HS : GameEngine.held "KeyS" (GameEngine.keydown "KeyS" e1) = true)
      by apply held_keydown_same.
    assert (HW : GameEngine.held "KeyW" (GameEngine.keydown "KeyS" e1) = true)
      by (rewrite held_keydown_other by discriminate; exact HW0).
    assert (HA : GameEngine.held "KeyA" (GameEngine.keydown "KeyS" e1) = false)
      by (rewrite held_keydown_other by discriminate; exact HA0).
    assert (HD : GameEngine.held "KeyD" (GameEngine.keydown "KeyS" e1) = false)
      by (rewrite held_keydown_other by discriminate; exact HD0).
    generalize dependent (GameEngine.keydown "KeyS" e1).
    clear e1 HW0 HA0 HD0 Hk0. intros e Hp Hr Hc Hh Hy Hm Hs HS HW HA HD.
    cbv zeta.
    assert (Hd : GameEngine.keyboardDelta dt e
                 = mkVector2 0 (0 - 300 * dt + 300 * dt)).
    { unfold GameEngine.keyboardDelta. rewrite HW, HS, HA, HD. reflexivity. }
    assert (Hraw : forall m wm,
               GameEngine.rawTarget dt (withPointer m wm e)
               = mkVector2 (x wm * 1) (y wm * 1)).
    { intros m wm. rewrite rawTarget_pointer.
      - cbn [worldMousePosition settings withPointer with_worldMousePosition
             with_mousePosition]. rewrite Hs. reflexivity.
      - rewrite keyboardDelta_withPointer, Hd. reflexivity.
      - rewrite keyboardDelta_withPointer, Hd. cbn [y]. lra. }
    assert (Hclamp : forall u,
               y (GameEngine.clampTarget e u)
               = Rmax (42 + 0) (Rmin (1080 + 0 - 42) (y u))).
    { intros u. unfold GameEngine.clampTarget. cbn [y].
      rewrite Hr, Hc, Hh. reflexivity. }
    split; [exact Hp|]. split; [exact HW|]. split; [exact HS|].
    split; [|split].
    + rewrite Hy, Hd. cbn [y pow]. lra.
    + rewrite (updatePhysics_target dt e Hp), Hclamp.
      rewrite <- (with_pointer_same e) at 1. rewrite Hraw, Hm. cbn [y].
      rewrite Rmin_left by lra. rewrite Rmax_right by lra. lra.
    + rewrite (updatePhysics_target dt
                 (withPointer (mkVector2 100 100) (mkVector2 100 100) e) Hp).
      rewrite clampTarget_withPointer, Hclamp, Hraw. cbn [y].
      rewrite Rmin_right by lra. rewrite Rmax_right by lra. lra.
  - destruct (calm_run 12) as [C _]; [lia|].
    generalize dependent (calmState 12). intros e0 C.
    destruct (calm_keydown 12 "KeyS" e0 C)
      as (Hp & Hr & Hc & Hh & Hy & _ & _ & HS & Hk).
    pose proof (Hk "KeyW" ltac:(discriminate)) as HW.
    pose proof (Hk "KeyA" ltac:(discriminate)) as HA.
    pose proof (Hk "KeyD" ltac:(discriminate)) as HD.
    rewrite (held_none "KeyW" e0 (calm_keys 12 e0 C)) in HW.
    rewrite (held_none "KeyA" e0 (calm_keys 12 e0 C)) in HA.
    rewrite (held_none "KeyD" e0 (calm_keys 12 e0 C)) in HD.
    clear Hk C.
    generalize dependent (GameEngine.keydown "KeyS" e0).
    clear e0. intros e Hp Hr Hc Hh Hy HS HW HA HD. cbv zeta.
    assert (Hd : GameEngine.keyboardDelta dt e
                 = mkVector2 0 (0 + 300 * dt)).
    { unfold GameEngine.keyboardDelta. rewrite HW, HS, HA, HD. reflexivity. }
    pose proof pow_072_12 as Hpow.
    set (p := 0.72 ^ 12) in *. clearbody p.
    split; [exact Hp|]. split; [exact HS|]. split.
    + rewrite (updatePhysics_target dt e Hp).
      rewrite (rawTarget_keyboard dt e).
      * unfold GameEngine.clampTarget. cbn [y].
        rewrite Hr, Hc, Hh, Hy, Hd. cbn [y].
        rewrite Rmin_left by lra. rewrite Rmax_right by lra. lra.
      * lra.
      * unfold netDirection. rewrite HW, HS, HA, HD. reflexivity.
    + rewrite Hy, Hd. cbn [y]. lra.
Qed.

(** * Further properties of the code *)

(** ** The two geometry tests *)

Section Geometry.

Import CollisionSystem.

Lemma sqrt_le_iff (d2 rs : R) :
  0 <= d2 -> 0 <= rs -> (d2 <= rs * rs <-> sqrt d2 <= rs).
Proof.
  intros Hd Hr. split; intros H.
  - rewrite <- (sqrt_square rs Hr). apply sqrt_le_1; nra.
  - rewrite <- (sqrt_sqrt d2 Hd). pose proof (sqrt_pos d2). nra.
Qed.

(** X1.  For two bodies whose radii sum to a non-negative number the
    circle test reports an overlap exactly when the distance between the
    centres is at most the sum of the radii, touching included; the
    penetration it returns is the sum of the radii minus the distance and is
    never negative. *)
Theorem circleVsCircle_distance (a b : GameObject) :
  0 <= radius a + radius b ->
  let distance :=
    sqrt ((x (position b) - x (position a)) * (x (position b) - x (position a))
          + (y (position b) - y (position a))
            * (y (position b) - y (position a))) in
  (circleVsCircle a b <> None <-> distance <= radius a + radius b) /\
  (forall c, circleVsCircle a b = Some c ->
     penetration c = radius a + radius b - distance /\ 0 <= penetration c).
Proof.
  intros Hr distance. unfold circleVsCircle. fold distance.
  set (d2 := (x (position b) - x (position a))
             * (x (position b) - x (position a))
             + (y (position b) - y (position a))
               * (y (position b) - y (position a))) in *.
  assert (Hd : 0 <= d2)
    by (unfold d2; apply Rplus_le_le_0_compat; apply Rle_0_sqr).
  pose proof (sqrt_le_iff d2 _ Hd Hr) as Hiff. fold distance in Hiff.
  destruct (Rle_dec _ _) as [Hle|Hgt].
  - split.
    + split; [intros _; apply Hiff, Hle|].
      intros _. destruct (Req_dec_T _ _); discriminate.
    + intros c Hc. apply Hiff in Hle.
      destruct (Req_dec_T _ _); inversion Hc; subst; cbn [penetration];
        split; lra.
  - split.
    + split; [congruence|]. intros H. apply Hiff in H. contradiction.
    + discriminate.
Qed.

Lemma circleVsCircle_distance_witness :
  let a := plainObject (mkVector2 0 0) (mkVector2 0 0) 22 "balloon" in
  let b := plainObject (mkVector2 30 0) (mkVector2 0 0) 8 "shard" in
  circleVsCircle a b <> None
  <-> sqrt ((30 - 0) * (30 - 0) + (0 - 0) * (0 - 0)) <= 22 + 8.
Proof.
  intros a b.
  refine (proj1 (circleVsCircle_distance a b _)). simpl. lra.
Defined.

Lemma unit_quotients (dx dy : R) :
  sqrt (dx * dx + dy * dy) <> 0 ->
  let d := sqrt (dx * dx + dy * dy) in
  (dx / d) * (dx / d) + (dy / d) * (dy / d) = 1.
Proof.
  intros Hd d. fold d in Hd.
  assert (Hs : d * d = dx * dx + dy * dy) by (apply sqrt_sqrt; nra).
  field_simplify_eq; [|exact Hd]. lra.
Qed.

(** X2.  The normal that the circle test returns has length 1; when the
    centres differ the contact point is on the first circle, at the centre
    plus the radius along the normal. *)
Theorem circleVsCircle_unit_normal (a b : GameObject) (c : CollisionInfo) :
  circleVsCircle a b = Some c ->
  x (normal c) * x (normal c) + y (normal c) * y (normal c) = 1 /\
  (position a <> position b ->
   x (point c) = x (position a) + x (normal c) * radius a /\
   y (point c) = y (position a) + y (normal c) * radius a).
Proof.
  unfold circleVsCircle. destruct (Rle_dec _ _); [|discriminate].
  destruct (Req_dec_T _ _) as [Hz|Hnz]; intros [= <-]; cbn [normal point x y].
  - split; [lra|]. intros Hne. exfalso. apply Hne.
    apply distance_zero_iff in Hz. apply vector_eq; lra.
  - split; [|auto]. apply unit_quotients, Hnz.
Qed.

Lemma circleVsCircle_unit_normal_witness :
  let a := plainObject (mkVector2 0 0) (mkVector2 0 0) 22 "balloon" in
  let b := plainObject (mkVector2 0 0) (mkVector2 0 0) 8 "shard" in
  exists c,
    circleVsCircle a b = Some c /\
    x (normal c) * x (normal c) + y (normal c) * y (normal c) = 1.
Proof.
  intros a b.
  assert (Hc : exists c, circleVsCircle a b = Some c).
  { unfold circleVsCircle. simpl.
    destruct (Rle_dec _ _) as [_|Hn]; [|exfalso; apply Hn; lra].
    destruct (Req_dec_T _ _); eexists; reflexivity. }
  destruct Hc as (c & Hc). exists c. split; [exact Hc|].
  exact (proj1 (circleVsCircle_unit_normal a b c Hc)).
Defined.

(** X3.  The normal that the rectangle test returns has length 1, whether
    the centre of the circle is inside the rectangle or not. *)
Theorem circleVsAABB_unit_normal (cx cy r ax ay aw ah : R)
  (c : CollisionInfo) :
  circleVsAABB cx cy r ax ay aw ah = Some c ->
  x (normal c) * x (normal c) + y (normal c) * y (normal c) = 1.
Proof.
  unfold circleVsAABB. destruct (Rle_dec _ _); [|discriminate].
  destruct (Req_dec_T (sqrt _) 0) as [Hz|Hnz].
  - repeat destruct (Req_dec_T _ _); intros [= <-]; cbn [normal x y]; lra.
  - intros [= <-]. cbn [normal x y]. apply unit_quotients, Hnz.
Qed.

Lemma circleVsAABB_unit_normal_witness :
  exists c,
    circleVsAABB 0 30 22 10 10 40 40 = Some c /\
    x (normal c) * x (normal c) + y (normal c) * y (normal c) = 1.
Proof.
  assert (Hc : exists c, circleVsAABB 0 30 22 10 10 40 40 = Some c).
  { unfold circleVsAABB.
    rewrite (Rmin_left 0 (10 + 40)) by lra.
    rewrite (Rmax_left 10 0) by lra.
    rewrite (Rmin_left 30 (10 + 40)) by lra.
    rewrite (Rmax_right 10 30) by lra.
    destruct (Rle_dec _ _) as [_|Hn]; [|exfalso; apply Hn; lra].
    destruct (Req_dec_T (sqrt _) 0); [|eexists; reflexivity].
    repeat destruct (Req_dec_T _ _); eexists; reflexivity. }
  destruct Hc as (c & Hc). exists c. split; [exact Hc|].
  exact (circleVsAABB_unit_normal 0 30 22 10 10 40 40 c Hc).
Defined.



End Geometry.

Section Edges.

Import CollisionSystem.

(** The rectangle test when the centre of the circle is inside the
    rectangle: the branch that looks for the nearest edge. *)
Lemma circleVsAABB_inside (cx cy r ax ay aw ah : R) :
  0 <= r -> ax <= cx <= ax + aw -> ay <= cy <= ay + ah ->
  let nearest :=
    Rmin (Rmin (Rmin (cx - ax) (ax + aw - cx)) (cy - ay)) (ay + ah - cy) in
  circleVsAABB cx cy r ax ay aw ah
  = if Req_dec_T nearest (cx - ax) then
      Some (mkCollisionInfo (r + (cx - ax)) (mkVector2 (-1) 0)
              (mkVector2 ax cy))
    else if Req_dec_T nearest (ax + aw - cx) then
      Some (mkCollisionInfo (r + (ax + aw - cx)) (mkVector2 1 0)
              (mkVector2 (ax + aw) cy))
    else if Req_dec_T nearest (cy - ay) then
      Some (mkCollisionInfo (r + (cy - ay)) (mkVector2 0 (-1))
              (mkVector2 cx ay))
    else
      Some (mkCollisionInfo (r + (ay + ah - cy)) (mkVector2 0 1)
              (mkVector2 cx (ay + ah))).
Proof.
  intros Hr Hx Hy nearest. unfold circleVsAABB.
  rewrite (Rmin_left cx (ax + aw)) by lra. rewrite (Rmax_right ax cx) by lra.
  rewrite (Rmin_left cy (ay + ah)) by lra. rewrite (Rmax_right ay cy) by lra.
  replace ((cx - cx) * (cx - cx) + (cy - cy) * (cy - cy)) with 0 by ring.
  rewrite sqrt_0.
  destruct (Rle_dec 0 (r * r)) as [_|Hn]; [|exfalso; apply Hn; nra].
  destruct (Req_dec_T 0 0) as [_|Hn]; [reflexivity | congruence].
Qed.

Lemma nearest_zero (a b c d : R) :
  0 <= a -> 0 <= b -> 0 <= c -> 0 <= d ->
  a = 0 \/ b = 0 \/ c = 0 \/ d = 0 ->
  Rmin (Rmin (Rmin a b) c) d = 0.
Proof.
  intros Ha Hb Hc Hd H. unfold Rmin.
  repeat destruct (Rle_dec _ _); lra.
Qed.

(** X5.  A circle whose centre is on an edge of the rectangle, away from
    the corners, collides with penetration equal to its radius and with the
    outward normal of that edge; on the left edge this holds at the corners
    too. *)
Theorem circleVsAABB_centre_on_edge (cx cy r ax ay aw ah : R) :
  0 <= r -> ax <= cx <= ax + aw -> ay <= cy <= ay + ah ->
  (cx = ax ->
   circleVsAABB cx cy r ax ay aw ah
   = Some (mkCollisionInfo (r + (cx - ax)) (mkVector2 (-1) 0)
             (mkVector2 ax cy)) /\ r + (cx - ax) = r) /\
  (cx = ax + aw -> 0 < aw ->
   circleVsAABB cx cy r ax ay aw ah
   = Some (mkCollisionInfo (r + (ax + aw - cx)) (mkVector2 1 0)
             (mkVector2 (ax + aw) cy)) /\ r + (ax + aw - cx) = r) /\
  (cy = ay -> ax < cx < ax + aw ->
   circleVsAABB cx cy r ax ay aw ah
   = Some (mkCollisionInfo (r + (cy - ay)) (mkVector2 0 (-1))
             (mkVector2 cx ay)) /\ r + (cy - ay) = r) /\
  (cy = ay + ah -> 0 < ah -> ax < cx < ax + aw ->
   circleVsAABB cx cy r ax ay aw ah
   = Some (mkCollisionInfo (r + (ay + ah - cy)) (mkVector2 0 1)
             (mkVector2 cx (ay + ah))) /\ r + (ay + ah - cy) = r).
Proof.
  intros Hr Hx Hy.
  rewrite (circleVsAABB_inside cx cy r ax ay aw ah Hr Hx Hy). cbv zeta.
  repeat split; try lra;
    rewrite nearest_zero by lra;
    repeat (destruct (Req_dec_T _ _); try lra); reflexivity.
Qed.

Lemma circleVsAABB_centre_on_edge_witness :
  circleVsAABB 10 30 22 10 10 40 40
  = Some (mkCollisionInfo (22 + (10 - 10)) (mkVector2 (-1) 0)
            (mkVector2 10 30)).
Proof.
  refine (proj1 (proj1 (circleVsAABB_centre_on_edge 10 30 22 10 10 40 40
                          _ _ _) _)); lra.
Defined.

(** Moving a body along its velocity for no time leaves it where it is. *)
Lemma movedAlong_zero (obj : GameObject) (dt t : R) :
  t = 0 -> movedAlong obj dt t = obj.
Proof.
  intros ->. unfold movedAlong, set_position. destruct obj as [[px py] ?].
  cbn. repeat f_equal; ring.
Qed.

(** X6.  The swept test never misses an overlap of the two bodies where
    they are: for bodies of positive radius, when [checkCollision] reports
    an overlap, [checkContinuousCollision] returns it, whatever the
    velocities and the time step. *)
Theorem checkContinuousCollision_static_hit (obj1 obj2 : GameObject)
  (dt : R) (c : CollisionInfo) :
  0 < radius obj1 -> 0 < radius obj2 ->
  checkCollision obj1 obj2 = Some c ->
  checkContinuousCollision obj1 obj2 dt = Some c.
Proof.
  intros _ _ Hc. unfold checkContinuousCollision.
  destruct (Rle_dec _ 1); [exact Hc|].
  cbn [sampleCollisions INR].
  rewrite !movedAlong_zero by ring. rewrite Hc. reflexivity.
Qed.

Lemma checkContinuousCollision_static_hit_witness :
  let a := plainObject (mkVector2 0 0) (mkVector2 0 900) 22 "balloon" in
  let b := plainObject (mkVector2 0 0) (mkVector2 0 0) 8 "shard" in
  exists c,
    checkCollision a b = Some c /\
    checkContinuousCollision a b 1 = Some c.
Proof.
  intros a b.
  assert (Hc : exists c, checkCollision a b = Some c).
  { unfold checkCollision, circleVsCircle. simpl.
    destruct (Rle_dec _ _) as [_|Hn]; [|exfalso; apply Hn; lra].
    destruct (Req_dec_T _ _); eexists; reflexivity. }
  destruct Hc as (c & Hc). exists c. split; [exact Hc|].
  refine (checkContinuousCollision_static_hit a b 1 c _ _ Hc); simpl; lra.
Defined.

Lemma Math_ceil_le_1 (r : R) : r <= 1 -> Math_ceil r <= 1.
Proof.
  intros H. unfold Math_ceil, Math_floor.
  destruct (base_Int_part (- r)) as [_ Hlow].
  assert (Hz : (-2 < Int_part (- r))%Z) by (apply lt_IZR; lra).
  assert (Hz' : (-1 <= Int_part (- r))%Z) by lia.
  apply IZR_le in Hz'. lra.
Qed.

(** X7.  When neither body moves farther than its own radius along either
    axis during the step, the swept test is the plain test. *)
Theorem checkContinuousCollision_slow (obj1 obj2 : GameObject) (dt : R) :
  0 < radius obj1 -> 0 < radius obj2 ->
  Rabs (x (velocity obj1) * dt) <= radius obj1 ->
  Rabs (y (velocity obj1) * dt) <= radius obj1 ->
  Rabs (x (velocity obj2) * dt) <= radius obj2 ->
  Rabs (y (velocity obj2) * dt) <= radius obj2 ->
  checkContinuousCollision obj1 obj2 dt = checkCollision obj1 obj2.
Proof.
  intros H1 H2 Hx1 Hy1 Hx2 Hy2. unfold checkContinuousCollision.
  destruct (Rle_dec _ 1) as [_|Hn]; [reflexivity|].
  exfalso. apply Hn. apply Math_ceil_le_1.
  assert (Hq : forall a r, 0 < r -> a <= r -> a / r <= 1).
  { intros a r Hr Ha. apply (Rmult_le_reg_r r); [exact Hr|].
    unfold Rdiv. rewrite Rmult_assoc, Rinv_l by lra. lra. }
  repeat apply Rmax_lub; apply Hq; assumption.
Qed.

Lemma checkContinuousCollision_slow_witness :
  let a := plainObject (mkVector2 0 0) (mkVector2 0 0) 22 "balloon" in
  let b := plainObject (mkVector2 50 0) (mkVector2 0 0) 8 "shard" in
  checkContinuousCollision a b 1 = checkCollision a b.
Proof.
  intros a b.
  apply (checkContinuousCollision_slow a b 1); simpl;
    rewrite ?Rmult_0_l, ?Rabs_R0; lra.
Defined.

End Edges.

(** ** The pattern generator, further *)

Section Generator.

Import PatternSystem.

(** What a selection does: nothing at all when no pattern is unlocked, and
    otherwise it executes one pattern of the unlocked pool. *)
Lemma spawnPattern_cases (params : PatternParams) (ps : PatternSystem)
  (g : Rng) :
  let pool :=
    List.filter (fun p => Rleb (minAltitude p) (Rabs (spawnY params) / 10))
      (patterns ps) in
  (pool = [] /\ spawnPattern params ps g = ([], ps, g)) \/
  (exists p g', In p pool /\
     spawnPattern params ps g = executePattern p params ps g').
Proof.
  intros pool. unfold spawnPattern. fold pool.
  destruct pool as [|p0 pool'] eqn:Hpool; [left; auto|right].
  rewrite <- Hpool. assert (Hne : pool <> []) by (rewrite Hpool; discriminate).
  clear Hpool p0 pool'. unfold bind at 1.
  destruct (selectWeightedPattern_In pool g Hne) as (p & Hsel & Hp).
  destruct (selectWeightedPattern pool g) as [sel g1]. cbn [fst] in Hsel.
  subst sel.
  destruct (_ && _); [|exists p, g1; auto].
  set (alts := List.filter _ pool).
  destruct alts as [|a0 alts'] eqn:Halts; [exists p, g1; auto|].
  rewrite <- Halts. assert (Hne' : alts <> [])
    by (rewrite Halts; discriminate).
  clear Halts a0 alts'. unfold bind at 1.
  destruct (selectWeightedPattern_In alts g1 Hne') as (a & Hsel & Ha).
  destruct (selectWeightedPattern alts g1) as [sel g2]. cbn [fst] in Hsel.
  subst sel. exists a, g2. split; [|reflexivity].
  apply filter_In in Ha. tauto.
Qed.

(** X8.  A selection never executes a pattern that the altitude has not
    unlocked: when no registered pattern is unlocked it spawns nothing,
    draws nothing and leaves the generator as it is; otherwise the pattern
    it executes is registered and its minimum altitude is at most the
    current altitude. *)
Theorem spawnPattern_respects_altitude (params : PatternParams)
  (ps : PatternSystem) (g : Rng) :
  let altitude := Rabs (spawnY params) / 10 in
  ((forall p, In p (patterns ps) -> altitude < minAltitude p) /\
   spawnPattern params ps g = ([], ps, g)) \/
  (exists p g',
     In p (patterns ps) /\ minAltitude p <= altitude /\
     spawnPattern params ps g = executePattern p params ps g' /\
     latestSelection (snd (fst (spawnPattern params ps g)))
     = Some (name p)).
Proof.
  intros altitude.
  destruct (spawnPattern_cases params ps g) as [[He Hs]|(p & g' & Hp & Hs)].
  - left. split; [|exact Hs]. intros p Hp.
    apply Rnot_le_lt. intros Hle.
    assert (Hin : In p []) by (rewrite <- He; apply available_In; auto).
    destruct Hin.
  - right. exists p, g'. apply available_In in Hp. destruct Hp as [H1 H2].
    repeat split; try assumption. rewrite Hs.
    apply executePattern_history.
Qed.

(** X9.  The history keeps at most the five latest names: a history of at
    most five entries has at most five after an update, and none after a
    reset. *)
Theorem patternHistory_bounded (dt : R) (params : PatternParams)
  (ps : PatternSystem) (g : Rng) :
  (length (patternHistory ps) <= 5)%nat ->
  (length (patternHistory (snd (fst (update dt params ps g)))) <= 5)%nat /\
  patternHistory (reset ps) = [].
Proof.
  intros H. split; [|reflexivity]. unfold update.
  destruct (Rle_dec _ _); [|exact H].
  set (ps1 := mkPatternSystem _ _ _ _ _).
  destruct (spawnPattern_cases params ps1 g) as [[_ ->]|(p & g' & _ & ->)].
  - exact H.
  - destruct (executePattern_history p params ps1 g') as (-> & _).
    change (patternHistory ps1) with (patternHistory ps).
    destruct (5 <? _)%nat eqn:Hlt.
    + destruct (patternHistory ps) as [|n h]; simpl in *; [lia|].
      rewrite length_app in *. simpl. lia.
    + apply Nat.ltb_ge in Hlt. exact Hlt.
Qed.

Lemma patternHistory_bounded_witness :
  (length (patternHistory
             (snd (fst (update 2 paramsAtDepth800 PatternSystem.new zeroRng))))
   <= 5)%nat.
Proof.
  refine (proj1 (patternHistory_bounded 2 paramsAtDepth800 PatternSystem.new
                   zeroRng _)).
  simpl. lia.
Defined.

Lemma executePattern_timer (p : Pattern) (params : PatternParams)
  (ps : PatternSystem) (g : Rng) :
  spawnTimer (snd (fst (executePattern p params ps g))) = spawnTimer ps /\
  spawnCooldown (snd (fst (executePattern p params ps g)))
  = spawnCooldown ps /\
  lastSpawnY (snd (fst (executePattern p params ps g))) = spawnY params.
Proof.
  unfold executePattern, bind, ret.
  destruct (spawn p params g) as [os g']. repeat split; reflexivity.
Qed.

(** X10.  The timer gates the spawns.  While more than [dt] is left on the
    timer an update spawns nothing, draws nothing and only takes [dt] off
    the timer.  When the timer runs out it restarts at the cooldown
    [max(0.55, 1.2 - 0.65 * difficulty)], which for a difficulty between 0
    and 1 is between 0.55 and 1.2. *)
Theorem update_timer_gate (dt : R) (params : PatternParams)
  (ps : PatternSystem) (g : Rng) :
  let r := update dt params ps g in
  let cooldown := Rmax 0.55 (1.2 - difficulty params * 0.65) in
  (dt < spawnTimer ps ->
   fst (fst r) = [] /\ snd r = g /\
   spawnTimer (snd (fst r)) = spawnTimer ps - dt /\
   patternHistory (snd (fst r)) = patternHistory ps) /\
  (spawnTimer ps <= dt ->
   spawnTimer (snd (fst r)) = cooldown /\
   spawnCooldown (snd (fst r)) = cooldown /\
   (0 <= difficulty params <= 1 -> 0.55 <= cooldown <= 1.2)).
Proof.
  intros r cooldown. subst r. unfold update. split; intros H.
  - destruct (Rle_dec _ _); [lra|]. repeat split; reflexivity.
  - destruct (Rle_dec _ _) as [_|Hn]; [|lra].
    fold cooldown. set (ps1 := mkPatternSystem _ _ _ _ _).
    split; [|split].
    + destruct (spawnPattern_cases params ps1 g)
        as [[_ ->]|(p & g' & _ & ->)]; [reflexivity|].
      apply executePattern_timer.
    + destruct (spawnPattern_cases params ps1 g)
        as [[_ ->]|(p & g' & _ & ->)]; [reflexivity|].
      apply executePattern_timer.
    + intros Hd. unfold cooldown. split; [apply Rmax_l|].
      apply Rmax_lub; lra.
Qed.

Lemma update_timer_gate_witness :
  let r := update (1 / 120) paramsAtDepth800 PatternSystem.new zeroRng in
  spawnTimer (snd (fst r)) = Rmax 0.55 (1.2 - 0 * 0.65).
Proof.
  intros r.
  refine (proj1 (proj2 (update_timer_gate (1 / 120) paramsAtDepth800
                          PatternSystem.new zeroRng) _)).
  simpl. lra.
Defined.

End Generator.

Section Formations.

Import PatternSystem.

Lemma forEachIndex_all (P : Obstacle -> Prop) (count i : nat)
  (body : nat -> Rand (list Obstacle)) (g : Rng) :
  (forall j g, Forall P (fst (body j g))) ->
  Forall P (fst (forEachIndex count i body g)).
Proof.
  intros Hb.
  destruct (forEachIndex_Forall P (fun _ => True) count i body g)
    as (os & g' & -> & H & _); [|exact I|exact H].
  intros j g0 _. specialize (Hb j g0).
  destruct (body j g0) as [os g1]. exists os, g1. auto.
Qed.

Ltac wellformed_one :=
  repeat constructor; cbn; try lra;
  try (intros _; eexists; eexists; repeat split; try reflexivity; lra);
  try discriminate.

(** X11.  Every obstacle that a registered pattern builds is active, has a
    positive radius and, if it is a block or a sweeper, carries a positive
    width and height: the rectangle test never reads a missing member. *)
Theorem spawn_wellFormed (p : Pattern) (params : PatternParams) (g : Rng) :
  In p initializePatterns ->
  Forall wellFormedObstacle (fst (spawn p params g)).
Proof.
  intros Hp. unfold initializePatterns in Hp. cbn [In] in Hp.
  destruct Hp as [<-|[<-|[<-|[<-|[<-|[<-|[<-|[]]]]]]]]; cbn [spawn].
  - unfold spawnBlockRain. apply forEachIndex_all. intros j g0.
    unfold bind, ret, Math_random.
    destruct (pickBlockX _ _ _ g0) as [x0 g1]. wellformed_one.
  - unfold spawnChicane, bind, ret, Math_random. cbn [fst].
    destruct (Rlt_dec _ _); repeat destruct (Req_dec_T _ _);
      cbn [app]; wellformed_one.
  - unfold spawnSpikeGauntlet. apply forEachIndex_all. intros j g0.
    unfold bind, ret, Math_random. destruct (Rlt_dec _ _); wellformed_one.
  - unfold spawnRotor, bind, ret, Math_random. wellformed_one.
  - unfold spawnSweeper, bind, ret, Math_random. wellformed_one.
  - unfold spawnShardBurst, bind at 1. unfold Math_random at 1.
    apply forEachIndex_all. intros j g0.
    unfold bind, ret, Math_random. wellformed_one.
  - unfold spawnGridDrop, bind at 1. unfold Math_random at 1.
    apply forEachIndex_all. intros j g0.
    destruct (Req_dec_T _ _); [constructor|].
    unfold bind at 1. unfold Math_random at 1.
    apply forEachIndex_all. intros i g1.
    unfold bind, ret, Math_random. wellformed_one.
Qed.

Lemma spawn_wellFormed_witness :
  Forall wellFormedObstacle (fst (spawnChicane paramsAtDepth800 zeroRng)).
Proof.
  apply (spawn_wellFormed (mkPattern "chicane" 2 50 spawnChicane)
           paramsAtDepth800 zeroRng).
  simpl. tauto.
Defined.

(** X12.  The chicane is one anchored wall at spawn depth, at rest: the
    right wall (x = 750) when the draw is below one half, the left wall
    (x = 50) otherwise. *)
Theorem spawnChicane_single_wall (params : PatternParams) (g : Rng) :
  exists o,
    fst (spawnChicane params g) = [o] /\
    type o = "block"%string /\ anchored o = Some true /\
    velocity o = mkVector2 0 0 /\ y (position o) = spawnY params /\
    x (position o) = (if Rlt_dec (oracle g (drawn g)) 0.5 then 750 else 50).
Proof.
  unfold spawnChicane, bind, ret, Math_random. cbn [fst].
  destruct (Rlt_dec _ _).
  - destruct (Req_dec_T (-1) 1) as [H|_]; [exfalso; lra|].
    destruct (Req_dec_T (-1) (-1)) as [_|H]; [|congruence].
    eexists. repeat split; reflexivity.
  - destruct (Req_dec_T 1 1) as [_|H]; [|congruence].
    destruct (Req_dec_T 1 (-1)) as [H|_]; [exfalso; lra|].
    eexists. repeat split; reflexivity.
Qed.

(** X13.  No spike of a gauntlet is within half the minimum gap of the
    centre line: the balloon's column stays free. *)
Theorem spawnSpikeGauntlet_gap (params : PatternParams) (g : Rng) :
  let minGap := shieldRadius params * 2.4 + 15 in
  Forall (fun o => minGap / 2 < Rabs (x (position o) - centerX params) /\
                   type o = "spike"%string)
    (fst (spawnSpikeGauntlet params g)).
Proof.
  intros minGap. unfold spawnSpikeGauntlet. fold minGap.
  apply forEachIndex_all. intros j g0.
  unfold bind, ret, Math_random.
  destruct (Rlt_dec _ _) as [Hgap|_]; repeat constructor.
  exact Hgap.
Qed.

End Formations.

Section Counts.

Import PatternSystem.

Lemma Int_part_IZR (z : Z) : Int_part (IZR z) = z.
Proof. symmetry. apply Int_part_spec. lra. Qed.

Lemma loopCount_floor (r : R) :
  loopCount (Math_floor r) = Z.to_nat (Int_part r).
Proof. unfold loopCount, Math_floor. rewrite Int_part_IZR. reflexivity. Qed.

Lemma forEachIndex_length (count i : nat)
  (body : nat -> Rand (list Obstacle)) (g : Rng) :
  (forall j g, length (fst (body j g)) = 1%nat) ->
  length (fst (forEachIndex count i body g)) = count.
Proof.
  intros Hb. revert i g. induction count as [|count IH]; intros i g.
  - reflexivity.
  - cbn [forEachIndex]. unfold bind, ret.
    specialize (Hb i g). destruct (body i g) as [os g1].
    specialize (IH (S i) g1).
    destruct (forEachIndex count (S i) body g1) as [rest g2].
    cbn [fst] in *. rewrite length_app. lia.
Qed.

(** X14.  Block rain builds exactly [floor(2 + 3 * difficulty)] blocks: two
    at difficulty 0, five at difficulty 1, and between two and five for a
    difficulty in between. *)
Theorem spawnBlockRain_count (params : PatternParams) (g : Rng) :
  0 <= difficulty params <= 1 ->
  let count := length (fst (spawnBlockRain params g)) in
  count = Z.to_nat (Int_part (2 + difficulty params * 3)) /\
  (2 <= count <= 5)%nat.
Proof.
  intros Hd count.
  assert (Hc : count = Z.to_nat (Int_part (2 + difficulty params * 3))).
  { subst count. unfold spawnBlockRain. rewrite loopCount_floor.
    apply forEachIndex_length. intros j g0. unfold bind, ret, Math_random.
    destruct (pickBlockX _ _ _ g0) as [x0 g1]. reflexivity. }
  split; [exact Hc|]. rewrite Hc.
  destruct (base_Int_part (2 + difficulty params * 3)) as [Hlo Hhi].
  set (z := Int_part _) in *.
  assert (H1 : (1 < z)%Z) by (apply lt_IZR; lra).
  assert (H2 : (z < 6)%Z) by (apply lt_IZR; lra).
  lia.
Qed.

Lemma spawnBlockRain_count_witness :
  (2 <= length (fst (spawnBlockRain paramsAtDepth800 zeroRng)) <= 5)%nat.
Proof.
  refine (proj2 (spawnBlockRain_count paramsAtDepth800 zeroRng _)).
  simpl. lra.
Defined.

Lemma integers_apart (n : nat) (z : Z) :
  INR n <> IZR z -> INR n <= IZR z - 1 \/ IZR z + 1 <= INR n.
Proof.
  intros H. rewrite INR_IZR_INZ in *.
  assert (Hz : Z.of_nat n <> z) by congruence.
  destruct (Z_lt_le_dec (Z.of_nat n) z) as [Hlt|Hge].
  - left. rewrite <- minus_IZR. apply IZR_le. lia.
  - right. rewrite <- plus_IZR. apply IZR_le. lia.
Qed.

Lemma forEachIndex_Forall_fst (P : Obstacle -> Prop) (inv : Rng -> Prop)
  (count i : nat) (body : nat -> Rand (list Obstacle)) (g : Rng) :
  (forall j g, inv g ->
     exists os g', body j g = (os, g') /\ Forall P os /\ inv g') ->
  inv g ->
  Forall P (fst (forEachIndex count i body g)).
Proof.
  intros Hb Hg.
  destruct (forEachIndex_Forall P inv count i body g Hb Hg)
    as (os & g' & -> & H & _).
  exact H.
Qed.

(** X15.  Grid drop keeps its safe column free: with every draw in [0, 1)
    no block is centred in the 200-wide column that the first draw
    reserves. *)
Theorem spawnGridDrop_safe_column (params : PatternParams) (g : Rng) :
  unitDraws g ->
  let safeColumn := Math_floor (oracle g (drawn g) * 4) in
  Forall (fun o => x (position o) < safeColumn * 200 \/
                   safeColumn * 200 + 200 < x (position o))
    (fst (spawnGridDrop params g)).
Proof.
  intros Hg safeColumn. unfold spawnGridDrop.
  cbv zeta. unfold bind at 1. unfold Math_random at 1.
  fold safeColumn.
  apply forEachIndex_Forall_fst with (inv := unitDraws); [|exact Hg].
  intros col g2 Hg2.
  destruct (Req_dec_T (INR col) safeColumn) as [_|Hne].
  - exists [], g2. split; [reflexivity|]. split; [constructor | exact Hg2].
  - unfold bind at 1. unfold Math_random at 1.
    apply forEachIndex_Forall; [|exact Hg2].
    intros i g3 Hg3. unfold bind, ret, Math_random.
    eexists. eexists. split; [reflexivity|]. split; [|exact Hg3].
    constructor; [|constructor]. cbn [position x].
    pose proof (Hg3 (drawn g3)) as Hr.
    destruct (integers_apart col _ Hne) as [H|H];
      unfold safeColumn, Math_floor in *; [left | right]; lra.
Qed.

Lemma spawnGridDrop_safe_column_witness :
  Forall (fun o => x (position o) < Math_floor (0 * 4) * 200 \/
                   Math_floor (0 * 4) * 200 + 200 < x (position o))
    (fst (spawnGridDrop paramsAtDepth800 zeroRng)).
Proof.
  apply (spawnGridDrop_safe_column paramsAtDepth800 zeroRng).
  intros n. simpl. lra.
Defined.

Lemma fold_weights (pool : list Pattern) (a : R) :
  fold_left (fun sum p => sum + weight p) pool a
  = a + fold_left (fun sum p => sum + weight p) pool 0.
Proof.
  revert a. induction pool as [|p pool IH]; intros a; simpl.
  - lra.
  - rewrite (IH (a + weight p)), (IH (0 + weight p)). lra.
Qed.

Lemma pickByWeight_below_total (pool : list Pattern) (rnd : R) :
  0 <= rnd ->
  rnd < fold_left (fun sum p => sum + weight p) pool 0 ->
  pickByWeight pool rnd <> None.
Proof.
  revert rnd. induction pool as [|p pool IH]; intros rnd H0 H; simpl in *.
  - lra.
  - destruct (Rle_dec _ _); [discriminate|].
    rewrite fold_weights in H. apply IH; lra.
Qed.

(** X16.  With a draw in [0, 1) and a pool of positive total weight the
    cumulative loop of the weighted selection always returns: the fallback
    on the last pattern is never taken, and the pattern returned is the
    first one at which the running sum of weights reaches the scaled
    draw. *)
Theorem selectWeightedPattern_by_loop (pool : list Pattern) (g : Rng) :
  unitDraws g ->
  let totalWeight := fold_left (fun sum p => sum + weight p) pool 0 in
  0 < totalWeight ->
  exists p,
    pickByWeight pool (oracle g (drawn g) * totalWeight) = Some p /\
    fst (selectWeightedPattern pool g) = Some p /\ In p pool.
Proof.
  intros Hg totalWeight Ht.
  pose proof (Hg (drawn g)) as Hr.
  assert (Hlt : oracle g (drawn g) * totalWeight < totalWeight) by nra.
  assert (Hge : 0 <= oracle g (drawn g) * totalWeight) by nra.
  pose proof (pickByWeight_below_total pool _ Hge Hlt) as Hne.
  unfold selectWeightedPattern, bind, ret, Math_random. fold totalWeight.
  destruct (pickByWeight pool _) as [p|] eqn:Hp; [|congruence].
  exists p. repeat split. eapply pickByWeight_In, Hp.
Qed.

Lemma selectWeightedPattern_by_loop_witness :
  exists p,
    fst (selectWeightedPattern initializePatterns zeroRng) = Some p /\
    In p initializePatterns.
Proof.
  destruct (selectWeightedPattern_by_loop initializePatterns zeroRng)
    as (p & _ & H1 & H2).
  - intros n. simpl. lra.
  - simpl. lra.
  - exists p. split; assumption.
Defined.

End Counts.

(** ** The life cycle of a game *)

Section Lifecycle.

(** The state after a call from outside that is not a frame. *)
Lemma input_gameState (i : Input) (e : GameEngine) :
  isFrame i = false ->
  gameState (exec i e) = gameState e \/
  gameState (exec i e) = playing \/
  (gameState e = playing /\ gameState (exec i e) = paused).
Proof.
  intros Hf. destruct i; try discriminate; cbn [exec];
    try (left; reflexivity).
  - right; left; reflexivity.
  - unfold GameEngine.pauseGame.
    destruct (gameState e) eqn:Hs; cbn [isPlaying]; try (left; exact Hs).
    right; right. split; reflexivity.
  - unfold GameEngine.resumeGame.
    destruct (gameState e) eqn:Hs; cbn [isPaused]; try (left; exact Hs).
    right; left; reflexivity.
  - right; left; reflexivity.
Qed.

Lemma beforeCollisions_gameState (dt : R) (e : GameEngine) :
  gameState (beforeCollisions dt e) = gameState e.
Proof. unfold beforeCollisions. autorewrite with engine. reflexivity. Qed.

Lemma beforeCollisions_notifications (dt : R) (e : GameEngine) :
  notifications (beforeCollisions dt e) = notifications e.
Proof. unfold beforeCollisions. autorewrite with engine. reflexivity. Qed.

Lemma checkCollisions_gameState (e : GameEngine) :
  gameState (GameEngine.checkCollisions e)
  = if GameEngine.balloonHit e then gameOver else gameState e.
Proof.
  unfold GameEngine.checkCollisions. destruct (GameEngine.balloonHit e).
  - reflexivity.
  - destruct (GameEngine.shieldPass e (obstacles e) (rng e)) as [[os hit] g].
    reflexivity.
Qed.

Lemma checkCollisions_notifications (e : GameEngine) :
  notifications (GameEngine.checkCollisions e)
  = notifications e
    ++ (if GameEngine.balloonHit e then [StateChange gameOver] else []).
Proof.
  unfold GameEngine.checkCollisions. destruct (GameEngine.balloonHit e).
  - reflexivity.
  - destruct (GameEngine.shieldPass e (obstacles e) (rng e)) as [[os hit] g].
    cbn [notifications with_rng with_shield with_obstacles].
    symmetry. apply app_nil_r.
Qed.

Lemma updatePhysics_gameState (dt : R) (e : GameEngine) :
  gameState (GameEngine.updatePhysics dt e)
  = if GameEngine.balloonHit (beforeCollisions dt e) then gameOver
    else gameState e.
Proof.
  destruct (updatePhysics_after_collisions dt e) as (-> & _).
  rewrite checkCollisions_gameState, beforeCollisions_gameState.
  reflexivity.
Qed.

(** X17.  The state machine of the engine.  A call from outside, a clock
    reading or a tick either leaves the state as it is, or sets it to
    playing, or leaves playing for paused or for game over: the menu is
    never entered, and paused and game over are entered from playing
    only. *)
Theorem step_gameState (allowed : Input -> bool) (e e' : GameEngine) :
  step allowed e e' ->
  gameState e' = gameState e \/
  gameState e' = playing \/
  (gameState e = playing /\
   (gameState e' = paused \/ gameState e' = gameOver)).
Proof.
  intros [e1 i _ Hf | e1 t a | e1 Hp].
  - destruct (input_gameState i e1 Hf) as [H | [H | [H1 H2]]]; auto.
  - left; reflexivity.
  - rewrite updatePhysics_gameState.
    destruct (GameEngine.balloonHit _); auto.
Qed.

Lemma step_gameState_witness :
  let e := GameEngine.startGame (GameEngine.new 800 600 (fun _ => 0)) in
  gameState (GameEngine.pauseGame e) = gameState e \/
  gameState (GameEngine.pauseGame e) = playing \/
  (gameState e = playing /\
   (gameState (GameEngine.pauseGame e) = paused \/
    gameState (GameEngine.pauseGame e) = gameOver)).
Proof.
  intros e.
  apply (step_gameState (fun _ => true) e (exec PauseGame e)).
  apply step_input; reflexivity.
Defined.

(** X18.  Once a game was started the menu does not come back, whatever is
    called and however many frames run. *)
Theorem started_never_menu (e0 e : GameEngine) :
  steps (fun _ => true) (GameEngine.startGame e0) e -> gameState e <> menu.
Proof.
  intros Hsteps.
  apply (steps_invariant (fun _ => true) (fun e => gameState e <> menu))
    with (e0 := GameEngine.startGame e0); try exact Hsteps.
  - intros e1 i H _ Hf.
    destruct (input_gameState i e1 Hf) as [-> | [-> | [_ ->]]];
      [exact H | discriminate | discriminate].
  - intros e1 t a H. exact H.
  - intros e1 H Hp. rewrite updatePhysics_gameState.
    destruct (GameEngine.balloonHit _); [discriminate | exact H].
  - discriminate.
Qed.

Lemma started_never_menu_witness :
  gameState
    (run [Frame 10; PauseGame; ToggleDebug]
       (GameEngine.startGame (GameEngine.new 800 600 (fun _ => 0))))
  <> menu.
Proof.
  apply (started_never_menu (GameEngine.new 800 600 (fun _ => 0))).
  apply steps_run. reflexivity.
Defined.

(** X19.  What a tick reports.  The tick ends the game exactly when an
    active obstacle is on the balloon after the moves of the tick, and
    leaves the state alone otherwise; the state change, if any, is reported
    first, and the new score is reported by every tick. *)
Theorem updatePhysics_reports (dt : R) (e : GameEngine) :
  let hit := GameEngine.balloonHit (beforeCollisions dt e) in
  let e' := GameEngine.updatePhysics dt e in
  gameState e' = (if hit then gameOver else gameState e) /\
  notifications e'
  = notifications e
    ++ (if hit then [StateChange gameOver] else [])
    ++ [ScoreChange (score e')].
Proof.
  intros hit e'. split; [apply updatePhysics_gameState|].
  subst e' hit. rewrite updatePhysics_unfold. cbv zeta.
  cbn [notifications with_obstacles GameEngine.notify with_notifications
       score with_score].
  rewrite checkCollisions_notifications, beforeCollisions_notifications.
  rewrite <- app_assoc. reflexivity.
Qed.

End Lifecycle.

(** ** Frames *)

Section Frames.

Lemma with_accumulator_twice (a b : R) (e : GameEngine) :
  with_accumulator a (with_accumulator b e) = with_accumulator a e.
Proof. reflexivity. Qed.

Lemma physicsLoop_not_playing (fuel : nat) (e : GameEngine) :
  gameState e <> playing ->
  exists a,
    GameEngine.physicsLoop fuel e = with_accumulator a e /\
    a <= Rmax (accumulator e) 0 /\
    (accumulator e < INR fuel * GameEngine.physicsStep ->
     a < GameEngine.physicsStep).
Proof.
  intros Hs. revert e Hs. induction fuel as [|fuel IH]; intros e Hs.
  - exists (accumulator e). split; [destruct e; reflexivity|].
    split; [apply Rmax_l|]. simpl. unfold GameEngine.physicsStep. lra.
  - cbn [GameEngine.physicsLoop].
    destruct (Rle_dec GameEngine.physicsStep (accumulator e)) as [Hge|Hlt].
    + assert (Hn : isPlaying (gameState e) = false)
        by (destruct (gameState e); [reflexivity | congruence | reflexivity
                                    | reflexivity]).
      rewrite Hn.
      destruct (IH (with_accumulator
                      (accumulator e - GameEngine.physicsStep) e) Hs)
        as (a & Heq & Hle & Hexit).
      exists a. rewrite Heq, with_accumulator_twice.
      split; [reflexivity|].
      cbn [accumulator with_accumulator] in Hle, Hexit.
      unfold GameEngine.physicsStep in *.
      split.
      * eapply Rle_trans; [exact Hle|].
        apply Rmax_lub; [|apply Rmax_r].
        eapply Rle_trans; [|apply Rmax_l]. lra.
      * intros Hf. apply Hexit. rewrite S_INR in Hf. lra.
    + exists (accumulator e). split; [destruct e; reflexivity|].
      split; [apply Rmax_l|]. intros _. lra.
Qed.

Lemma loopFuel_enough (a : R) :
  a < INR (GameEngine.loopFuel a) * GameEngine.physicsStep.
Proof.
  unfold GameEngine.loopFuel, GameEngine.physicsStep.
  destruct (archimed (a / (1 / 120))) as [Hup _].
  assert (Hq : a / (1 / 120) = a * 120) by field.
  rewrite Hq in *. set (z := up (a * 120)) in *.
  destruct (Z_lt_le_dec z 0) as [Hneg|Hpos].
  - assert (IZR z < 0) by (apply (IZR_lt z 0); exact Hneg).
    replace (Z.to_nat z) with 0%nat by lia. simpl. lra.
  - rewrite INR_IZR_INZ, Z2Nat.id by exact Hpos. lra.
Qed.

(** X20.  A frame while the game is not playing (menu, paused, game over)
    runs no tick: it stores the clock reading and leaves less than one
    physics step on the accumulator, and every other member is as it
    was. *)
Theorem gameLoop_not_playing (t : R) (e : GameEngine) :
  gameState e <> playing ->
  exists a,
    GameEngine.gameLoop t e = with_accumulator a (with_lastTime t e) /\
    a < GameEngine.physicsStep.
Proof.
  intros Hs. unfold GameEngine.gameLoop. cbv zeta.
  set (e2 := with_accumulator _ (with_lastTime t e)).
  destruct (physicsLoop_not_playing (GameEngine.loopFuel (accumulator e2))
              e2 Hs) as (a & Heq & _ & Hexit).
  exists a. rewrite Heq. subst e2. rewrite with_accumulator_twice.
  split; [reflexivity|]. apply Hexit, loopFuel_enough.
Qed.

Lemma gameLoop_not_playing_witness :
  exists a,
    GameEngine.gameLoop 5000 (GameEngine.new 800 600 (fun _ => 0))
    = with_accumulator a
        (with_lastTime 5000 (GameEngine.new 800 600 (fun _ => 0))) /\
    a < GameEngine.physicsStep.
Proof.
  apply (gameLoop_not_playing 5000 (GameEngine.new 800 600 (fun _ => 0))).
  simpl. discriminate.
Defined.

Lemma physicsLoop_gameTime (fuel : nat) (e : GameEngine) :
  gameTime e <= gameTime (GameEngine.physicsLoop fuel e)
  <= gameTime e + Rmax 0 (accumulator e).
Proof.
  revert e. induction fuel as [|fuel IH]; intros e.
  - cbn [GameEngine.physicsLoop]. pose proof (Rmax_l 0 (accumulator e)). lra.
  - cbn [GameEngine.physicsLoop].
    destruct (Rle_dec GameEngine.physicsStep (accumulator e)) as [Hge|Hlt].
    + set (e1 := if isPlaying (gameState e)
                 then GameEngine.updatePhysics GameEngine.physicsStep e
                 else e).
      assert (Ha : accumulator e1 = accumulator e).
      { subst e1. destruct (isPlaying _);
          [apply updatePhysics_accumulator | reflexivity]. }
      assert (Ht : gameTime e <= gameTime e1
                   <= gameTime e + GameEngine.physicsStep).
      { subst e1. unfold GameEngine.physicsStep.
        destruct (isPlaying _); [rewrite updatePhysics_gameTime|]; lra. }
      specialize (IH (with_accumulator
                        (accumulator e1 - GameEngine.physicsStep) e1)).
      cbn [gameTime accumulator with_accumulator] in IH.
      unfold GameEngine.physicsStep in *.
      rewrite Rmax_right in IH by lra.
      rewrite Rmax_right by lra. lra.
    + pose proof (Rmax_l 0 (accumulator e)). lra.
Qed.

(** X21.  A frame never runs the game clock back, and however long the
    frame took it advances the clock by no more than the time left over
    from the frame before plus 250 ms. *)
Theorem gameLoop_catch_up (t : R) (e : GameEngine) :
  0 <= accumulator e ->
  gameTime e <= gameTime (GameEngine.gameLoop t e)
  <= gameTime e + accumulator e + 0.25.
Proof.
  intros Ha. unfold GameEngine.gameLoop. cbv zeta.
  set (e2 := with_accumulator _ (with_lastTime t e)).
  pose proof (physicsLoop_gameTime (GameEngine.loopFuel (accumulator e2)) e2)
    as H.
  set (e' := GameEngine.physicsLoop _ e2) in *. clearbody e'.
  change (gameTime e2) with (gameTime e) in H.
  change (accumulator e2)
    with (accumulator e + Rmin ((t - lastTime e) / 1000) 0.25) in H.
  pose proof (Rmin_r ((t - lastTime e) / 1000) 0.25).
  split; [apply H|]. eapply Rle_trans; [apply H|].
  apply Rmax_case_strong; lra.
Qed.

Lemma gameLoop_catch_up_witness :
  let e := GameEngine.startGame (GameEngine.new 800 600 (fun _ => 0)) in
  gameTime e <= gameTime (GameEngine.gameLoop 60000 e)
  <= gameTime e + accumulator e + 0.25.
Proof.
  intros e. apply (gameLoop_catch_up 60000 e). simpl. lra.
Defined.

End Frames.

(** ** The balloon and the camera *)

Section Climb.

Lemma updatePhysics_sway (dt : R) (e : GameEngine) :
  exists drift,
    -15 <= drift <= 15 /\
    x (position (balloonObject (balloon (GameEngine.updatePhysics dt e))))
    = canvasWidth e / 2 + drift /\
    x (velocity (balloonObject (balloon (GameEngine.updatePhysics dt e))))
    = drift.
Proof.
  rewrite updatePhysics_balloon.
  eexists. split; [|split; reflexivity]. apply drift_bounds.
Qed.

(** X22.  The climb of one tick.  In every state the engine can reach, a
    tick raises the balloon by at least 2/3 of a pixel (the base speed of 80
    pixels a second) and by at most 1.34 pixels.  Over exact arithmetic the
    speed stops at the cap of 160 pixels a second, 4/3 of a pixel a tick;
    the bound leaves room for the one more acceleration step of 1/30 that
    the test [currentSpeed < maxSpeed] lets through when rounding leaves
    the speed just below the cap. *)
Theorem tick_climb (w h : R) (random : nat -> R) (e : GameEngine) :
  reachable w h random e ->
  let e' := GameEngine.updatePhysics GameEngine.physicsStep e in
  balloonY e - 1.34 <= balloonY e' <= balloonY e - 2 / 3.
Proof.
  intros Hr e'.
  pose proof (reachable_balloonInvariant w h random e Hr) as Hi.
  destruct (balloonInvariant_tick h e Hi) as (Hi' & _).
  apply balloonInvariant_speed in Hi'. fold e' in Hi'.
  subst e'. rewrite updatePhysics_height.
  unfold GameEngine.physicsStep in *. lra.
Qed.

Lemma tick_climb_witness :
  let e := GameEngine.startGame (GameEngine.new 800 600 (fun _ => 0)) in
  let e' := GameEngine.updatePhysics GameEngine.physicsStep e in
  balloonY e - 1.34 <= balloonY e' <= balloonY e - 2 / 3.
Proof.
  intros e.
  apply (tick_climb 800 600 (fun _ => 0) e).
  apply (run_reachable 800 600 (fun _ => 0) [StartGame]).
Defined.

(** X23.  The balloon sways about the centre line and no more: in every
    state the engine can reach it is within 15 pixels of the middle of the
    canvas. *)
Theorem balloon_near_centre (w h : R) (random : nat -> R) (e : GameEngine) :
  reachable w h random e ->
  Rabs (x (position (balloonObject (balloon e))) - w / 2) <= 15.
Proof.
  intros Hr.
  enough (H : canvasWidth e = w /\
              Rabs (x (position (balloonObject (balloon e))) - w / 2) <= 15)
    by apply H.
  apply (steps_invariant (fun _ => true)
           (fun e => canvasWidth e = w /\
              Rabs (x (position (balloonObject (balloon e))) - w / 2) <= 15))
    with (e0 := GameEngine.new w h random); try exact Hr.
  - assert (Hstart : forall e1, canvasWidth e1 = w ->
        canvasWidth (GameEngine.startGame e1) = w /\
        Rabs (x (position (balloonObject (balloon (GameEngine.startGame e1))))
              - w / 2) <= 15).
    { intros e1 Hw. split; [exact Hw|]. cbn. rewrite Hw.
      unfold Rminus. rewrite Rplus_opp_r, Rabs_R0. lra. }
    intros e1 i H _ Hf. destruct i; try discriminate; cbn [exec];
      try exact H; try (apply Hstart, H).
    + unfold GameEngine.pauseGame. destruct (isPlaying _); exact H.
    + unfold GameEngine.resumeGame. destruct (isPaused _); exact H.
  - intros e1 t a H. exact H.
  - intros e1 [Hw _] _. rewrite updatePhysics_canvasWidth.
    split; [exact Hw|].
    destruct (updatePhysics_sway GameEngine.physicsStep e1)
      as (d & Hd & -> & _).
    rewrite Hw. apply Rabs_le. lra.
  - split; [reflexivity|]. cbn.
    unfold Rminus. rewrite Rplus_opp_r, Rabs_R0. lra.
Qed.

Lemma balloon_near_centre_witness :
  Rabs
    (x (position (balloonObject (balloon
       (run [StartGame; Frame 100]
          (GameEngine.new 800 600 (fun _ => 0))))))
     - 800 / 2) <= 15.
Proof.
  apply (balloon_near_centre 800 600 (fun _ => 0)).
  apply run_reachable.
Defined.

(** X24.  The camera keeps the balloon in view: in every state the engine
    can reach, the balloon is drawn between 100 and 400 pixels above the
    bottom edge of the canvas, and the camera has not gone below its
    start. *)
Theorem balloon_in_view (w h : R) (random : nat -> R) (e : GameEngine) :
  reachable w h random e ->
  cameraY e <= 0 /\
  h - 400 <= balloonY e - cameraY e <= h - 100.
Proof.
  intros Hr.
  enough (H : balloonInvariant h e /\ cameraY e <= 0 /\
              h - 400 <= balloonY e - cameraY e <= h - 100)
    by apply H.
  apply (steps_invariant (fun _ => true)
           (fun e => balloonInvariant h e /\ cameraY e <= 0 /\
              h - 400 <= balloonY e - cameraY e <= h - 100))
    with (e0 := GameEngine.new w h random); try exact Hr.
  - assert (Hstart : forall e1, balloonInvariant h e1 ->
        balloonInvariant h (GameEngine.startGame e1) /\
        cameraY (GameEngine.startGame e1) <= 0 /\
        h - 400 <= balloonY (GameEngine.startGame e1)
                   - cameraY (GameEngine.startGame e1) <= h - 100).
    { intros e1 Hi. split; [apply balloonInvariant_startGame; apply Hi|].
      destruct Hi as (Hh & _). unfold balloonY. cbn. rewrite Hh. lra. }
    intros e1 i H _ Hf. destruct i; try discriminate; cbn [exec];
      try exact H; try (apply Hstart, H).
    + unfold GameEngine.pauseGame. destruct (isPlaying _); exact H.
    + unfold GameEngine.resumeGame. destruct (isPaused _); exact H.
  - intros e1 t a H. exact H.
  - intros e1 (Hi & Hc & Hv) _.
    destruct (balloonInvariant_tick h e1 Hi) as (Hi' & Hdown & _).
    split; [exact Hi'|].
    rewrite updatePhysics_cameraY. cbv zeta.
    destruct Hi as (Hh & _). rewrite Hh.
    unfold GameEngine.CAMERA_DEAD_ZONE.
    destruct (Rlt_dec _ _) as [Hlt|Hge]; lra.
  - split; [apply balloonInvariant_new|].
    unfold balloonY. cbn. lra.
Qed.

Lemma balloon_in_view_witness :
  let e := run [StartGame; Frame 100] (GameEngine.new 800 600 (fun _ => 0)) in
  cameraY e <= 0 /\ 600 - 400 <= balloonY e - cameraY e <= 600 - 100.
Proof.
  intros e. apply (balloon_in_view 800 600 (fun _ => 0) e).
  apply run_reachable.
Defined.

End Climb.

(** ** Obstacles between collisions *)

Section Obstacles.

Lemma applyGravity_keeps (dt : R) (e : GameEngine) (o : Obstacle) :
  let o' := GameEngine.applyGravity dt e o in
  position o' = position o /\ active o' = active o /\
  lifeTime o' = lifeTime o /\ rotationSpeed o' = rotationSpeed o /\
  type o' = type o /\ angle o' = angle o.
Proof.
  unfold GameEngine.applyGravity.
  destruct (_ && isPlaying _); [|repeat split].
  cbv zeta. destruct (_ && _); repeat split.
Qed.

Lemma applyGravity_anchored (dt : R) (e : GameEngine) (o : Obstacle) :
  truthy (anchored o) = true -> GameEngine.applyGravity dt e o = o.
Proof. intros H. unfold GameEngine.applyGravity. rewrite H. reflexivity. Qed.

(** X25.  When an update retires an obstacle.  After the update of one
    obstacle it is active exactly if it was active before, its lifetime
    (if it has one) exceeds the step, and its new position is not more than
    200 pixels below the bottom edge of the camera window.  Nothing
    reactivates an obstacle. *)
Theorem updateObstacle_active (dt : R) (e : GameEngine) (o : Obstacle) :
  let o' := GameEngine.updateObstacle dt e o in
  active o' = true <->
  active o = true /\
  (forall t, lifeTime o = Some t -> dt < t) /\
  y (position o') <= cameraY e + canvasHeight e + 200.
Proof.
  unfold GameEngine.updateObstacle. cbv zeta.
  destruct (applyGravity_keeps dt e o) as (Hp & Ha & Hl & Hr & Ht & Hg).
  set (o1 := GameEngine.applyGravity dt e o) in *. clearbody o1.
  set (o3 := set_position _ (set_velocity _ o1)).
  assert (H3 : active o3 = active o /\ lifeTime o3 = lifeTime o)
    by (split; [exact Ha | exact Hl]).
  set (o4 := match rotationSpeed o3 with Some _ => _ | None => _ end).
  assert (H4 : active o4 = active o /\ lifeTime o4 = lifeTime o /\
               position o4 = position o3).
  { subst o4. destruct (rotationSpeed o3); [|tauto].
    destruct (_ && _); tauto. }
  clearbody o4. clearbody o3. destruct H4 as (H4a & H4l & H4p).
  set (o5 := match lifeTime o4 with Some _ => _ | None => _ end).
  assert (H5 : position o5 = position o4 /\
               (active o5 = true <->
                active o = true /\
                (forall t, lifeTime o = Some t -> dt < t))).
  { subst o5. rewrite <- H4l, <- H4a. destruct (lifeTime o4) as [t|].
    - cbv zeta. destruct (Rle_dec (t - dt) 0) as [Hle|Hgt].
      + split; [reflexivity|]. cbn [active set_active]. split.
        * discriminate.
        * intros (_ & H). specialize (H t eq_refl). lra.
      + split; [reflexivity|]. cbn [active set_lifeTime]. split.
        * intros H. split; [exact H|]. intros t' [= <-]. lra.
        * tauto.
    - split; [reflexivity|]. split; [|tauto].
      intros H. split; [exact H|]. discriminate. }
  clearbody o5. destruct H5 as (H5p & H5a).
  destruct (Rlt_dec _ _) as [Hlt|Hge].
  - cbn [active set_active position]. split; [discriminate|].
    intros (_ & _ & H). lra.
  - rewrite H5a. split; [|tauto]. intros (H1 & H2).
    split; [exact H1|]. split; [exact H2|]. lra.
Qed.

(** X26.  An anchored obstacle at rest stays where it is: the update
    applies no pull to it, so its position and its zero velocity are
    kept. *)
Theorem updateObstacle_anchored_at_rest (dt : R) (e : GameEngine)
  (o : Obstacle) :
  truthy (anchored o) = true -> velocity o = mkVector2 0 0 ->
  position (GameEngine.updateObstacle dt e o) = position o /\
  velocity (GameEngine.updateObstacle dt e o) = mkVector2 0 0.
Proof.
  intros Ha Hv. unfold GameEngine.updateObstacle. cbv zeta.
  rewrite (applyGravity_anchored dt e o Ha).
  set (o3 := set_position _ (set_velocity _ o)).
  assert (H3 : position o3 = position o /\ velocity o3 = mkVector2 0 0).
  { subst o3. cbn [position velocity set_position set_velocity x y].
    rewrite Hv. cbn [x y]. destruct (position o) as [px py]. cbn [x y].
    split; f_equal; lra. }
  set (o4 := match rotationSpeed o3 with Some _ => _ | None => _ end).
  assert (H4 : position o4 = position o /\ velocity o4 = mkVector2 0 0).
  { subst o4. destruct (rotationSpeed o3); [|exact H3].
    destruct (_ && _); exact H3. }
  clearbody o4. clearbody o3.
  set (o5 := match lifeTime o4 with Some _ => _ | None => _ end).
  assert (H5 : position o5 = position o /\ velocity o5 = mkVector2 0 0).
  { subst o5. destruct (lifeTime o4); [|exact H4].
    cbv zeta. destruct (Rle_dec _ _); exact H4. }
  clearbody o5. destruct (Rlt_dec _ _); exact H5.
Qed.

Lemma updateObstacle_anchored_at_rest_witness :
  let wall := mkGameObject (mkVector2 50 (-100)) (mkVector2 0 0) 25 "block"
                true (Some 100) (Some 50) None None (Some true) None None
                None None in
  let e := GameEngine.startGame (GameEngine.new 800 600 (fun _ => 0)) in
  position (GameEngine.updateObstacle (1 / 120) e wall) = position wall /\
  velocity (GameEngine.updateObstacle (1 / 120) e wall) = mkVector2 0 0.
Proof.
  intros wall e.
  apply (updateObstacle_anchored_at_rest (1 / 120) e wall); reflexivity.
Defined.

End Obstacles.

(** ** The opening of a game, and the settings *)

Section Opening.

Import PatternSystem.

(** At spawn depth 100 the selection executes block rain whatever is
    drawn: it is the only pattern in the pool, so the loop of the weighted
    selection or its fallback returns it. *)
Lemma spawnPattern_at_depth_100 (params : PatternParams)
  (ps : PatternSystem) (g : Rng) :
  patterns ps = initializePatterns -> spawnY params = -100 ->
  exists g',
    spawnPattern params ps g
    = executePattern (mkPattern "blockRain" 3 0 spawnBlockRain) params ps g'.
Proof.
  intros Hp Hy. unfold spawnPattern.
  rewrite Hp, (pool_at_depth_100 params Hy).
  unfold bind at 1. unfold selectWeightedPattern at 1.
  unfold bind at 1. unfold Math_random at 1.
  cbn [pickByWeight weight fold_left].
  set (g1 := mkRng _ _).
  assert (Hsel : exists g',
            (match
               (if Rle_dec (oracle g (drawn g) * (0 + 3) - 3) 0
                then Some (mkPattern "blockRain" 3 0 spawnBlockRain)
                else None)
             with
             | Some p => ret (Some p)
             | None => ret (last [mkPattern "blockRain" 3 0 spawnBlockRain])
             end) g1
            = (Some (mkPattern "blockRain" 3 0 spawnBlockRain), g')).
  { exists g1. destruct (Rle_dec _ _); reflexivity. }
  destruct Hsel as (g' & ->). exists g'.
  cbn [List.filter name String.eqb Ascii.eqb Bool.eqb negb].
  destruct (_ && _); reflexivity.
Qed.

Lemma updateSpawning_patternSystem (dt : R) (e : GameEngine) :
  patternSystem (GameEngine.updateSpawning dt e)
  = snd (fst (update dt
                (mkPatternParams (canvasWidth e / 2) (cameraY e - 100)
                   (Rabs (y (velocity (balloonObject (balloon e)))))
                   (radius (shieldObject (shield e)))
                   (Rmin 1 (gameTime e / 180)))
                (patternSystem e) (rng e))).
Proof.
  unfold GameEngine.updateSpawning. cbv zeta.
  destruct (update _ _ _ _) as [[os ps] g]. reflexivity.
Qed.

(** X27.  Every game opens with block rain.  The first tick after
    [startGame] finds the spawn timer run out and only block rain unlocked
    at the starting depth, so whatever is drawn the generator executes
    block rain, records it, and restarts the timer at the cooldown. *)
Theorem first_tick_spawns_blockRain (dt : R) (e : GameEngine) :
  patterns (patternSystem e) = initializePatterns ->
  0 <= dt ->
  let ps := patternSystem
              (GameEngine.updatePhysics dt (GameEngine.startGame e)) in
  patternHistory ps = ["blockRain"%string] /\
  spawnTimer ps = Rmax 0.55 (1.2 - Rmin 1 (dt / 180) * 0.65) /\
  lastSpawnY ps = -100.
Proof.
  intros Hp Hdt ps.
  assert (Hps : ps = patternSystem
                       (GameEngine.updateSpawning dt
                          (GameEngine.updateObstacles dt
                             (GameEngine.updateShield dt
                                (GameEngine.updateBalloon dt
                                   (GameEngine.updateInput dt
                                      (with_gameTime
                                         (gameTime (GameEngine.startGame e)
                                          + dt)
                                         (GameEngine.startGame e)))))))).
  { subst ps.
    destruct (updatePhysics_after_collisions dt (GameEngine.startGame e))
      as (_ & _ & -> & _).
    rewrite checkCollisions_patternSystem. unfold beforeCollisions.
    autorewrite with engine. reflexivity. }
  rewrite updateSpawning_patternSystem in Hps.
  autorewrite with engine in Hps.
  cbn [cameraY gameTime patternSystem with_gameTime] in Hps.
  change (cameraY (GameEngine.startGame e)) with 0 in Hps.
  change (gameTime (GameEngine.startGame e)) with 0 in Hps.
  change (patternSystem (GameEngine.startGame e))
    with (reset (patternSystem e)) in Hps.
  set (params := mkPatternParams _ _ _ _ _) in Hps.
  set (g := rng _) in Hps. clearbody g.
  assert (Hy : spawnY params = -100) by (subst params; cbn [spawnY]; lra).
  assert (Hd : difficulty params = Rmin 1 (dt / 180))
    by (subst params; cbn [difficulty]; f_equal; lra).
  clearbody params.
  unfold update in Hps. cbn [spawnTimer reset] in Hps.
  destruct (Rle_dec (0 - dt) 0) as [_|Hn]; [|exfalso; apply Hn; lra].
  cbv zeta in Hps. cbn [patterns lastSpawnY patternHistory reset] in Hps.
  set (ps1 := mkPatternSystem _ _ _ _ _) in Hps.
  destruct (spawnPattern_at_depth_100 params ps1 g Hp Hy) as (g' & Heq).
  rewrite Heq in Hps.
  destruct (executePattern_history
              (mkPattern "blockRain" 3 0 spawnBlockRain) params ps1 g')
    as (Hh & _).
  destruct (executePattern_timer
              (mkPattern "blockRain" 3 0 spawnBlockRain) params ps1 g')
    as (Ht & _ & Hl).
  rewrite <- Hps in Hh, Ht, Hl.
  split; [exact Hh|]. split; [|rewrite Hl; exact Hy].
  rewrite Ht. subst ps1. cbn [spawnTimer]. rewrite Hd. reflexivity.
Qed.

Lemma first_tick_spawns_blockRain_witness :
  patternHistory
    (patternSystem
       (GameEngine.updatePhysics (1 / 120)
          (GameEngine.startGame (GameEngine.new 800 600 (fun _ => 0)))))
  = ["blockRain"%string].
Proof.
  refine (proj1 (first_tick_spawns_blockRain (1 / 120)
                   (GameEngine.new 800 600 (fun _ => 0)) _ _)).
  - reflexivity.
  - lra.
Defined.

(** X28.  The settings stay in force.  In every state the engine can
    reach, the sensitivity is between 0.5 and 1.5, the radius of the shield
    is the radius of the chosen size (36, 42 or 48), and the smoothing
    factor of the shield is 0.28: no call, frame or restart breaks this. *)
Theorem settings_in_force (w h : R) (random : nat -> R) (e : GameEngine) :
  reachable w h random e ->
  0.5 <= sensitivity (settings e) <= 1.5 /\
  radius (shieldObject (shield e))
  = GameEngine.radiusOfSize (shieldSize (settings e)) /\
  36 <= radius (shieldObject (shield e)) <= 48 /\
  lerpFactor (shield e) = 0.28.
Proof.
  intros Hr.
  destruct (shieldSettled_reachable w h random e Hr) as (_ & _ & Hl & Hrad).
  unfold GameEngine.getShieldRadius in Hrad.
  split; [|split; [exact Hrad|split; [rewrite Hrad; apply radiusOfSize_bounds
                                     | exact Hl]]].
  apply (steps_invariant (fun _ => true)
           (fun e => 0.5 <= sensitivity (settings e) <= 1.5))
    with (e0 := GameEngine.new w h random); try exact Hr.
  - intros e1 i H _ Hf. destruct i; try discriminate; cbn [exec];
      try exact H.
    + unfold GameEngine.pauseGame. destruct (isPlaying _); exact H.
    + unfold GameEngine.resumeGame. destruct (isPaused _); exact H.
    + cbn. apply clamp_between. lra.
  - intros e1 t a H. exact H.
  - intros e1 H _. rewrite updatePhysics_settings. exact H.
  - cbn. lra.
Qed.

Lemma settings_in_force_witness :
  let e := run [SetSensitivity 7; SetShieldSize large; StartGame; Frame 40]
             (GameEngine.new 800 600 (fun _ => 0)) in
  0.5 <= sensitivity (settings e) <= 1.5 /\
  radius (shieldObject (shield e))
  = GameEngine.radiusOfSize (shieldSize (settings e)) /\
  36 <= radius (shieldObject (shield e)) <= 48 /\
  lerpFactor (shield e) = 0.28.
Proof.
  intros e. apply (settings_in_force 800 600 (fun _ => 0) e).
  apply run_reachable.
Defined.

End Opening.

(** ** Deflection by the shield *)

Section Deflection.

Lemma getObstacleMass_positive (t : string) :
  0 < GameEngine.getObstacleMass t.
Proof.
  unfold GameEngine.getObstacleMass.
  repeat (destruct (String.eqb t _); [lra|]). lra.
Qed.

Lemma half_product_bound (a b d : R) :
  -0.5 <= a <= 0.5 -> - d <= b <= d -> - (0.5 * d) <= a * b <= 0.5 * d.
Proof. intros Ha Hb. split; nra. Qed.

Lemma component_within_distance (dx dy : R) :
  - sqrt (dx * dx + dy * dy) <= dx <= sqrt (dx * dx + dy * dy).
Proof.
  assert (H0 : 0 <= dx * dx + dy * dy)
    by (apply Rplus_le_le_0_compat; apply Rle_0_sqr).
  pose proof (sqrt_pos (dx * dx + dy * dy)) as Hp.
  pose proof (sqrt_sqrt _ H0) as Hs.
  set (d := sqrt _) in *. clearbody d.
  pose proof (Rle_0_sqr dy) as Hy. unfold Rsqr in Hy.
  split; nra.
Qed.

(** X29.  A deflection pushes away from the shield.  For a free (not
    anchored) round obstacle whose centre is off the centre of the shield,
    and draws in [0, 1), the velocity the obstacle gains points away from
    the centre of the shield: its component along the line of centres is
    between 230 and 420 divided by the mass of the obstacle. *)
Theorem handleShieldCollision_pushes_away (e : GameEngine) (o : Obstacle)
  (c : CollisionInfo) (g : Rng) :
  CollisionSystem.isRectangular o = false ->
  truthy (anchored o) = false ->
  unitDraws g ->
  let dx := x (position o) - x (position (shieldObject (shield e))) in
  let dy := y (position o) - y (position (shieldObject (shield e))) in
  let distance := sqrt (dx * dx + dy * dy) in
  distance <> 0 ->
  let o' := fst (GameEngine.handleShieldCollision e o c g) in
  let gain :=
    (x (velocity o') - x (velocity o)) * (dx / distance)
    + (y (velocity o') - y (velocity o)) * (dy / distance) in
  let mass := GameEngine.getObstacleMass (type o) in
  230 / mass <= gain <= 420 / mass.
Proof.
  intros Hrect Hanch Hg dx dy distance Hd o' gain mass.
  pose proof (getObstacleMass_positive (type o)) as Hm. fold mass in Hm.
  pose proof (Hg (drawn g)) as Hr1.
  pose proof (Hg (S (drawn g))) as Hr2.
  assert (Hv : exists T,
             250 <= T <= 400 /\
             velocity o'
             = mkVector2
                 (x (velocity o) + dx / distance * T / mass
                  + (oracle g (drawn g) - 0.5) * 20 / mass)
                 (y (velocity o) + dy / distance * T / mass
                  + (oracle g (S (drawn g)) - 0.5) * 20 / mass)).
  { subst o'. unfold GameEngine.handleShieldCollision. rewrite Hrect.
    cbv zeta. fold dx dy. fold distance.
    destruct (Req_dec_T distance 0) as [H0|_]; [contradiction|].
    unfold GameEngine.applyImpulse. rewrite Hanch, Hrect. cbv zeta.
    fold mass. unfold bind, ret, Math_random.
    cbn [fst snd oracle drawn].
    set (sv := velocity (shieldObject (shield e))).
    set (speed := sqrt (x sv * x sv + y sv * y sv)).
    exists (250 + Rmin (speed * 0.3) 150). split.
    - pose proof (sqrt_pos (x sv * x sv + y sv * y sv)) as Hs.
      fold speed in Hs. pose proof (Rmin_r (speed * 0.3) 150).
      assert (0 <= Rmin (speed * 0.3) 150)
        by (apply Rmin_glb; lra).
      lra.
    - destruct (String.eqb _ "shard"); reflexivity. }
  destruct Hv as (T & HT & Hv).
  assert (H0 : 0 <= dx * dx + dy * dy)
    by (apply Rplus_le_le_0_compat; apply Rle_0_sqr).
  pose proof (sqrt_pos (dx * dx + dy * dy)) as Hpos. fold distance in Hpos.
  pose proof (sqrt_sqrt _ H0) as Hsq. fold distance in Hsq.
  pose proof (component_within_distance dx dy) as Hx. fold distance in Hx.
  pose proof (component_within_distance dy dx) as Hy.
  rewrite (Rplus_comm (dy * dy)) in Hy. fold distance in Hy.
  assert (Hdpos : 0 < distance) by lra.
  set (nx := dx / distance). set (ny := dy / distance).
  assert (Hnx : -1 <= nx <= 1).
  { unfold nx. split.
    - apply Rmult_le_reg_r with distance; [exact Hdpos|].
      unfold Rdiv. rewrite Rmult_assoc, Rinv_l by exact Hd. lra.
    - apply Rmult_le_reg_r with distance; [exact Hdpos|].
      unfold Rdiv. rewrite Rmult_assoc, Rinv_l by exact Hd. lra. }
  assert (Hny : -1 <= ny <= 1).
  { unfold ny. split.
    - apply Rmult_le_reg_r with distance; [exact Hdpos|].
      unfold Rdiv. rewrite Rmult_assoc, Rinv_l by exact Hd. lra.
    - apply Rmult_le_reg_r with distance; [exact Hdpos|].
      unfold Rdiv. rewrite Rmult_assoc, Rinv_l by exact Hd. lra. }
  assert (Hunit : nx * nx + ny * ny = 1).
  { unfold nx, ny.
    transitivity ((dx * dx + dy * dy) / (distance * distance));
      [field; exact Hd|].
    rewrite Hsq. field. rewrite <- Hsq. nra. }
  set (a := oracle g (drawn g) - 0.5) in *.
  set (b := oracle g (S (drawn g)) - 0.5) in *.
  assert (Hj1 : - (0.5 * 1) <= a * nx <= 0.5 * 1)
    by (apply half_product_bound; unfold a; lra).
  assert (Hj2 : - (0.5 * 1) <= b * ny <= 0.5 * 1)
    by (apply half_product_bound; unfold b; lra).
  assert (Hgain : gain = (T + 20 * (a * nx + b * ny)) / mass).
  { unfold gain. rewrite Hv. cbn [x y]. fold nx ny.
    transitivity ((T * (nx * nx + ny * ny) + 20 * (a * nx + b * ny)) / mass);
      [field; lra|].
    rewrite Hunit. f_equal. lra. }
  rewrite Hgain. unfold Rdiv.
  split; apply Rmult_le_compat_r;
    try (left; apply Rinv_0_lt_compat; exact Hm); lra.
Qed.

Lemma handleShieldCollision_pushes_away_witness :
  let e := GameEngine.startGame (GameEngine.new 800 600 (fun _ => 0)) in
  let spike := mkGameObject (mkVector2 400 400) (mkVector2 0 0) 25 "spike"
                 true None None (Some 0) None (Some false) None None None
                 None in
  let c := mkCollisionInfo 17 (mkVector2 0 (-1)) (mkVector2 400 408) in
  let dx := x (position spike) - x (position (shieldObject (shield e))) in
  let dy := y (position spike) - y (position (shieldObject (shield e))) in
  let distance := sqrt (dx * dx + dy * dy) in
  let o' := fst (GameEngine.handleShieldCollision e spike c (rng e)) in
  let gain :=
    (x (velocity o') - x (velocity spike)) * (dx / distance)
    + (y (velocity o') - y (velocity spike)) * (dy / distance) in
  230 / GameEngine.getObstacleMass (type spike) <= gain
  <= 420 / GameEngine.getObstacleMass (type spike).
Proof.
  intros e spike c.
  apply (handleShieldCollision_pushes_away e spike c (rng e)).
  - reflexivity.
  - reflexivity.
  - intros n. cbn. lra.
  - cbn. intros H. apply sqrt_eq_0 in H; lra.
Defined.

End Deflection.

Section Anchored.

(** X30.  The first hit on an anchored block.  The shield moves the block
    along the contact normal, by the separation of 2 pixels and a tenth of
    the reduced impulse 50 / 0.6, and the place it ends at is recorded as
    its original position; so the block is left at rest there.  No random
    number is drawn and the block stays active. *)
Theorem handleShieldCollision_anchored_block (e : GameEngine) (o : Obstacle)
  (c : CollisionInfo) (g : Rng) :
  type o = "block"%string ->
  anchored o = Some true ->
  originalPosition o = None ->
  let r := GameEngine.handleShieldCollision e o c g in
  position (fst r)
  = mkVector2 (x (position o) + x (normal c) * (2 + 25 / 3))
              (y (position o) + y (normal c) * (2 + 25 / 3)) /\
  velocity (fst r) = mkVector2 0 0 /\
  originalPosition (fst r) = Some (position (fst r)) /\
  active (fst r) = active o /\
  snd r = g.
Proof.
  intros Ht Ha Ho r. subst r.
  unfold GameEngine.handleShieldCollision, CollisionSystem.isRectangular.
  rewrite Ht. cbn [String.eqb Ascii.eqb Bool.eqb orb]. cbv zeta.
  unfold GameEngine.applyImpulse.
  cbn [anchored type originalPosition set_position position].
  rewrite Ha, Ht, Ho. cbn [truthy String.eqb Ascii.eqb Bool.eqb orb].
  cbv zeta. unfold bind, ret.
  cbn [fst snd type set_velocity set_originalPosition set_position
       String.eqb Ascii.eqb Bool.eqb position velocity originalPosition
       active x y].
  unfold GameEngine.getObstacleMass.
  rewrite ?Ht.
  cbn [String.eqb Ascii.eqb Bool.eqb position velocity originalPosition
       active set_velocity set_originalPosition set_position x y].
  repeat split; f_equal; lra.
Qed.

Lemma handleShieldCollision_anchored_block_witness :
  let e := GameEngine.startGame (GameEngine.new 800 600 (fun _ => 0)) in
  let wall := mkGameObject (mkVector2 50 430) (mkVector2 0 0) 25 "block"
                true (Some 100) (Some 50) None None (Some true) None None
                None None in
  let c := mkCollisionInfo 5 (mkVector2 (-1) 0) (mkVector2 100 440) in
  velocity (fst (GameEngine.handleShieldCollision e wall c (rng e)))
  = mkVector2 0 0.
Proof.
  intros e wall c.
  refine (proj1 (proj2 (handleShieldCollision_anchored_block e wall c (rng e)
                          _ _ _))); reflexivity.
Defined.

End Anchored.

(** * Repeats of a pattern in a run *)

Section Repeats.

Import PatternSystem.

(** Below altitude 50 block rain is the only pattern unlocked. *)
Lemma unlocked_below_50 (p : Pattern) (altitude : R) :
  altitude < 50 -> In p initializePatterns -> minAltitude p <= altitude ->
  p = mkPattern "blockRain" 3 0 spawnBlockRain.
Proof.
  intros Ha Hin Hp. unfold initializePatterns in Hin. cbn [In] in Hin.
  destruct Hin as [<-|[<-|[<-|[<-|[<-|[<-|[<-|[]]]]]]]];
    cbn [minAltitude] in Hp; try reflexivity; exfalso; lra.
Qed.

Lemma pool_has_blockRain (params : PatternParams) :
  In (mkPattern "blockRain" 3 0 spawnBlockRain)
    (List.filter (fun p => Rleb (minAltitude p) (Rabs (spawnY params) / 10))
       initializePatterns).
Proof.
  apply filter_In. split; [left; reflexivity|].
  cbn [minAltitude]. unfold Rleb.
  destruct (Rle_dec _ _) as [_|Hn]; [reflexivity|].
  exfalso. apply Hn. pose proof (Rabs_pos (spawnY params)). lra.
Qed.

(** The generator after the update of a tick that finds the timer run
    out: one pattern of the pool was executed, on the generator with its
    timer restarted. *)
Lemma update_spawns (dt : R) (params : PatternParams) (ps : PatternSystem)
  (g : Rng) :
  patterns ps = initializePatterns -> spawnTimer ps - dt <= 0 ->
  let cooldown := Rmax 0.55 (1.2 - difficulty params * 0.65) in
  let ps1 :=
    mkPatternSystem (patterns ps) cooldown cooldown (lastSpawnY ps)
      (patternHistory ps) in
  update dt params ps g = spawnPattern params ps1 g /\
  exists p g',
    In p (patterns ps) /\ minAltitude p <= Rabs (spawnY params) / 10 /\
    spawnPattern params ps1 g = executePattern p params ps1 g'.
Proof.
  intros Hp Ht cooldown ps1.
  assert (Hu : update dt params ps g = spawnPattern params ps1 g).
  { unfold update. destruct (Rle_dec _ _) as [_|Hn]; [reflexivity|].
    exfalso. apply Hn. exact Ht. }
  split; [exact Hu|].
  destruct (spawnPattern_cases params ps1 g)
    as [[He _]|(p & g' & Hin & Heq)].
  - exfalso. pose proof (pool_has_blockRain params) as Hb.
    cbn [patterns ps1] in He. rewrite Hp in He. rewrite He in Hb.
    destruct Hb.
  - exists p, g'. apply available_In in Hin.
    cbn [patterns ps1] in Hin. destruct Hin as [H1 H2].
    repeat split; assumption.
Qed.

(** The generator after a tick is the generator after [update], called
    with the camera offset and the canvas of the state before the tick and
    the clock after it. *)
Lemma updatePhysics_generator (dt : R) (e : GameEngine) :
  exists params,
    spawnY params = cameraY e - 100 /\
    centerX params = canvasWidth e / 2 /\
    difficulty params = Rmin 1 ((gameTime e + dt) / 180) /\
    patternSystem (GameEngine.updatePhysics dt e)
    = snd (fst (update dt params (patternSystem e) (rng e))).
Proof.
  assert (Hps : patternSystem (GameEngine.updatePhysics dt e)
                = patternSystem
                    (GameEngine.updateSpawning dt
                       (GameEngine.updateObstacles dt
                          (GameEngine.updateShield dt
                             (GameEngine.updateBalloon dt
                                (GameEngine.updateInput dt
                                   (with_gameTime (gameTime e + dt) e))))))).
  { destruct (updatePhysics_after_collisions dt e) as (_ & _ & -> & _).
    rewrite checkCollisions_patternSystem. unfold beforeCollisions.
    autorewrite with engine. reflexivity. }
  rewrite updateSpawning_patternSystem in Hps.
  autorewrite with engine in Hps.
  cbn [cameraY gameTime patternSystem rng canvasWidth with_gameTime] in Hps.
  eexists. split; [|split; [|split; [|exact Hps]]]; reflexivity.
Qed.

Lemma cooldown_bounds (d : R) :
  0 <= d -> 0.55 <= Rmax 0.55 (1.2 - Rmin 1 d * 0.65) <= 1.2.
Proof.
  intros Hd. split; [apply Rmax_l|].
  assert (0 <= Rmin 1 d) by (apply Rmin_glb; lra).
  apply Rmax_lub; lra.
Qed.

Lemma generatorInRun_reset (h : R) (e : GameEngine) :
  generatorInRun h e -> generatorInRun h (GameEngine.startGame e).
Proof.
  intros (Hb & Hp & _).
  pose proof (balloonInvariant_startGame h e (proj1 Hb) (proj1 (proj2 Hb)))
    as Hb'.
  destruct Hb as (Hh & _).
  unfold generatorInRun. cbv zeta.
  split; [exact Hb'|]. split; [exact Hp|].
  unfold balloonY. simpl. rewrite Hh.
  split; [lra|]. split; [lra|]. split; [lra|]. split; [lra|].
  intros _. split; [lra | constructor].
Qed.

Lemma generatorInRun_new (w h : R) (random : nat -> R) :
  generatorInRun h (GameEngine.new w h random).
Proof.
  unfold generatorInRun. cbv zeta.
  split; [apply balloonInvariant_new|]. split; [reflexivity|].
  unfold balloonY. simpl.
  split; [lra|]. split; [lra|]. split; [lra|]. split; [lra|].
  intros _. split; [lra | constructor].
Qed.

(** While fewer than three selections were made the spawn depth is above
    altitude 50. *)
Lemma early_altitude (h : R) (e : GameEngine) :
  generatorInRun h e ->
  (length (patternHistory (patternSystem e)) < 3)%nat ->
  Rabs (cameraY e - 100) / 10 < 50.
Proof.
  intros (_ & _ & Ht & Hs & Hc & Hv & Hearly) Hlen.
  destruct (Hearly Hlen) as (Hphi & _).
  assert (Hl : INR (length (patternHistory (patternSystem e))) <= 2).
  { change 2 with (INR 2). apply le_INR. lia. }
  rewrite Rabs_left by lra. lra.
Qed.

Lemma generatorInRun_tick (h : R) (e : GameEngine) :
  generatorInRun h e ->
  generatorInRun h (GameEngine.updatePhysics GameEngine.physicsStep e).
Proof.
  intros He.
  pose proof (early_altitude h e He) as Halt.
  destruct He as (Hb & Hp & Ht & Hs & Hc & Hv & Hearly).
  set (dt := GameEngine.physicsStep).
  set (e' := GameEngine.updatePhysics dt e).
  destruct (balloonInvariant_tick h e Hb) as (Hb' & Hdown & _).
  fold dt in Hb', Hdown. fold e' in Hb', Hdown.
  assert (Hclimb : balloonY e - 160 * dt <= balloonY e').
  { pose proof (balloonInvariant_speed h e' Hb') as Hsp.
    subst e'. rewrite updatePhysics_height.
    unfold dt, GameEngine.physicsStep in *. lra. }
  assert (Hcam : balloonY e' - h + 100 <= cameraY e' <= 0).
  { subst e'. rewrite updatePhysics_cameraY. cbv zeta.
    rewrite (proj1 Hb). unfold GameEngine.CAMERA_DEAD_ZONE.
    destruct (Rlt_dec _ _); lra. }
  assert (Htime : gameTime e' = gameTime e + dt)
    by apply updatePhysics_gameTime.
  destruct (updatePhysics_generator dt e) as (params & Hy & _ & Hd & Hps).
  fold e' in Hps.
  set (ps := patternSystem e) in *.
  assert (Hgen :
    patterns (patternSystem e') = initializePatterns /\
    0 <= spawnTimer (patternSystem e') /\
    ((length (patternHistory (patternSystem e')) < 3)%nat ->
     gameTime e + dt + spawnTimer (patternSystem e')
     <= INR (length (patternHistory (patternSystem e'))) * (1.2 + 1 / 120) /\
     Forall (fun n => n = "blockRain"%string)
       (patternHistory (patternSystem e')))).
  { rewrite Hps.
    destruct (Rle_dec (spawnTimer ps - dt) 0) as [Hout|Hrun].
    - destruct (update_spawns dt params ps (rng e) Hp Hout)
        as (-> & p & g' & Hin & Hmin & ->).
      set (ps1 := mkPatternSystem _ _ _ _ _).
      destruct (executePattern_history p params ps1 g') as (Hh & _ & Hpp).
      destruct (executePattern_timer p params ps1 g') as (Htm & _).
      rewrite Hh, Hpp, Htm. cbn [patterns spawnTimer patternHistory ps1].
      rewrite Hd.
      assert (Hcd : 0.55 <= Rmax 0.55
                              (1.2 - Rmin 1 ((gameTime e + dt) / 180) * 0.65)
                    <= 1.2).
      { apply cooldown_bounds. unfold dt, GameEngine.physicsStep. lra. }
      split; [exact Hp|]. split; [lra|].
      destruct (5 <? length (patternHistory ps ++ [name p]))%nat eqn:H5.
      + intros Hlen. exfalso. apply Nat.ltb_lt in H5.
        destruct (patternHistory ps ++ [name p]) as [|n0 l0];
          simpl in *; lia.
      + rewrite length_app. cbn [length]. intros Hlen.
        assert (Hlen0 : (length (patternHistory ps) < 3)%nat) by lia.
        destruct (Hearly Hlen0) as (Hphi & Hall).
        rewrite Nat.add_1_r, S_INR.
        unfold dt, GameEngine.physicsStep in Hcd |- *.
        split; [lra|].
        apply Forall_app. split; [exact Hall|].
        constructor; [|constructor].
        rewrite Hp in Hin. rewrite Hy in Hmin.
        rewrite (unlocked_below_50 p _ (Halt Hlen0) Hin Hmin). reflexivity.
    - unfold update. destruct (Rle_dec _ _) as [Hout|_]; [contradiction|].
      unfold ret. cbn [fst snd patterns spawnTimer patternHistory].
      split; [exact Hp|]. split; [lra|].
      intros Hlen. destruct (Hearly Hlen) as (Hphi & Hall).
      split; [lra | exact Hall]. }
  destruct Hgen as (G1 & G2 & G3).
  unfold generatorInRun. cbv zeta.
  split; [exact Hb'|]. split; [exact G1|].
  rewrite Htime. unfold dt, GameEngine.physicsStep in *.
  split; [lra|]. split; [exact G2|]. split; [lra|]. split; [exact Hcam|].
  exact G3.
Qed.

Lemma generatorInRun_reachable (w h : R) (random : nat -> R)
  (e : GameEngine) :
  reachable w h random e -> generatorInRun h e.
Proof.
  intros Hr.
  refine (steps_invariant _ (generatorInRun h) _ _ _ _ _ Hr _).
  - intros e1 i He1 _ Hf. destruct i; try discriminate; cbn [exec];
      try exact He1.
    + apply generatorInRun_reset, He1.
    + unfold GameEngine.pauseGame. destruct (isPlaying _); exact He1.
    + unfold GameEngine.resumeGame. destruct (isPaused _); exact He1.
    + apply generatorInRun_reset, He1.
  - intros e1 t a He1. exact He1.
  - intros e1 He1 _. apply generatorInRun_tick, He1.
  - apply generatorInRun_new.
Qed.

Lemma lastTwo_In (l : list string) (N : string) :
  lastTwo l = [N; N] -> In N l /\ (2 <= length l)%nat.
Proof.
  unfold lastTwo. intros H.
  assert (Hin : In N (skipn (length l - 2) l)) by (rewrite H; left; reflexivity).
  split.
  - rewrite <- (firstn_skipn (length l - 2) l). apply in_or_app. right.
    exact Hin.
  - assert (Hlen : length (skipn (length l - 2) l) = 2%nat)
      by (rewrite H; reflexivity).
    rewrite length_skipn in Hlen. lia.
Qed.

(** C7.  Every selection of a run.  In every state the engine can reach
    in which the timer has run out, so that the next tick selects: if the
    two latest selections since the last reset both returned the name [N]
    and the altitude-filtered pool of the tick holds a pattern with another
    name (in particular when it holds two), then at least three selections
    were made, so the guard of [spawnPattern] is met, and the pattern that
    the tick executes is one of the pool whose name is not [N]. *)
Theorem selection_no_third_repeat (w h : R) (random : nat -> R)
  (e : GameEngine) (N : string) :
  reachable w h random e ->
  let ps := patternSystem e in
  let altitude := Rabs (cameraY e - 100) / 10 in
  spawnTimer ps <= GameEngine.physicsStep ->
  lastTwo (patternHistory ps) = [N; N] ->
  (exists q, In q (patterns ps) /\ minAltitude q <= altitude /\ name q <> N) ->
  (3 <= length (patternHistory ps))%nat /\
  exists p,
    In p (patterns ps) /\ minAltitude p <= altitude /\ name p <> N /\
    latestSelection
      (patternSystem (GameEngine.updatePhysics GameEngine.physicsStep e))
    = Some (name p).
Proof.
  intros Hr ps altitude Hout Htwo (q & Hq & Hqa & HqN).
  pose proof (generatorInRun_reachable w h random e Hr) as He.
  assert (Hlen : (3 <= length (patternHistory ps))%nat).
  { destruct (Nat.lt_ge_cases (length (patternHistory ps)) 3) as [Hlt|Hge];
      [exfalso | exact Hge].
    pose proof (early_altitude h e He Hlt) as Halt.
    destruct He as (_ & Hp & _ & _ & _ & _ & Hearly).
    destruct (Hearly Hlt) as (_ & Hall).
    fold ps in Hp, Hall. rewrite Hp in Hq.
    rewrite (unlocked_below_50 q _ Halt Hq Hqa) in HqN. cbn [name] in HqN.
    destruct (lastTwo_In _ _ Htwo) as (HN & _).
    eapply List.Forall_forall in Hall; [|exact HN]. congruence. }
  split; [exact Hlen|].
  destruct He as (_ & Hp & _). fold ps in Hp.
  destruct (updatePhysics_generator GameEngine.physicsStep e)
    as (params & Hy & _ & _ & Hps).
  fold ps in Hps.
  destruct (update_spawns GameEngine.physicsStep params ps (rng e) Hp
              ltac:(lra)) as (Hu & _).
  rewrite Hu in Hps.
  set (ps1 := mkPatternSystem _ _ _ _ _) in Hps.
  destruct (spawnPattern_avoids_repeat params ps1 (rng e) N)
    as (p & Hin & Hmin & HpN & Hlast).
  - exact Hlen.
  - exact Htwo.
  - exists q. rewrite Hy. repeat split; assumption.
  - exists p. rewrite Hy in Hmin. unfold latestSelection. rewrite Hps.
    repeat split; assumption.
Qed.

(** The timer after a tick: restarted at the cooldown when it has run out,
    counted down otherwise. *)
Lemma updatePhysics_timer (dt : R) (e : GameEngine) :
  patterns (patternSystem e) = initializePatterns ->
  spawnTimer (patternSystem (GameEngine.updatePhysics dt e))
  = if Rle_dec (spawnTimer (patternSystem e) - dt) 0
    then Rmax 0.55 (1.2 - Rmin 1 ((gameTime e + dt) / 180) * 0.65)
    else spawnTimer (patternSystem e) - dt.
Proof.
  intros Hp.
  destruct (updatePhysics_generator dt e) as (params & _ & _ & Hd & ->).
  destruct (Rle_dec _ _) as [Hout|Hrun].
  - destruct (update_spawns dt params (patternSystem e) (rng e) Hp Hout)
      as (-> & p & g' & _ & _ & ->).
    destruct (executePattern_timer p params
                (mkPatternSystem (patterns (patternSystem e))
                   (Rmax 0.55 (1.2 - difficulty params * 0.65))
                   (Rmax 0.55 (1.2 - difficulty params * 0.65))
                   (lastSpawnY (patternSystem e))
                   (patternHistory (patternSystem e))) g') as (-> & _).
    cbn [spawnTimer]. rewrite Hd. reflexivity.
  - unfold update. destruct (Rle_dec _ _) as [Hout|_]; [contradiction|].
    reflexivity.
Qed.

End Repeats.

(** ** The calm run while block rain is the only pattern unlocked *)

Section QuietRun.

Import PatternSystem.

Lemma pool_below_50 (params : PatternParams) :
  Rabs (spawnY params) / 10 < 50 ->
  List.filter (fun p => Rleb (minAltitude p) (Rabs (spawnY params) / 10))
    initializePatterns
  = [mkPattern "blockRain" 3 0 spawnBlockRain].
Proof.
  intros Ha. pose proof (Rabs_pos (spawnY params)) as H0.
  set (altitude := Rabs (spawnY params) / 10) in *.
  assert (H1 : 0 <= altitude) by (unfold altitude; lra).
  clearbody altitude.
  unfold initializePatterns, Rleb. cbn [List.filter minAltitude].
  decide_reals. reflexivity.
Qed.

Lemma Forall_tl {A : Type} (P : A -> Prop) (l : list A) :
  Forall P l -> Forall P (tl l).
Proof. intros H. destruct H; [constructor | assumption]. Qed.

Lemma spawnPattern_quiet (params : PatternParams) (ps : PatternSystem)
  (g : Rng) :
  oracle g = (fun _ => 0) ->
  patterns ps = initializePatterns ->
  Rabs (spawnY params) / 10 < 50 ->
  centerX params = 960 -> shieldRadius params = 42 ->
  Forall (fun n => n = "blockRain"%string) (patternHistory ps) ->
  let r := spawnPattern params ps g in
  Forall calmObstacle (fst (fst r)) /\
  patterns (snd (fst r)) = initializePatterns /\
  oracle (snd r) = (fun _ => 0) /\
  Forall (fun n => n = "blockRain"%string) (patternHistory (snd (fst r))).
Proof.
  intros Hg Hp Hy Hc Hr Hh r.
  set (p := mkPattern "blockRain" 3 0 spawnBlockRain).
  set (g1 := mkRng (fun _ => 0) (S (drawn g))).
  assert (Heq : r = executePattern p params ps g1).
  { subst r. unfold spawnPattern.
    rewrite Hp, (pool_below_50 params Hy).
    unfold bind at 1. unfold selectWeightedPattern at 1.
    unfold bind at 1. unfold Math_random at 1. rewrite Hg.
    cbn [pickByWeight weight fold_left].
    destruct (Rle_dec _ _) as [_|Hn]; [|exfalso; apply Hn; lra].
    unfold ret at 1. cbn [List.filter name String.eqb Ascii.eqb Bool.eqb negb].
    destruct (_ && _); reflexivity. }
  rewrite Heq.
  destruct (executePattern_history p params ps g1) as (Hhist & _ & _).
  assert (Hall : Forall (fun n => n = "blockRain"%string)
                   (patternHistory (snd (fst (executePattern p params ps g1))))).
  { rewrite Hhist.
    assert (Hpushed : Forall (fun n => n = "blockRain"%string)
                        (patternHistory ps ++ [name p])).
    { apply Forall_app. split; [exact Hh|].
      constructor; [reflexivity | constructor]. }
    destruct (_ <? _)%nat; [apply Forall_tl|]; exact Hpushed. }
  revert Hall. unfold executePattern, bind, ret. cbn [spawn p].
  destruct (spawnBlockRain_calm params g1 eq_refl Hc Hr)
    as (os & g2 & -> & Ho & Hg2).
  cbn [fst snd patterns patternHistory]. auto.
Qed.

Lemma update_quiet (dt : R) (params : PatternParams) (ps : PatternSystem)
  (g : Rng) :
  oracle g = (fun _ => 0) ->
  patterns ps = initializePatterns ->
  Rabs (spawnY params) / 10 < 50 \/ dt < spawnTimer ps ->
  centerX params = 960 -> shieldRadius params = 42 ->
  Forall (fun n => n = "blockRain"%string) (patternHistory ps) ->
  let r := update dt params ps g in
  Forall calmObstacle (fst (fst r)) /\
  patterns (snd (fst r)) = initializePatterns /\
  oracle (snd r) = (fun _ => 0) /\
  Forall (fun n => n = "blockRain"%string) (patternHistory (snd (fst r))).
Proof.
  intros Hg Hp Hy Hc Hr Hh. unfold update.
  destruct (Rle_dec _ _) as [Hout|Hrun].
  - destruct Hy as [Hy|Hy]; [|exfalso; lra].
    apply spawnPattern_quiet; assumption.
  - simpl. auto.
Qed.

End QuietRun.

Lemma updateSpawning_quiet (dt : R) (e : GameEngine) :
  -400 < cameraY e \/ dt < spawnTimer (patternSystem e) ->
  cameraY e <= 0 -> canvasWidth e = 1920 ->
  radius (shieldObject (shield e)) = 42 ->
  patterns (patternSystem e) = PatternSystem.initializePatterns ->
  oracle (rng e) = (fun _ => 0) ->
  Forall calmObstacle (obstacles e) ->
  Forall (fun n => n = "blockRain"%string)
    (patternHistory (patternSystem e)) ->
  let e' := GameEngine.updateSpawning dt e in
  Forall calmObstacle (obstacles e') /\
  patterns (patternSystem e') = PatternSystem.initializePatterns /\
  oracle (rng e') = (fun _ => 0) /\
  Forall (fun n => n = "blockRain"%string)
    (patternHistory (patternSystem e')).
Proof.
  intros Hc Hc0 Hw Hr Hp Hg Ho Hh e'. subst e'.
  unfold GameEngine.updateSpawning.
  set (params := mkPatternParams _ _ _ _ _).
  assert (H : let r := PatternSystem.update dt params (patternSystem e) (rng e)
              in Forall calmObstacle (fst (fst r)) /\
                 patterns (snd (fst r)) = PatternSystem.initializePatterns /\
                 oracle (snd r) = (fun _ => 0) /\
                 Forall (fun n => n = "blockRain"%string)
                   (patternHistory (snd (fst r)))).
  { apply update_quiet; try assumption; subst params;
      cbn [spawnY centerX shieldRadius].
    - destruct Hc as [Hc|Hc]; [left | right; exact Hc].
      rewrite Rabs_left by lra. lra.
    - rewrite Hw. lra. }
  destruct (PatternSystem.update dt params (patternSystem e) (rng e))
    as [[os ps] g]. simpl in H. destruct H as (H1 & H2 & H3 & H4).
  cbn [obstacles patternSystem rng with_rng with_patternSystem with_obstacles].
  split; [apply Forall_app; split; assumption|]. auto.
Qed.

Lemma quiet_clock (n : nat) (e : GameEngine) (t a : R) :
  Quiet n e -> Quiet n (with_accumulator a (with_lastTime t e)).
Proof. intros Q. destruct Q. constructor; assumption. Qed.

Lemma quiet_target (n : nat) (dt : R) (e : GameEngine) :
  Quiet n e -> x (targetPosition (shield (afterInput dt e))) = 960.
Proof.
  intros Q. rewrite (afterInput_target dt e (quiet_state n e Q)).
  unfold GameEngine.rawTarget, GameEngine.keyboardDelta.
  rewrite !(held_none _ e (quiet_keys n e Q)). cbn [x y].
  unfold Reqb. destruct (Req_dec_T 0 0) as [_|Hn]; [|congruence].
  cbn [negb orb]. unfold GameEngine.clampTarget.
  rewrite (quiet_mouse n e Q), (quiet_sens n e Q), (quiet_sr n e Q),
    (quiet_width n e Q).
  cbn [x y]. rewrite Rmin_right by lra. rewrite Rmax_right by lra. lra.
Qed.

(** The balloon of the run after one more tick. *)
Lemma quiet_balloon (n : nat) (e : GameEngine) :
  Quiet n e -> (n < 2400)%nat ->
  let b := balloon (GameEngine.updatePhysics GameEngine.physicsStep e) in
  acceleration b = 4 /\
  y (velocity (balloonObject b)) = - (80 + INR (S n) / 30) /\
  y (position (balloonObject b))
  = 980 - 2 * INR (S n) / 3 - INR (S n) * (INR (S n) + 1) / 7200 /\
  945 <= x (position (balloonObject b)) <= 975 /\
  radius (balloonObject b) = 22.
Proof.
  intros Q Hn b. subst b. rewrite updatePhysics_balloon.
  set (e1 := with_gameTime _ e).
  assert (Hv : balloonVy (GameEngine.updateBalloon GameEngine.physicsStep e1)
               = - (80 + INR (S n) / 30)).
  { rewrite updateBalloon_velocity.
    change (acceleration (balloon e1)) with (acceleration (balloon e)).
    change (balloonVy e1) with (balloonVy e).
    change (gameTime e1) with (gameTime e + GameEngine.physicsStep).
    rewrite (quiet_accel n e Q), (quiet_vy n e Q), (quiet_time n e Q).
    unfold GameEngine.BALLOON_MAX_VELOCITY, GameEngine.BALLOON_BASE_VELOCITY,
      GameEngine.physicsStep.
    rewrite S_INR.
    assert (H0 : 0 <= INR n) by apply pos_INR.
    assert (H1 : INR n < 2400) by (rewrite <- INR_2400; apply lt_INR, Hn).
    rewrite Rabs_Ropp, Rabs_pos_eq by lra.
    destruct (Rlt_dec _ _) as [_|Hge]; [lra|].
    exfalso. apply Hge. apply Rmin_glb_lt; lra. }
  assert (Hy : balloonY (GameEngine.updateBalloon GameEngine.physicsStep e1)
               = 980 - 2 * INR (S n) / 3
                 - INR (S n) * (INR (S n) + 1) / 7200).
  { rewrite updateBalloon_height, Hv.
    change (balloonY e1) with (balloonY e). rewrite (quiet_by n e Q).
    unfold GameEngine.physicsStep. rewrite S_INR. field. }
  split; [exact (quiet_accel n e Q)|]. split; [exact Hv|].
  split; [exact Hy|].
  unfold GameEngine.updateBalloon.
  cbn [balloon with_balloon balloonObject position set_position x radius
       set_velocity].
  change (canvasWidth e1) with (canvasWidth e).
  rewrite (quiet_width n e Q). split; [|exact (quiet_br n e Q)].
  set (a := driftOffset _ + _).
  pose proof (drift_bounds a (a * 2.3)). lra.
Qed.

(** The shield of the run stays on the centre line. *)
Lemma quiet_shield (n : nat) (e : GameEngine) :
  Quiet n e ->
  let s := shield (GameEngine.updatePhysics GameEngine.physicsStep e) in
  x (position (shieldObject s)) = 960 /\
  radius (shieldObject s) = 42 /\
  lerpFactor s = 0.28.
Proof.
  intros Q s. subst s.
  destruct (updatePhysics_shield GameEngine.physicsStep e)
    as (_ & Hl & Hr & Hx & _).
  rewrite (quiet_target n _ e Q) in Hx.
  rewrite (quiet_lerp n e Q) in Hl, Hx.
  rewrite (quiet_sx n e Q) in Hx.
  rewrite (quiet_sr n e Q) in Hr.
  rewrite Hx, Hl, Hr. repeat split; lra.
Qed.

(** In the run no obstacle touches the balloon or the shield, and
    [checkCollisions] changes nothing. *)
Lemma quiet_beforeCollisions (n : nat) (e : GameEngine) :
  Quiet n e -> (n < 2400)%nat ->
  -400 < cameraY e
  \/ GameEngine.physicsStep < spawnTimer (patternSystem e) ->
  let e7 := beforeCollisions GameEngine.physicsStep e in
  GameEngine.checkCollisions e7 = e7 /\
  Forall calmObstacle (obstacles e7) /\
  patterns (patternSystem e7) = PatternSystem.initializePatterns /\
  oracle (rng e7) = (fun _ => 0) /\
  Forall (fun n => n = "blockRain"%string)
    (patternHistory (patternSystem e7)).
Proof.
  intros Q Hn Hcam e7.
  set (dt := GameEngine.physicsStep) in *.
  destruct (quiet_shield n e Q) as (Hsx & Hsr & _).
  destruct (quiet_balloon n e Q Hn) as (_ & _ & _ & Hbx & Hbr).
  fold dt in Hsx, Hsr, Hbx, Hbr.
  rewrite updatePhysics_shieldObject in Hsx, Hsr.
  rewrite <- beforeCollisions_balloon in Hbx, Hbr.
  fold e7 in Hsx, Hsr, Hbx, Hbr.
  set (e4 := GameEngine.updateShield dt
               (GameEngine.updateBalloon dt (afterInput dt e))).
  assert (H4 : shield e7 = shield e4).
  { subst e7 e4. unfold beforeCollisions. autorewrite with engine.
    reflexivity. }
  assert (Ho5 : Forall calmObstacle
                  (obstacles (GameEngine.updateObstacles dt e4))).
  { apply updateObstacles_calm.
    - rewrite <- H4. exact Hsx.
    - subst e4. unfold afterInput. autorewrite with engine.
      exact (quiet_obstacles n e Q). }
  assert (Hc0 : cameraY e <= 0).
  { rewrite (quiet_camera n e Q). apply Rmin_l. }
  destruct (updateSpawning_quiet dt (GameEngine.updateObstacles dt e4))
    as (Ho6 & Hp6 & Hg6 & Hh6); try exact Ho5.
  { subst e4. unfold afterInput. autorewrite with engine.
    cbn [cameraY patternSystem with_gameTime]. exact Hcam. }
  { subst e4. unfold afterInput. autorewrite with engine.
    cbn [cameraY with_gameTime]. exact Hc0. }
  { subst e4. unfold afterInput. autorewrite with engine.
    exact (quiet_width n e Q). }
  { autorewrite with engine. rewrite <- H4. exact Hsr. }
  { subst e4. unfold afterInput. autorewrite with engine.
    exact (quiet_patterns n e Q). }
  { subst e4. unfold afterInput. autorewrite with engine.
    exact (quiet_oracle n e Q). }
  { subst e4. unfold afterInput. autorewrite with engine.
    exact (quiet_history n e Q). }
  assert (Ho7 : obstacles e7
                = obstacles (GameEngine.updateSpawning dt
                               (GameEngine.updateObstacles dt e4))).
  { subst e7 e4. unfold beforeCollisions. autorewrite with engine.
    reflexivity. }
  assert (Hp7 : patternSystem e7
                = patternSystem (GameEngine.updateSpawning dt
                                   (GameEngine.updateObstacles dt e4))).
  { subst e7 e4. unfold beforeCollisions. autorewrite with engine.
    reflexivity. }
  assert (Hg7 : rng e7
                = rng (GameEngine.updateSpawning dt
                         (GameEngine.updateObstacles dt e4))).
  { subst e7 e4. unfold beforeCollisions. autorewrite with engine.
    reflexivity. }
  rewrite Ho7, Hp7, Hg7. split; [|auto].
  apply checkCollisions_no_contact; rewrite Ho7;
    eapply Forall_impl; try exact Ho6; intros o Hco;
    apply calm_no_collision; try exact Hco; lra.
Qed.

(** One tick of the run. *)
Lemma quiet_tick (n : nat) (e : GameEngine) :
  Quiet n e -> (n < 2400)%nat ->
  -400 < cameraY e
  \/ GameEngine.physicsStep < spawnTimer (patternSystem e) ->
  let e' := GameEngine.updatePhysics GameEngine.physicsStep e in
  Quiet (S n) e' /\
  accumulator e' = accumulator e /\
  lastTime e' = lastTime e.
Proof.
  intros Q Hn Hcam e'.
  destruct (quiet_balloon n e Q Hn) as (Ba & Bv & By & Bx & Br).
  destruct (quiet_shield n e Q) as (Sx & Sr & Sl).
  destruct (quiet_beforeCollisions n e Q Hn Hcam) as (Hcc & Ho & Hp & Hg & Hh).
  destruct (updatePhysics_after_collisions GameEngine.physicsStep e)
    as (Es & Eo & Ep & Eg).
  rewrite Hcc in Es, Eo, Ep, Eg.
  fold e' in Ba, Bv, By, Bx, Br, Sx, Sr, Sl, Es, Eo, Ep, Eg.
  split; [|split].
  - constructor; unfold balloonVy, balloonY; try assumption.
    + subst e'. rewrite updatePhysics_canvasWidth. exact (quiet_width n e Q).
    + subst e'. rewrite updatePhysics_canvasHeight.
      exact (quiet_height n e Q).
    + rewrite Es. unfold beforeCollisions. autorewrite with engine.
      exact (quiet_state n e Q).
    + subst e'. rewrite updatePhysics_gameTime, (quiet_time n e Q), S_INR.
      unfold GameEngine.physicsStep. lra.
    + assert (Hdown : balloonY e' <= balloonY e).
      { unfold balloonY at 1. rewrite By. rewrite (quiet_by n e Q), S_INR.
        pose proof (pos_INR n). nra. }
      unfold balloonY in Hdown.
      subst e'. rewrite updatePhysics_cameraY. cbv zeta.
      rewrite (quiet_height n e Q), (quiet_camera n e Q).
      unfold GameEngine.CAMERA_DEAD_ZONE, balloonY in *.
      destruct (Rlt_dec _ _) as [Hlt|Hge];
        unfold Rmin in *; repeat destruct (Rle_dec _ _); lra.
    + rewrite Eo. apply Forall_filter_active, Ho.
    + subst e'. rewrite updatePhysics_keys. exact (quiet_keys n e Q).
    + subst e'. rewrite updatePhysics_worldMousePosition.
      exact (quiet_mouse n e Q).
    + subst e'. rewrite updatePhysics_settings. exact (quiet_sens n e Q).
    + rewrite Ep. exact Hp.
    + rewrite Eg. exact Hg.
    + rewrite Ep. exact Hh.
  - subst e'. apply updatePhysics_accumulator.
  - subst e'. apply updatePhysics_lastTime.
Qed.

Ltac nat_tests :=
  repeat match goal with
  | |- context [(?a <? ?b)%nat] =>
      first [ rewrite (proj2 (Nat.ltb_lt a b)) by lia
            | rewrite (proj2 (Nat.ltb_ge a b)) by lia ]
  | |- context [(?a =? ?b)%nat] =>
      first [ rewrite (proj2 (Nat.eqb_eq a b)) by lia
            | rewrite (proj2 (Nat.eqb_neq a b)) by lia ]
  end.

Lemma INR_literal (n : nat) (z : Z) : Z.of_nat n = z -> INR n = IZR z.
Proof. intros <-. apply INR_IZR_INZ. Qed.

(** The timer of the calm run from one tick to the next: it has run out
    and is restarted, or it is counted down. *)
Lemma calmTimer_step (n : nat) :
  (n <= 998)%nat ->
  (calmTimer n - 1 / 120 <= 0 /\ calmTimer (S n) = calmCooldown (S n)) \/
  (0 < calmTimer n - 1 / 120 /\ calmTimer (S n) = calmTimer n - 1 / 120).
Proof.
  intros Hn.
  assert (Hz : INR n = IZR (Z.of_nat n)) by apply INR_IZR_INZ.
  assert (Hcases :
    n = 0%nat \/ (1 <= n <= 143)%nat \/ n = 144%nat \/
    (145 <= n <= 287)%nat \/ n = 288%nat \/
    (289 <= n <= 430)%nat \/ n = 431%nat \/
    (432 <= n <= 573)%nat \/ n = 574%nat \/
    (575 <= n <= 715)%nat \/ n = 716%nat \/
    (717 <= n <= 857)%nat \/ n = 858%nat \/
    (859 <= n <= 998)%nat) by lia.
  unfold calmTimer, lastSpawn, calmCooldown.
  destruct Hcases as [H|[H|[H|[H|[H|[H|[H|[H|[H|[H|[H|[H|[H|H]]]]]]]]]]]]];
    nat_tests; rewrite ?(S_INR n);
    rewrite ?(INR_literal 1 1 eq_refl), ?(INR_literal 145 145 eq_refl),
      ?(INR_literal 289 289 eq_refl), ?(INR_literal 432 432 eq_refl),
      ?(INR_literal 575 575 eq_refl), ?(INR_literal 717 717 eq_refl),
      ?(INR_literal 859 859 eq_refl);
    rewrite Hz;
    match type of H with
    | n = ?k =>
        let z := eval vm_compute in (Z.of_nat k) in
        assert (Hv : IZR (Z.of_nat n) = IZR z) by (rewrite H; reflexivity)
    | (?a <= n <= ?b)%nat =>
        let za := eval vm_compute in (Z.of_nat a) in
        let zb := eval vm_compute in (Z.of_nat b) in
        assert (Hlo : IZR za <= IZR (Z.of_nat n)) by (apply IZR_le; lia);
        assert (Hhi : IZR (Z.of_nat n) <= IZR zb) by (apply IZR_le; lia)
    end;
    first [left; split; lra | right; split; lra].
Qed.

(** The balloon of the run is above height 280 through tick 886, so the
    camera offset is above -400. *)
Lemma quiet_height_low (m : R) :
  0 <= m <= 886 -> 280 < 980 - 2 * m / 3 - m * (m + 1) / 7200.
Proof. intros H. nra. Qed.

(** From tick 887 to tick 998 the timer of the calm run is running. *)
Lemma calmTimer_late (n : nat) :
  (887 <= n <= 998)%nat -> 1 / 120 < calmTimer n.
Proof.
  intros H.
  assert (Hhi : INR n <= 998).
  { rewrite INR_IZR_INZ. apply IZR_le. lia. }
  unfold calmTimer, lastSpawn, calmCooldown. nat_tests.
  rewrite (INR_literal 859 859 eq_refl). lra.
Qed.

Lemma quiet_frame (n : nat) (e : GameEngine) :
  Quiet n e -> CalmClock n e ->
  spawnTimer (patternSystem e) = calmTimer n -> (n <= 998)%nat ->
  let e' := GameEngine.gameLoop (INR (S n) * (25 / 3)) e in
  Quiet (S n) e' /\ CalmClock (S n) e' /\
  spawnTimer (patternSystem e') = calmTimer (S n).
Proof.
  intros Q [Ha Hl] Ht Hn e'.
  assert (Hft : Rmin ((INR (S n) * (25 / 3) - lastTime e) / 1000) 0.25
                = 1 / 120).
  { rewrite Hl, S_INR. rewrite Rmin_left; lra. }
  pose proof (gameLoop_single_tick (INR (S n) * (25 / 3)) e
                (quiet_state n e Q)) as He'.
  cbv zeta in He'. rewrite Hft, Ha in He'.
  specialize (He' ltac:(unfold GameEngine.physicsStep; lra)).
  fold e' in He'.
  set (e2 := with_accumulator (0 + 1 / 120) _) in He'.
  assert (Q2 : Quiet n e2) by (apply quiet_clock, Q).
  assert (Ht2 : spawnTimer (patternSystem e2) = calmTimer n) by exact Ht.
  assert (H0 : 0 <= INR n <= 998).
  { split; [apply pos_INR|]. rewrite INR_IZR_INZ. apply IZR_le. lia. }
  assert (Hcam : -400 < cameraY e2
                 \/ GameEngine.physicsStep < spawnTimer (patternSystem e2)).
  { destruct (Nat.le_gt_cases n 886) as [Hlo|Hhi].
    - left. rewrite (quiet_camera n e2 Q2), (quiet_by n e2 Q2).
      assert (Hm : 0 <= INR n <= 886).
      { split; [apply pos_INR|]. rewrite INR_IZR_INZ. apply IZR_le. lia. }
      pose proof (quiet_height_low (INR n) Hm).
      apply Rmin_glb_lt; lra.
    - right. rewrite Ht2. unfold GameEngine.physicsStep.
      apply calmTimer_late. lia. }
  destruct (quiet_tick n e2 Q2) as (Q' & Hacc & Hlast); [lia | exact Hcam|].
  pose proof (updatePhysics_timer GameEngine.physicsStep e2
                (quiet_patterns n e2 Q2)) as Htimer.
  set (e1 := GameEngine.updatePhysics GameEngine.physicsStep e2) in *.
  rewrite He'. split; [|split].
  - rewrite <- (with_lastTime_same e1). apply quiet_clock, Q'.
  - split; cbn [accumulator lastTime with_accumulator].
    + rewrite Hacc. cbn [accumulator e2 with_accumulator].
      unfold GameEngine.physicsStep. lra.
    + rewrite Hlast. reflexivity.
  - cbn [patternSystem with_accumulator]. rewrite Htimer, Ht2.
    rewrite (quiet_time n e2 Q2). unfold GameEngine.physicsStep.
    destruct (calmTimer_step n Hn) as [[Hout ->]|[Hrun ->]];
      destruct (Rle_dec (calmTimer n - 1 / 120) 0) as [Hle|Hgt]; try lra.
    unfold calmCooldown. rewrite S_INR.
    rewrite Rmin_right by lra. rewrite Rmax_right by lra. lra.
Qed.

Lemma quiet_base :
  Quiet 0 (calmState 0) /\ CalmClock 0 (calmState 0) /\
  spawnTimer (patternSystem (calmState 0)) = calmTimer 0.
Proof.
  unfold calmState, calmInputs, run.
  cbn [app calmFrames fold_left exec]. rewrite start_idle.
  assert (Hm : Rmin ((0 - 0) / 1000) 0.25 = 0) by (rewrite Rmin_left; lra).
  split; [|split].
  - constructor; unfold balloonVy, balloonY; cbn;
      unfold GameEngine.BALLOON_BASE_VELOCITY, GameEngine.BALLOON_ACCELERATION,
        GameEngine.SHIELD_LERP_FACTOR;
      try reflexivity; try lra.
    + rewrite Rmin_left; lra.
    + constructor.
    + apply vector_eq; cbn; field.
    + constructor.
  - split; cbn; lra.
  - reflexivity.
Qed.

(** The calm run through tick 999. *)
Lemma quiet_run (n : nat) :
  (n <= 999)%nat ->
  Quiet n (calmState n) /\ CalmClock n (calmState n) /\
  spawnTimer (patternSystem (calmState n)) = calmTimer n.
Proof.
  induction n as [|n IH]; intros Hn.
  - exact quiet_base.
  - destruct IH as (Q & K & T); [lia|].
    unfold calmState, calmInputs in *. cbn [calmFrames].
    rewrite app_assoc, run_app. cbn [run fold_left exec].
    apply (quiet_frame n _ Q K T). lia.
Qed.

Lemma lastTwo_constant (l : list string) (N : string) :
  Forall (fun n => n = N) l -> (2 <= length l)%nat ->
  PatternSystem.lastTwo l = [N; N].
Proof.
  intros Hall Hlen. unfold PatternSystem.lastTwo.
  assert (Hs : Forall (fun n => n = N) (skipn (length l - 2) l)).
  { apply List.Forall_forall. intros n Hin.
    eapply List.Forall_forall in Hall; [exact Hall|].
    rewrite <- (firstn_skipn (length l - 2) l). apply in_or_app. right.
    exact Hin. }
  assert (H2 : length (skipn (length l - 2) l) = 2%nat)
    by (rewrite length_skipn; lia).
  destruct (skipn (length l - 2) l) as [|a [|b [|c rest]]];
    try discriminate.
  inversion Hs as [|? ? Ea Hs']. inversion Hs' as [|? ? Eb _]. subst.
  reflexivity.
Qed.

(** The selection of tick 1000 of the calm run.  After 999 ticks the timer
    has run out, every selection so far returned block rain, and the spawn
    depth is past 500, so that the chicane is unlocked: the tick executes a
    pattern other than block rain. *)
Lemma selection_no_third_repeat_witness :
  let e := calmState 999 in
  let ps := patternSystem e in
  let altitude := Rabs (cameraY e - 100) / 10 in
  (3 <= length (patternHistory ps))%nat /\
  exists p,
    In p (patterns ps) /\ minAltitude p <= altitude /\
    name p <> "blockRain"%string /\
    latestSelection
      (patternSystem (GameEngine.updatePhysics GameEngine.physicsStep e))
    = Some (name p).
Proof.
  intros e ps altitude.
  destruct (quiet_run 999 (le_n 999)) as (Q & _ & T). fold e in Q, T.
  pose proof (generatorInRun_reachable 1920 1080 (fun _ => 0) e
                (calmState_reachable 999))
    as (_ & _ & _ & Hs & _ & _ & Hearly).
  fold ps in Hs, Hearly, T.
  assert (H999 : INR 999 = 999) by exact (INR_literal 999 999 eq_refl).
  assert (Hlen : (3 <= length (patternHistory ps))%nat).
  { destruct (Nat.lt_ge_cases (length (patternHistory ps)) 3) as [Hlt|Hge];
      [exfalso | exact Hge].
    destruct (Hearly Hlt) as (Hphi & _).
    rewrite (quiet_time 999 e Q), H999 in Hphi.
    assert (Hl : INR (length (patternHistory ps)) <= 2).
    { change 2 with (INR 2). apply le_INR. lia. }
    lra. }
  apply (selection_no_third_repeat 1920 1080 (fun _ => 0) e "blockRain").
  - apply calmState_reachable.
  - change (spawnTimer ps <= GameEngine.physicsStep). rewrite T.
    unfold calmTimer, lastSpawn, calmCooldown, GameEngine.physicsStep.
    nat_tests. rewrite H999, (INR_literal 859 859 eq_refl). lra.
  - apply lastTwo_constant; [exact (quiet_history 999 e Q)|].
    change (2 <= length (patternHistory ps))%nat. lia.
  - exists (mkPattern "chicane" 2 50 PatternSystem.spawnChicane).
    split; [rewrite (quiet_patterns 999 e Q); right; left; reflexivity|].
    split; [|discriminate].
    cbn [minAltitude].
    rewrite (quiet_camera 999 e Q), (quiet_by 999 e Q), H999.
    rewrite Rmin_right by lra. rewrite Rabs_left by lra. lra.
Defined.
